(** * The 2048 board engine of [my2048.py]: model and verified properties

    The development embeds the [Board] class of [my2048.py] (grid, spawn,
    slide/merge pass, win/loss flags) and the key dispatch of [main], and
    proves the behavioural properties of the engine over that embedding.

    Conventions of the embedding
    - a cell is [option Z]: [None] is Python's [None], [Some v] the int [v]
      (Python ints are unbounded, hence [Z]);
    - a grid is a list of rows, [list (list cell)], as [self._cells] is;
    - the module-level random generator is made explicit: every call of
      [_add_tile_if_room] receives the two numbers it draws;
    - the Board only ever holds a grid of [N] rows of [N] cells ([wf_grid],
      an invariant of [reachable]); on such a grid no index of the program
      is out of range.  Statements that need the shape assume [wf_grid] or
      [reachable]; the others hold of the embedding whatever the grid. *)

From Stdlib Require Import ZArith Lia.
From stdpp Require Import base option list strings.

Local Open Scope Z_scope.
Local Open Scope nat_scope.

(** ** Module constants (lines 19-30) *)

(** A position [(r, c)]; a cell; the grid [self._cells]; a row or column of
    positions; a direction, the list of its lines. *)
Abbreviation pos := (nat * nat)%type.
Abbreviation cell := (option Z).
Abbreviation grid := (list (list cell)).
Abbreviation line := (list pos).
Abbreviation direction := (list line).

(** [N = 4  # NxN board] *)
Definition N : nat := 4.
(** [GOAL = 2048] *)
Definition GOAL : Z := 2048.

(** [UP = [[(r, c) for r in range(N)] for c in range(N)]] *)
Definition UP : direction :=
  List.map (fun c => List.map (fun r => (r, c)) (seq 0 N)) (seq 0 N).
(** [LEFT = [[(r, c) for c in range(N)] for r in range(N)]] *)
Definition LEFT : direction :=
  List.map (fun r => List.map (fun c => (r, c)) (seq 0 N)) (seq 0 N).
(** [DOWN = [i[::-1] for i in UP]] *)
Definition DOWN : direction := List.map (@rev pos) UP.
(** [RIGHT = [i[::-1] for i in LEFT]] *)
Definition RIGHT : direction := List.map (@rev pos) LEFT.
(** [DIRS = (UP, LEFT, DOWN, RIGHT)] *)
Definition DIRS : list direction := [UP; LEFT; DOWN; RIGHT].
(** [FLATPOS = [(r, c) for r in range(N) for c in range(N)]] *)
Definition FLATPOS : list pos :=
  List.flat_map (fun r => List.map (fun c => (r, c)) (seq 0 N)) (seq 0 N).

(** ** Cells and grids *)

(** Python truthiness of a cell, as tested by [if not b[r][c]]: [None] and
    the int [0] are false, every other int is true. *)
Definition truthy (x : cell) : bool :=
  match x with
  | Some v => negb (v =? 0)%Z
  | None => false
  end.

(** [x == y] on cells: equal ints, or both [None]. *)
Definition cell_eqb (x y : cell) : bool :=
  match x, y with
  | Some v, Some w => (v =? w)%Z
  | None, None => true
  | _, _ => false
  end.

(** [x * 2], the value [b[r][c] *= 2] stores.  The statement is only executed
    on a truthy cell; on [None] Python would raise [TypeError], a case the
    pass never reaches ([double_truthy] below), and which is mapped to [None]
    here. *)
Definition double (x : cell) : cell :=
  match x with
  | Some v => Some (v * 2)%Z
  | None => None
  end.

(** [b[r][c]] as Python evaluates it: [None] here stands for [IndexError]. *)
Definition lookup_cell (b : grid) (p : pos) : option cell :=
  b !! p.1 ≫= fun row => row !! p.2.

(** [b[r][c]] read as a value.  Every position of the direction tables and of
    [FLATPOS] is inside an [N]x[N] grid ([lookup_cell_in_range]), so the
    default is never used on the grids the program builds. *)
Definition cell_at (b : grid) (p : pos) : cell :=
  default None (lookup_cell b p).

(** [b[r][c] = v]: row [r] is updated in place at column [c].  Out of range
    Python raises [IndexError]; here the grid is returned as it is, a case
    excluded by [wf_grid] and [in_range] in what follows. *)
Definition assign (b : grid) (p : pos) (v : cell) : grid :=
  alter (fun row => <[p.2 := v]> row) p.1 b.

(** An [N]x[N] grid, the only shape [reset] builds. *)
Definition wf_grid (b : grid) : Prop :=
  length b = N /\ Forall (fun row => length row = N) b.

Definition in_range (p : pos) : Prop := p.1 < N /\ p.2 < N.

(** ** The slide/merge pass (lines 57-78) *)

(** The locals of [move] that the loops update, with [self.won]. *)
Record scan : Type := Scan {
  sc_b : grid;       (* b: the working grid *)
  sc_moved : bool;   (* moved *)
  sc_won : bool      (* self.won *)
}.

(** [next(((nr, nc) for (nr, nc) in rest if b[nr][nc]), MISS)]: the first
    position of [rest] with a truthy cell.  [MISS = (-1, -1)] is no position
    of any line, so [(nr, nc) != MISS] is exactly "found": [None] is [MISS]. *)
Definition next_tile (b : grid) (rest : line) : option pos :=
  List.find (fun q => truthy (cell_at b q)) rest.

(** Lines 62-67: an empty cell at [p] takes the next tile of [rest]. *)
Definition slide_into (p : pos) (rest : line) (s : scan) : scan :=
  if negb (truthy (cell_at (sc_b s) p)) then
    match next_tile (sc_b s) rest with
    | Some q =>
        let b1 := assign (sc_b s) p (cell_at (sc_b s) q) in
        let b2 := assign b1 q None in
        Scan b2 (sc_moved s || true) (sc_won s)
    | None => s
    end
  else s.

(** Lines 75-78: the tile at [q] is merged into the equal tile at [p]. *)
Definition merge_into (just_checking : bool) (p q : pos) (s : scan) : scan :=
  let b1 := assign (sc_b s) q None in
  let b2 := assign b1 p (double (cell_at b1 p)) in
  Scan b2 (sc_moved s || true)
       (sc_won s || (negb just_checking && cell_eqb (cell_at b2 p) (Some GOAL))).

(** The inner loop, [for i, (r, c) in enumerate(posns)], by recursion on the
    positions still to visit: the head is [(r, c)] and the tail is
    [rest = posns[i+1:]].  Returning without the recursive call is [break]. *)
Fixpoint move_line (just_checking : bool) (posns : line) (s : scan) : scan :=
  match posns with
  | [] => s
  | p :: rest =>
      let s1 := slide_into p rest s in
      if negb (truthy (cell_at (sc_b s1) p)) then s1
      else
        match next_tile (sc_b s1) rest with
        | None => s1
        | Some q =>
            let s2 :=
              if cell_eqb (cell_at (sc_b s1) p) (cell_at (sc_b s1) q)
              then merge_into just_checking p q s1
              else s1 in
            move_line just_checking rest s2
        end
  end.

(** The outer loop, [for posns in dir]. *)
Definition move_lines (just_checking : bool) (dir : direction) (s : scan) : scan :=
  List.fold_left (fun acc posns => move_line just_checking posns acc) dir s.

(** ** The random draws (lines 33-34, 52-53) *)

(** The two numbers one call of [_add_tile_if_room] draws from the module's
    random generator: one for [random.choice], one for [randtile]. *)
Record draw : Type := Draw {
  dr_choice : nat;
  dr_tile : nat
}.

(** [random.choice(seq)] is [seq[k]] for a drawn [k < len(seq)]; any number
    is brought into that range.  It is only called on a non-empty list. *)
Definition random_choice (k : nat) (l : list pos) : pos :=
  List.nth (k mod length l) l (0, 0).

(** [random.sample(choices, 1, counts=counts)[0]] with [choices=(2, 4)] and
    [counts=(9, 1)]: one element of the population in which 2 occurs nine
    times and 4 once. *)
Definition randtile (k : nat) : Z :=
  List.nth (k mod 10) (repeat 2%Z 9 ++ repeat 4%Z 1) 2%Z.

(** ** The Board class (lines 37-90) *)

Record Board : Type := mkBoard {
  _cells : grid;
  won : bool;
  lost : bool
}.

(** [gameover] (lines 88-90). *)
Definition gameover (self : Board) : bool := won self || lost self.

(** The comprehension of line 49:
    [[(r, c) for (r, c) in FLATPOS if not self._cells[r][c]]]. *)
Definition empty_cells (b : grid) : list pos :=
  List.filter (fun p => negb (truthy (cell_at b p))) FLATPOS.

(** [_add_tile_if_room] (lines 48-54). *)
Definition _add_tile_if_room (dr : draw) (self : Board) : Board :=
  let empty := empty_cells (_cells self) in
  match empty with
  | [] => self
  | _ :: _ =>
      let p := random_choice (dr_choice dr) empty in
      let tile := randtile (dr_tile dr) in
      mkBoard (assign (_cells self) p (Some tile)) (won self) (lost self)
  end.

(** [reset] (lines 41-46); [[[None]*N for r in range(N)]] builds [N] distinct
    rows of [N] empty cells. *)
Definition reset (dr1 dr2 : draw) (self : Board) : Board :=
  let self1 := mkBoard (repeat (repeat None N) N) (won self) (lost self) in
  let self2 := _add_tile_if_room dr1 self1 in
  let self3 := _add_tile_if_room dr2 self2 in
  mkBoard (_cells self3) false false.

(** [Board()]: [__init__] calls [reset] on the new object.  The object has no
    attribute yet; [reset] reads none of them before it assigns it, so the
    record it starts from is immaterial. *)
Definition __init__ (dr1 dr2 : draw) : Board :=
  reset dr1 dr2 (mkBoard [] false false).

(** Lines 57-78 of [move], the part a call with [_just_checking=True] runs.
    Line 58 decides what [b] is: with [_just_checking] it is a deep copy,
    an object disjoint from [self._cells], so the writes of the pass are
    lost with it and [self._cells] keeps its value; otherwise [b] is the
    very object [self._cells], and every write to [b] is a write to it. *)
Definition slide_merge (dir : direction) (just_checking : bool) (self : Board)
  : bool * Board :=
  let s := move_lines just_checking dir (Scan (_cells self) false (won self)) in
  (sc_moved s,
   mkBoard (if just_checking then _cells self else sc_b s) (sc_won s) (lost self)).

(** [any(self.move(i, _just_checking=True) for i in DIRS)]: the generator is
    consumed up to the first true result.  A call of [move] with
    [_just_checking=True] skips lines 79-82, so it is [slide_merge]. *)
Fixpoint any_move (dirs : list direction) (self : Board) : bool * Board :=
  match dirs with
  | [] => (false, self)
  | i :: dirs' =>
      let '(m, self1) := slide_merge i true self in
      if m then (true, self1) else any_move dirs' self1
  end.

(** [_cant_move] (lines 85-86). *)
Definition _cant_move (self : Board) : bool * Board :=
  let '(a, self1) := any_move DIRS self in (negb a, self1).

(** [move] (lines 56-83).  The result is the returned [moved] and the object
    after the call. *)
Definition move (dir : direction) (just_checking : bool) (dr : draw) (self : Board)
  : bool * Board :=
  let '(moved, self1) := slide_merge dir just_checking self in
  if negb just_checking then
    (* self.lost = not self.won and self._cant_move() *)
    let self2 :=
      if negb (won self1) then
        let '(cm, self') := _cant_move self1 in
        mkBoard (_cells self') (won self') cm
      else mkBoard (_cells self1) (won self1) false in
    (* if moved and not self.gameover: self._add_tile_if_room() *)
    let self3 :=
      if moved && negb (gameover self2) then _add_tile_if_room dr self2
      else self2 in
    (moved, self3)
  else (moved, self1).

(** ** The key dispatch of [main] (lines 120-135) *)

(** One iteration of the [while] loop for a key other than ["q"], without the
    drawing: the Board after it.  [dr1] and [dr2] are the draws a [reset]
    takes; a [move] takes [dr1]. *)
Definition key_step (key : string) (dr1 dr2 : draw) (b : Board) : Board :=
  if String.eqb key "n" then reset dr1 dr2 b
  else if gameover b then b
  else if String.eqb key "h" || String.eqb key "key_left" then (move LEFT false dr1 b).2
  else if String.eqb key "l" || String.eqb key "key_right" then (move RIGHT false dr1 b).2
  else if String.eqb key "j" || String.eqb key "key_down" then (move DOWN false dr1 b).2
  else if String.eqb key "k" || String.eqb key "key_up" then (move UP false dr1 b).2
  else b.

(** ** Ghost instrumentation of the pass *)

(** [move_line] with a log that plays no part in the computation: each
    execution of line 76 appends the value it stores.  [move_line_log_erase]
    shows that dropping the log gives [move_line] back. *)
Fixpoint move_line_log (just_checking : bool) (posns : line) (s : scan)
    (log : list cell) : scan * list cell :=
  match posns with
  | [] => (s, log)
  | p :: rest =>
      let s1 := slide_into p rest s in
      if negb (truthy (cell_at (sc_b s1) p)) then (s1, log)
      else
        match next_tile (sc_b s1) rest with
        | None => (s1, log)
        | Some q =>
            if cell_eqb (cell_at (sc_b s1) p) (cell_at (sc_b s1) q)
            then
              let s2 := merge_into just_checking p q s1 in
              move_line_log just_checking rest s2 (log ++ [cell_at (sc_b s2) p])
            else move_line_log just_checking rest s1 log
        end
  end.

Definition move_lines_log (just_checking : bool) (dir : direction) (s : scan)
    (log : list cell) : scan * list cell :=
  List.fold_left
    (fun acc posns => move_line_log just_checking posns acc.1 acc.2) dir (s, log).

(** The values the merges of [move(dir, just_checking)] store, in order. *)
Definition merged_values (dir : direction) (just_checking : bool) (self : Board)
  : list cell :=
  (move_lines_log just_checking dir (Scan (_cells self) false (won self)) []).2.

(** ** Vocabulary of the properties *)

(** The grid [move(dir, just_checking)] leaves in [b] when its loops end:
    [self._cells] itself before line 79 in a real move, the discarded copy in
    a dry run. *)
Definition slid_grid (dir : direction) (just_checking : bool) (self : Board) : grid :=
  sc_b (move_lines just_checking dir (Scan (_cells self) false (won self))).

(** Number of occupied (truthy) cells among all the cells of the grid. *)
Definition occupied_count (b : grid) : nat :=
  length (List.filter truthy (concat b)).

(** Every cell is occupied. *)
Definition full_grid (b : grid) : bool :=
  List.forallb (fun p => truthy (cell_at b p)) FLATPOS.

(** Horizontal or vertical neighbours. *)
Definition adjacent (p q : pos) : bool :=
  ((p.1 =? q.1) && ((p.2 + 1 =? q.2) || (q.2 + 1 =? p.2)))
  || ((p.2 =? q.2) && ((p.1 + 1 =? q.1) || (q.1 + 1 =? p.1))).

(** No two neighbouring cells hold equal values. *)
Definition no_equal_neighbours (b : grid) : bool :=
  List.forallb
    (fun p => List.forallb
       (fun q => negb (adjacent p q && cell_eqb (cell_at b p) (cell_at b q)))
       FLATPOS)
    FLATPOS.

(** Consecutive positions of a line are [adjacent]. *)
Fixpoint chained (posns : line) : bool :=
  match posns with
  | p :: (q :: _) as rest => adjacent p q && chained rest
  | _ => true
  end.

(** A power of two that is at least 2. *)
Definition pow2_ge2 (v : Z) : Prop :=
  exists k : nat, 1 <= k /\ v = (2 ^ Z.of_nat k)%Z.

(** A cell that is empty or holds a power of two that is at least 2. *)
Definition tile_ok (x : cell) : Prop :=
  match x with
  | Some v => pow2_ge2 v
  | None => True
  end.

(** The values of a grid along a line. *)
Definition line_values (b : grid) (posns : line) : list cell :=
  List.map (cell_at b) posns.

(** The states of a Board object over its life: construction, then any
    calls of [reset] and [move] (real or dry run) in the four directions,
    with any outcome of the random draws. *)
Inductive reachable : Board -> Prop :=
  | reach_init dr1 dr2 :
      reachable (__init__ dr1 dr2)
  | reach_reset dr1 dr2 self :
      reachable self -> reachable (reset dr1 dr2 self)
  | reach_move dir just_checking dr self :
      reachable self -> In dir DIRS ->
      reachable (move dir just_checking dr self).2.

(** What the pass needs of a direction: its lines are inside the grid, and
    no position occurs twice, in a line or in two lines. *)
Definition good_direction (dir : direction) : Prop :=
  Forall (Forall in_range) dir /\ NoDup (concat dir).

#[local] Instance in_range_dec (p : pos) : Decision (in_range p).
Proof. unfold in_range. apply _. Defined.

(** Every cell of the grid satisfies [P]. *)
Definition grid_all (P : cell -> Prop) (b : grid) : Prop := Forall (Forall P) b.

(** The Board at the end of line 80 of a real move. *)
Definition after_loss_check (dir : direction) (self : Board) : Board :=
  let s := move_lines false dir (Scan (_cells self) false (won self)) in
  mkBoard (sc_b s) (sc_won s)
    (negb (sc_won s) && (_cant_move (mkBoard (sc_b s) (sc_won s) (lost self))).1).

(** The grid is [N]x[N], its tiles are powers of two from 2 on, and the game
    is not both won and lost. *)
Definition board_inv (self : Board) : Prop :=
  wf_grid (_cells self) /\ grid_all tile_ok (_cells self) /\
  won self && lost self = false.

(** Two scans with the same grid and the same [moved]. *)
Definition same_writes (s s' : scan) : Prop :=
  sc_b s = sc_b s' /\ sc_moved s = sc_moved s'.

(** *** The pass as a sequence of writes

    One write group of the pass: a slide (lines 65-67) or a merge (lines
    75-78), with what the code has tested when it runs it.  The label is the
    ghost log entry of the group: empty for a slide, the stored value for a
    merge. *)
Inductive pass_step (just_checking : bool) : scan -> list cell -> scan -> Prop :=
  | ps_slide s p q :
      in_range p -> in_range q -> p <> q ->
      truthy (cell_at (sc_b s) p) = false ->
      truthy (cell_at (sc_b s) q) = true ->
      pass_step just_checking s []
        (Scan (assign (assign (sc_b s) p (cell_at (sc_b s) q)) q None)
              (sc_moved s || true) (sc_won s))
  | ps_merge s p q :
      in_range p -> in_range q -> p <> q ->
      truthy (cell_at (sc_b s) p) = true ->
      truthy (cell_at (sc_b s) q) = true ->
      cell_eqb (cell_at (sc_b s) p) (cell_at (sc_b s) q) = true ->
      pass_step just_checking s
        [cell_at (sc_b (merge_into just_checking p q s)) p]
        (merge_into just_checking p q s).

(** Any number of write groups in a row, with the log they leave. *)
Inductive pass_steps (just_checking : bool) : scan -> list cell -> scan -> Prop :=
  | pss_refl s :
      pass_steps just_checking s [] s
  | pss_snoc s1 s2 s3 log ev :
      pass_steps just_checking s1 log s2 ->
      pass_step just_checking s2 ev s3 ->
      pass_steps just_checking s1 (log ++ ev) s3.

(** ** Concrete boards *)

Definition row4 (a b c d : cell) : list cell := [a; b; c; d].

Definition demo_grid : grid :=
  [ row4 (Some 2%Z) (Some 2%Z) None None;
    row4 None (Some 2%Z) None (Some 4%Z);
    row4 (Some 2%Z) (Some 2%Z) (Some 2%Z) (Some 2%Z);
    row4 (Some 4%Z) None (Some 4%Z) (Some 8%Z) ].

(** A fresh Board whose draws all came out 0: a 2 at (0,0) and at (0,1). *)
Definition fresh_board : Board := __init__ (Draw 0 0) (Draw 0 0).

(** A full board on which no move is possible. *)
Definition stuck_board : Board :=
  mkBoard
    [ row4 (Some 2%Z) (Some 4%Z) (Some 2%Z) (Some 4%Z);
      row4 (Some 4%Z) (Some 2%Z) (Some 4%Z) (Some 2%Z);
      row4 (Some 2%Z) (Some 4%Z) (Some 2%Z) (Some 4%Z);
      row4 (Some 4%Z) (Some 2%Z) (Some 4%Z) (Some 2%Z) ]
    false false.

(** One move from the goal, and the Board after that move to the left. *)
Definition almost_won : Board :=
  mkBoard
    [ row4 (Some 1024%Z) (Some 1024%Z) None None;
      row4 None None None None;
      row4 None None None None;
      row4 None None None None ]
    false false.

Definition just_won : Board := (move LEFT false (Draw 0 0) almost_won).2.

(** A whole game from [fresh_board] to the goal, one number for each real
    move: direction index (in [DIRS]) + 4 * choice draw + 64 * tile draw
    (0 draws a 2, 1 a 4). *)
Definition recorded_game : list nat :=
  [
    65; 69; 65; 65; 65; 69; 65; 65; 65; 69; 65; 65; 65; 81; 76; 64; 65; 65;
    69; 65; 65; 65; 65; 75; 0; 65; 65; 65; 19; 0; 65; 19; 64; 75; 0; 65; 65;
    69; 65; 65; 65; 65; 19; 0; 65; 65; 65; 19; 0; 65; 19; 64; 75; 0; 65; 65;
    65; 19; 0; 65; 19; 64; 75; 0; 65; 19; 64; 75; 64; 67; 67; 67; 83; 64;
    65; 65; 65; 64; 65; 75; 0; 65; 65; 65; 19; 0; 65; 19; 64; 75; 0; 65; 65;
    65; 19; 0; 65; 19; 64; 75; 0; 65; 19; 64; 75; 64; 67; 67; 67; 83; 64;
    65; 65; 65; 78; 64; 65; 75; 64; 67; 67; 65; 64; 75; 64; 83; 64; 65; 78;
    72; 99; 64; 67; 83; 64; 67; 67; 67; 67; 67; 67; 67; 71; 0; 65; 65; 69;
    0; 65; 69; 64; 64; 65; 64; 65; 64; 65; 0; 3; 83; 64; 65; 65; 65; 78; 64;
    65; 75; 64; 67; 67; 65; 64; 75; 64; 83; 64; 65; 65; 65; 78; 64; 65; 75;
    64; 67; 67; 65; 64; 75; 64; 83; 64; 65; 78; 72; 99; 64; 67; 83; 64; 67;
    67; 67; 67; 67; 67; 67; 71; 0; 65; 65; 65; 68; 64; 19; 0; 65; 19; 64;
    75; 64; 67; 67; 67; 83; 64; 65; 78; 72; 99; 64; 67; 83; 64; 67; 67; 67;
    67; 67; 67; 67; 71; 0; 65; 78; 68; 95; 76; 0; 83; 64; 67; 67; 67; 67;
    67; 67; 67; 71; 64; 67; 67; 67; 67; 67; 67; 67; 67; 67; 67; 71; 64; 64;
    67; 67; 99; 64; 65; 65; 69; 65; 65; 69; 64; 75; 0; 65; 19; 64; 75; 0;
    65; 65; 65; 19; 0; 65; 19; 64; 75; 0; 65; 19; 64; 75; 64; 67; 67; 67;
    83; 64; 65; 65; 65; 78; 64; 65; 75; 64; 67; 67; 65; 64; 75; 64; 83; 64;
    65; 78; 72; 99; 64; 67; 83; 64; 67; 67; 67; 67; 67; 67; 67; 71; 0; 65;
    65; 65; 68; 64; 19; 0; 65; 19; 64; 75; 64; 67; 67; 67; 83; 64; 65; 78;
    72; 99; 64; 67; 83; 64; 67; 67; 67; 67; 67; 67; 67; 71; 0; 65; 78; 68;
    95; 76; 0; 83; 64; 67; 67; 67; 67; 67; 67; 67; 71; 64; 67; 67; 67; 67;
    67; 67; 67; 67; 67; 67; 71; 64; 64; 67; 67; 99; 64; 65; 65; 65; 78; 64;
    65; 79; 64; 83; 64; 67; 67; 83; 64; 65; 78; 72; 99; 64; 67; 83; 64; 67;
    67; 67; 67; 67; 67; 67; 71; 0; 65; 78; 68; 95; 76; 0; 83; 64; 67; 67;
    67; 67; 67; 67; 67; 71; 64; 67; 67; 67; 67; 67; 67; 67; 67; 67; 67; 71;
    64; 64; 67; 67; 99; 64; 65; 78; 72; 72; 67; 67; 67; 67; 67; 67; 67; 67;
    67; 65; 4; 67; 67; 67; 67; 67; 67; 67; 13; 4; 67; 67; 67; 13; 4; 67; 13;
    64; 65; 4; 67; 67; 67; 67; 67; 67; 67; 13; 4; 67; 67; 67; 13; 4; 67; 13;
    64; 65; 4; 67; 67; 67; 13; 4; 67; 13; 64; 65; 4; 67; 13; 64; 65; 64; 69;
    65; 65; 77; 68; 67; 67; 67; 65; 0; 65; 1
  ].

Definition play_step (self : Board) (code : nat) : Board :=
  (move (List.nth (code mod 4) DIRS UP) false
        (Draw ((code / 4) mod 16) (9 * (code / 64))) self).2.

Definition play (codes : list nat) (self : Board) : Board :=
  List.fold_left play_step codes self.

(** The Board at the end of the recorded game. *)
Definition won_game : Board := play recorded_game fresh_board.

(** ** Vocabulary of the further properties *)

(** The number a cell adds to the board's total: its tile, or 0. *)
Definition cell_value (x : cell) : Z :=
  match x with
  | Some v => v
  | None => 0%Z
  end.

(** The sum of all the tiles of the grid. *)
Definition tile_sum (b : grid) : Z :=
  List.fold_right Z.add 0%Z (List.map cell_value (concat b)).

(** The tiles of a line, in order: the values of its occupied cells. *)
Definition tiles (l : list cell) : list Z :=
  List.flat_map (fun x => if truthy x then [cell_value x] else []) l.

(** The row rule of the game on a list of tiles: from the front, a tile and
    the next one merge into their double when they are equal, and the double
    is not merged again.  [merge_from a l] treats the tiles [a :: l]. *)
Fixpoint merge_from (a : Z) (l : list Z) : list Z :=
  match l with
  | [] => [a]
  | b :: r =>
      if (a =? b)%Z
      then (a * 2)%Z :: match r with [] => [] | c :: r' => merge_from c r' end
      else a :: merge_from b r
  end.

Definition merge_tiles (l : list Z) : list Z :=
  match l with
  | [] => []
  | a :: r => merge_from a r
  end.

(** The row rule on a line of cells: the merged tiles packed at the front,
    empty cells behind them. *)
Definition row_move (l : list cell) : list cell :=
  let m := merge_tiles (tiles l) in
  List.map Some m ++ repeat None (length l - length m).

(** A cell that is not the int 0: empty, or a tile Python takes as true. *)
Definition not_zero (x : cell) : Prop := x <> Some 0%Z.

(** No empty cell of the list comes before an occupied one. *)
Fixpoint packed (l : list cell) : bool :=
  match l with
  | [] => true
  | x :: r =>
      if truthy x then packed r else List.forallb (fun y => negb (truthy y)) r
  end.

(** Two cells next to each other in the list hold equal values. *)
Fixpoint equal_pair (l : list cell) : bool :=
  match l with
  | x :: (y :: _) as r => cell_eqb x y || equal_pair r
  | _ => false
  end.

(** [q] comes right after [p] in the line. *)
Fixpoint follows (p q : pos) (posns : line) : bool :=
  match posns with
  | a :: (b :: _) as r =>
      (bool_decide (a = p) && bool_decide (b = q)) || follows p q r
  | _ => false
  end.

(** A grid on which no direction can move: full with no two equal
    neighbours, or without any tile. *)
Definition stuck_grid (b : grid) : Prop :=
  (full_grid b = true /\ no_equal_neighbours b = true)
  \/ (forall p, truthy (cell_at b p) = false).

(** One iteration of the [while] loop of [main] (lines 120-137) for a key
    other than ["q"]: the Board after it, and whether it calls [redraw].
    [key] is what [getkey] returned; [dr1] and [dr2] are the draws a [reset]
    takes, and a [move] takes [dr1]. *)
Definition loop_iteration (key : string) (dr1 dr2 : draw) (b : Board)
  : Board * bool :=
  if String.eqb key "n" then (reset dr1 dr2 b, true)
  else if gameover b then (b, false)
  else
    let '(moved, b') :=
      if String.eqb key "h" || String.eqb key "key_left"
      then move LEFT false dr1 b
      else if String.eqb key "l" || String.eqb key "key_right"
      then move RIGHT false dr1 b
      else if String.eqb key "j" || String.eqb key "key_down"
      then move DOWN false dr1 b
      else if String.eqb key "k" || String.eqb key "key_up"
      then move UP false dr1 b
      else (false, b) in
    (b', moved || gameover b').

(** The [while] loop of [main] over the keys [getkey] returns, each with the
    draws its iteration may take: it ends at the first ["q"]. *)
Fixpoint main_loop (keys : list (string * draw * draw)) (b : Board) : Board :=
  match keys with
  | [] => b
  | (key, dr1, dr2) :: keys' =>
      if String.eqb key "q" then b
      else main_loop keys' (loop_iteration key dr1 dr2 b).1
  end.

(** A cell whose tile, if it holds one, is at most [m]. *)
Definition capped (m : Z) (x : cell) : Prop :=
  match x with
  | Some v => (v <= m)%Z
  | None => True
  end.

(** What the key loop keeps: a reachable Board whose tiles are at most the
    goal, and at most half the goal as long as the game is not won. *)
Definition session_inv (b : Board) : Prop :=
  reachable b
  /\ (forall p, capped GOAL (cell_at (_cells b) p))
  /\ (won b = false -> forall p, capped 1024 (cell_at (_cells b) p)).

(** The status line [redraw] shows (line 108). *)
Definition status_line (b : Board) : string :=
  if gameover b
  then ("You " ++ (if won b then "won" else "lost") ++ "!")%string
  else "Use the arrow keys or H, J, K, L to move."%string.

(** *** [__repr__] (lines 92-98)

    A Python [str] is taken as the list of its code points. *)

(** The decimal digits of [str(v)]. *)
Fixpoint uint_codes (u : Decimal.uint) : list Z :=
  match u with
  | Decimal.Nil => []
  | Decimal.D0 u' => 48%Z :: uint_codes u'
  | Decimal.D1 u' => 49%Z :: uint_codes u'
  | Decimal.D2 u' => 50%Z :: uint_codes u'
  | Decimal.D3 u' => 51%Z :: uint_codes u'
  | Decimal.D4 u' => 52%Z :: uint_codes u'
  | Decimal.D5 u' => 53%Z :: uint_codes u'
  | Decimal.D6 u' => 54%Z :: uint_codes u'
  | Decimal.D7 u' => 55%Z :: uint_codes u'
  | Decimal.D8 u' => 56%Z :: uint_codes u'
  | Decimal.D9 u' => 57%Z :: uint_codes u'
  end.

(** [str(v)] for an int [v]: its decimal digits, after a minus sign (code
    point 45) when it is negative. *)
Definition str_int (v : Z) : list Z :=
  match Z.to_int v with
  | Decimal.Pos u => uint_codes u
  | Decimal.Neg u => 45%Z :: uint_codes u
  end.

(** The format [^5]: the text centred in five columns with spaces (code
    point 32), the odd space to the right; a longer text is left as it is. *)
Definition center5 (t : list Z) : list Z :=
  let pad := 5 - length t in
  repeat 32%Z (pad / 2) ++ t ++ repeat 32%Z (pad - pad / 2).

(** The string literal of line 96, shown in place of an empty cell: the
    three code points U+00E2, U+20AC, U+00A2 of the source file. *)
Definition PLACEHOLDER : list Z := [226; 8364; 162]%Z.

(** [self._cells[r][c] or PLACEHOLDER], formatted with [^5]. *)
Definition cell_field (x : cell) : list Z :=
  center5 (match x with
           | Some v => if truthy x then str_int v else PLACEHOLDER
           | None => PLACEHOLDER
           end).

(** The inner loop of [__repr__], [for c in range(N)]: the [N] cell fields
    of row [r]. *)
Definition row_text (self : Board) (r : nat) : list Z :=
  List.flat_map (fun c => cell_field (cell_at (_cells self) (r, c))) (seq 0 N).

(** [__repr__]: a newline (code point 10), then for each row its cell fields
    and a newline. *)
Definition __repr__ (self : Board) : list Z :=
  10%Z :: List.flat_map (fun r => row_text self r ++ [10%Z]) (seq 0 N).

(** ** Checks of the embedding on the concrete boards *)

Example tables_LEFT_0 : LEFT !! 0 = Some [(0, 0); (0, 1); (0, 2); (0, 3)].
Proof. reflexivity. Qed.

Example tables_DOWN_1 : DOWN !! 1 = Some [(3, 1); (2, 1); (1, 1); (0, 1)].
Proof. reflexivity. Qed.

Example demo_LEFT :
  slid_grid LEFT true (mkBoard demo_grid false false) =
  [ row4 (Some 4%Z) None None None;
    row4 (Some 2%Z) (Some 4%Z) None None;
    row4 (Some 4%Z) (Some 4%Z) None None;
    row4 (Some 8%Z) (Some 8%Z) None None ].
Proof. reflexivity. Qed.

Example demo_DOWN :
  slid_grid DOWN true (mkBoard demo_grid false false) =
  [ row4 None None None None;
    row4 None None None (Some 4%Z);
    row4 (Some 4%Z) (Some 2%Z) (Some 2%Z) (Some 2%Z);
    row4 (Some 4%Z) (Some 4%Z) (Some 4%Z) (Some 8%Z) ].
Proof. reflexivity. Qed.

Example fresh_board_cells :
  fresh_board =
  mkBoard [ row4 (Some 2%Z) (Some 2%Z) None None; row4 None None None None;
            row4 None None None None; row4 None None None None ] false false.
Proof. reflexivity. Qed.

Example just_won_cells :
  just_won =
  mkBoard [ row4 (Some 2048%Z) None None None; row4 None None None None;
            row4 None None None None; row4 None None None None ] true false.
Proof. reflexivity. Qed.

Example almost_won_merges : merged_values LEFT false almost_won = [Some GOAL].
Proof. reflexivity. Qed.

Example fresh_board_LEFT :
  move LEFT false (Draw 0 0) fresh_board =
  (true,
   mkBoard [ row4 (Some 4%Z) (Some 2%Z) None None; row4 None None None None;
             row4 None None None None; row4 None None None None ] false false).
Proof. reflexivity. Qed.

Example won_game_cells :
  won_game =
  mkBoard [ row4 (Some 2048%Z) (Some 8%Z) (Some 4%Z) None;
            row4 (Some 4%Z) (Some 8%Z) (Some 2%Z) (Some 4%Z);
            row4 (Some 8%Z) (Some 4%Z) None None;
            row4 None None None None ] true false.
Proof. vm_compute. reflexivity. Qed.

Example center5_fields :
  cell_field (Some 2%Z) = [32; 32; 50; 32; 32]%Z
  /\ cell_field (Some 16%Z) = [32; 49; 54; 32; 32]%Z
  /\ cell_field (Some 2048%Z) = [50; 48; 52; 56; 32]%Z
  /\ cell_field None = [32; 226; 8364; 162; 32]%Z.
Proof. repeat split; reflexivity. Qed.

Example row_move_checks :
  row_move [Some 2; Some 2; Some 2; Some 2]%Z = [Some 4; Some 4; None; None]%Z
  /\ row_move [Some 4; None; Some 4; Some 8]%Z = [Some 8; Some 8; None; None]%Z
  /\ row_move [None; Some 2; None; Some 4]%Z = [Some 2; Some 4; None; None]%Z
  /\ row_move [Some 2; Some 2; Some 4; None]%Z = [Some 4; Some 4; None; None]%Z
  /\ row_move [None; None; None; None] = [None; None; None; None].
Proof. repeat split; reflexivity. Qed.

(** ** Reading and writing cells *)

Lemma lookup_cell_in_range (b : grid) (p : pos) :
  wf_grid b -> in_range p -> lookup_cell b p = Some (cell_at b p).
Proof.
  intros [Hlen Hrows] [Hr Hc]. unfold cell_at, lookup_cell.
  destruct (lookup_lt_is_Some_2 b p.1) as [row Hrow]; [lia|].
  rewrite Hrow. simpl.
  assert (Hl : length row = N).
  { rewrite Forall_lookup in Hrows. exact (Hrows _ _ Hrow). }
  destruct (lookup_lt_is_Some_2 row p.2) as [x Hx]; [lia|].
  rewrite Hx. reflexivity.
Qed.

Lemma cell_at_assign_eq (b : grid) (p : pos) (v : cell) :
  wf_grid b -> in_range p -> cell_at (assign b p v) p = v.
Proof.
  intros [Hlen Hrows] [Hr Hc]. unfold cell_at, lookup_cell, assign.
  rewrite list_lookup_alter_eq.
  destruct (lookup_lt_is_Some_2 b p.1) as [row Hrow]; [lia|].
  rewrite Hrow. simpl.
  assert (Hl : length row = N).
  { rewrite Forall_lookup in Hrows. exact (Hrows _ _ Hrow). }
  rewrite list_lookup_insert_eq by lia. reflexivity.
Qed.

Lemma cell_at_assign_ne (b : grid) (p q : pos) (v : cell) :
  p <> q -> cell_at (assign b p v) q = cell_at b q.
Proof.
  intros Hne. unfold cell_at, lookup_cell, assign.
  destruct (decide (p.1 = q.1)) as [Heq|Hrow].
  - rewrite Heq, list_lookup_alter_eq.
    destruct (b !! q.1) as [row|]; simpl; [|reflexivity].
    rewrite list_lookup_insert_ne; [reflexivity|].
    intros Hc. apply Hne. destruct p, q; simpl in *; congruence.
  - rewrite list_lookup_alter_ne by exact Hrow. reflexivity.
Qed.

Lemma wf_assign (b : grid) (p : pos) (v : cell) :
  wf_grid b -> wf_grid (assign b p v).
Proof.
  intros [Hlen Hrows]. unfold assign. split.
  - rewrite length_alter. exact Hlen.
  - apply Forall_alter; [exact Hrows|].
    intros row _ Hl. rewrite length_insert. exact Hl.
Qed.

(** ** The position tables *)

Lemma FLATPOS_NoDup : NoDup FLATPOS.
Proof. apply (bool_decide_unpack _). vm_compute. reflexivity. Qed.

Lemma FLATPOS_in_range : Forall in_range FLATPOS.
Proof. apply (bool_decide_unpack _). vm_compute. reflexivity. Qed.

Lemma FLATPOS_complete (p : pos) : in_range p -> In p FLATPOS.
Proof.
  destruct p as [r c]. unfold in_range, N. simpl. intros [Hr Hc].
  assert (Hr' : r = 0 \/ r = 1 \/ r = 2 \/ r = 3) by lia.
  assert (Hc' : c = 0 \/ c = 1 \/ c = 2 \/ c = 3) by lia.
  destruct Hr' as [-> | [-> | [-> | ->]]]; destruct Hc' as [-> | [-> | [-> | ->]]];
    vm_compute; tauto.
Qed.

Lemma DIRS_good (dir : direction) : In dir DIRS -> good_direction dir.
Proof.
  intros Hd. simpl in Hd.
  destruct Hd as [<- | [<- | [<- | [<- | Hf]]]]; [..|destruct Hf]; split;
    apply (bool_decide_unpack _); vm_compute; reflexivity.
Qed.

Lemma DIRS_chained (dir : direction) (posns : line) :
  In dir DIRS -> In posns dir -> chained posns = true.
Proof.
  intros Hd Hp. simpl in Hd.
  destruct Hd as [<- | [<- | [<- | [<- | Hf]]]]; [..|destruct Hf]; simpl in Hp;
    (destruct Hp as [<- | [<- | [<- | [<- | Hf]]]]; [..|destruct Hf]); reflexivity.
Qed.

Lemma good_direction_cons (posns : line) (dir : direction) :
  good_direction (posns :: dir) ->
  Forall in_range posns /\ NoDup posns /\ good_direction dir.
Proof.
  intros [Hr Hn]. inversion Hr; subst. simpl in Hn.
  apply NoDup_app in Hn as (Hn1 & _ & Hn2).
  repeat split; assumption.
Qed.

(** ** The pass and its ghost log *)

Lemma move_line_log_erase (jc : bool) (posns : line) :
  forall s log, (move_line_log jc posns s log).1 = move_line jc posns s.
Proof.
  induction posns as [|p rest IH]; intros s log; simpl; [reflexivity|].
  destruct (negb (truthy (cell_at (sc_b (slide_into p rest s)) p))); [reflexivity|].
  destruct (next_tile (sc_b (slide_into p rest s)) rest) as [q|]; [|reflexivity].
  destruct (cell_eqb _ _); apply IH.
Qed.

Lemma move_lines_log_erase (jc : bool) (dir : direction) :
  forall s log, (move_lines_log jc dir s log).1 = move_lines jc dir s.
Proof.
  unfold move_lines_log, move_lines.
  induction dir as [|posns dir IH]; intros s log; simpl; [reflexivity|].
  destruct (move_line_log jc posns s log) as [s' log'] eqn:E.
  rewrite IH. f_equal.
  rewrite <- (move_line_log_erase jc posns s log), E. reflexivity.
Qed.

Lemma slid_grid_log (dir : direction) (jc : bool) (self : Board) :
  slid_grid dir jc self =
  sc_b (move_lines_log jc dir (Scan (_cells self) false (won self)) []).1.
Proof. unfold slid_grid. rewrite move_lines_log_erase. reflexivity. Qed.

Lemma next_tile_Some (b : grid) (rest : line) (q : pos) :
  next_tile b rest = Some q -> In q rest /\ truthy (cell_at b q) = true.
Proof. unfold next_tile. apply find_some. Qed.

Lemma pass_steps_trans (jc : bool) s1 s2 s3 log1 log2 :
  pass_steps jc s1 log1 s2 -> pass_steps jc s2 log2 s3 ->
  pass_steps jc s1 (log1 ++ log2) s3.
Proof.
  intros H12 H23. induction H23 as [s|s2 s3 s4 log ev H23 IH Hstep].
  - rewrite app_nil_r. exact H12.
  - rewrite app_assoc. eapply pss_snoc; [apply IH; exact H12|exact Hstep].
Qed.

(** The slide of lines 62-67 is no write, or one slide group. *)
Lemma slide_into_steps (jc : bool) (p : pos) (rest : line) (s : scan) :
  in_range p -> Forall in_range rest -> ~ In p rest ->
  pass_steps jc s [] (slide_into p rest s).
Proof.
  intros Hp Hrest Hnin. unfold slide_into.
  destruct (truthy (cell_at (sc_b s) p)) eqn:Ht; simpl; [constructor|].
  destruct (next_tile (sc_b s) rest) as [q|] eqn:Hq; [|constructor].
  apply next_tile_Some in Hq as [Hin Htq].
  change (@nil cell) with (@nil cell ++ []).
  eapply pss_snoc; [constructor|].
  apply ps_slide; try assumption.
  - rewrite List.Forall_forall in Hrest. apply Hrest, Hin.
  - intros ->. contradiction.
Qed.

(** Running a line is running a sequence of write groups, and the ghost log
    of the line is the log of that sequence. *)
Lemma move_line_log_steps (jc : bool) (posns : line) :
  forall s0 s log0,
    Forall in_range posns -> NoDup posns ->
    pass_steps jc s0 log0 s ->
    pass_steps jc s0 (move_line_log jc posns s log0).2
                     (move_line_log jc posns s log0).1.
Proof.
  induction posns as [|p rest IH]; intros s0 s log0 Hr Hn Hs; simpl; [exact Hs|].
  inversion Hr as [|? ? Hp Hrest]; subst.
  apply NoDup_cons in Hn as [Hnin Hn].
  assert (Hnin' : ~ In p rest) by (rewrite <- list_elem_of_In; exact Hnin).
  pose proof (slide_into_steps jc p rest s Hp Hrest Hnin') as Hslide.
  pose proof (pass_steps_trans _ _ _ _ _ _ Hs Hslide) as Hs1.
  rewrite app_nil_r in Hs1.
  set (s1 := slide_into p rest s) in *.
  destruct (truthy (cell_at (sc_b s1) p)) eqn:Ht; simpl; [|exact Hs1].
  destruct (next_tile (sc_b s1) rest) as [q|] eqn:Hq; [|exact Hs1].
  apply next_tile_Some in Hq as [Hin Htq].
  destruct (cell_eqb (cell_at (sc_b s1) p) (cell_at (sc_b s1) q)) eqn:He.
  - apply IH; try assumption.
    eapply pss_snoc; [exact Hs1|].
    apply ps_merge; try assumption.
    + rewrite List.Forall_forall in Hrest. apply Hrest, Hin.
    + intros ->. contradiction.
  - apply IH; assumption.
Qed.

Lemma move_lines_log_steps (jc : bool) (dir : direction) :
  forall s0 s log0,
    good_direction dir ->
    pass_steps jc s0 log0 s ->
    pass_steps jc s0 (move_lines_log jc dir s log0).2
                     (move_lines_log jc dir s log0).1.
Proof.
  unfold move_lines_log.
  induction dir as [|posns dir IH]; intros s0 s log0 Hg Hs; simpl; [exact Hs|].
  apply good_direction_cons in Hg as (Hr & Hn & Hg).
  pose proof (move_line_log_steps jc posns s0 s log0 Hr Hn Hs) as Hs'.
  destruct (move_line_log jc posns s log0) as [s' log']. simpl in *.
  apply IH; assumption.
Qed.

(** The pass of a move in one of the four directions is a sequence of write
    groups from the scan it starts with, and [merged_values] is its log. *)
Lemma pass_of_move (dir : direction) (jc : bool) (self : Board) :
  good_direction dir ->
  pass_steps jc (Scan (_cells self) false (won self))
    (merged_values dir jc self)
    (move_lines jc dir (Scan (_cells self) false (won self))).
Proof.
  intros Hg. unfold merged_values.
  rewrite <- (move_lines_log_erase jc dir _ []).
  apply move_lines_log_steps; [exact Hg|constructor].
Qed.

(** ** Counting occupied cells *)

Lemma count_assign_out (b : grid) (p : pos) (v : cell) (l : line) :
  ~ In p l ->
  List.filter (fun x => truthy (cell_at (assign b p v) x)) l =
  List.filter (fun x => truthy (cell_at b x)) l.
Proof.
  intros Hnin. apply List.filter_ext_in. intros x Hx.
  rewrite cell_at_assign_ne; [reflexivity|]. intros ->. contradiction.
Qed.

Lemma count_assign_in (b : grid) (p : pos) (v : cell) (l : line) :
  wf_grid b -> in_range p -> NoDup l -> In p l ->
  length (List.filter (fun x => truthy (cell_at (assign b p v) x)) l)
    + Nat.b2n (truthy (cell_at b p)) =
  length (List.filter (fun x => truthy (cell_at b x)) l) + Nat.b2n (truthy v).
Proof.
  intros Hwf Hp. induction l as [|x l IH]; intros Hn Hin; [destruct Hin|].
  apply NoDup_cons in Hn as [Hx Hn]. rewrite list_elem_of_In in Hx.
  simpl. destruct (decide (x = p)) as [->|Hne].
  - rewrite cell_at_assign_eq by assumption.
    rewrite count_assign_out by exact Hx.
    destruct (truthy v), (truthy (cell_at b p)); simpl; lia.
  - destruct Hin as [Heq|Hin]; [contradiction|].
    specialize (IH Hn Hin).
    rewrite cell_at_assign_ne by congruence.
    destruct (truthy (cell_at b x)); simpl; lia.
Qed.

(** The cells of an [N]x[N] grid are the cells at the positions of
    [FLATPOS], in that order. *)
Lemma concat_FLATPOS (b : grid) :
  wf_grid b -> concat b = List.map (cell_at b) FLATPOS.
Proof.
  intros [Hlen Hrows].
  destruct b as [|r0 [|r1 [|r2 [|r3 [|r4 b]]]]]; try discriminate Hlen.
  apply Forall_cons in Hrows as [H0 Hrows]. apply Forall_cons in Hrows as [H1 Hrows].
  apply Forall_cons in Hrows as [H2 Hrows]. apply Forall_cons in Hrows as [H3 _].
  destruct r0 as [|? [|? [|? [|? [|? ?]]]]]; try discriminate H0.
  destruct r1 as [|? [|? [|? [|? [|? ?]]]]]; try discriminate H1.
  destruct r2 as [|? [|? [|? [|? [|? ?]]]]]; try discriminate H2.
  destruct r3 as [|? [|? [|? [|? [|? ?]]]]]; try discriminate H3.
  reflexivity.
Qed.

Lemma occupied_count_FLATPOS (b : grid) :
  wf_grid b ->
  occupied_count b = length (List.filter (fun p => truthy (cell_at b p)) FLATPOS).
Proof.
  intros Hwf. unfold occupied_count. rewrite (concat_FLATPOS b Hwf).
  generalize FLATPOS. intros l. induction l as [|p l IH]; [reflexivity|].
  cbn [List.map List.filter]. destruct (truthy (cell_at b p)); simpl; rewrite IH;
    reflexivity.
Qed.

Lemma occupied_count_assign (b : grid) (p : pos) (v : cell) :
  wf_grid b -> in_range p ->
  occupied_count (assign b p v) + Nat.b2n (truthy (cell_at b p)) =
  occupied_count b + Nat.b2n (truthy v).
Proof.
  intros Hwf Hp.
  rewrite !occupied_count_FLATPOS by (try apply wf_assign; exact Hwf).
  apply count_assign_in; try assumption.
  - apply FLATPOS_NoDup.
  - apply FLATPOS_complete, Hp.
Qed.

Lemma occupied_count_bound (b : grid) : wf_grid b -> occupied_count b <= N * N.
Proof.
  intros Hwf. rewrite occupied_count_FLATPOS by exact Hwf.
  etransitivity; [apply List.filter_length_le|]. reflexivity.
Qed.

Lemma double_truthy (x : cell) : truthy x = true -> truthy (double x) = true.
Proof.
  destruct x as [v|]; simpl; [|discriminate].
  destruct (Z.eqb_spec v 0); [discriminate|]. intros _.
  destruct (Z.eqb_spec (v * 2) 0); [lia|reflexivity].
Qed.

(** ** What one write group does *)

Section PassStep.
Context (jc : bool) (s s' : scan) (ev : list cell).
Hypothesis Hstep : pass_step jc s ev s'.

Lemma pass_step_wf : wf_grid (sc_b s) -> wf_grid (sc_b s').
Proof.
  intros Hwf. destruct Hstep; simpl; repeat apply wf_assign; exact Hwf.
Qed.

Lemma pass_step_moved : sc_moved s' = true.
Proof. destruct Hstep; simpl; apply orb_true_r. Qed.

Lemma pass_step_won :
  sc_won s' =
  sc_won s || (negb jc && List.existsb (fun v => cell_eqb v (Some GOAL)) ev).
Proof.
  destruct Hstep; simpl.
  - rewrite andb_false_r, orb_false_r. reflexivity.
  - rewrite orb_false_r. reflexivity.
Qed.

(** A slide keeps the number of occupied cells, a merge takes one away. *)
Lemma pass_step_count :
  wf_grid (sc_b s) ->
  occupied_count (sc_b s') + length ev = occupied_count (sc_b s).
Proof.
  intros Hwf. destruct Hstep as [s p q Hp Hq Hne Htp Htq|s p q Hp Hq Hne Htp Htq He];
    simpl.
  - pose proof (occupied_count_assign (sc_b s) p (cell_at (sc_b s) q) Hwf Hp) as H1.
    pose proof (occupied_count_assign _ q None (wf_assign _ p (cell_at (sc_b s) q) Hwf) Hq)
      as H2.
    rewrite cell_at_assign_ne in H2 by exact Hne.
    rewrite Htp, Htq in *. simpl in *. lia.
  - pose proof (occupied_count_assign (sc_b s) q None Hwf Hq) as H1.
    pose proof (occupied_count_assign _ p
                  (double (cell_at (assign (sc_b s) q None) p))
                  (wf_assign _ q None Hwf) Hp) as H2.
    assert (Hpq : cell_at (assign (sc_b s) q None) p = cell_at (sc_b s) p)
      by (apply cell_at_assign_ne; congruence).
    rewrite Hpq in H2. rewrite (double_truthy _ Htp), Htp in H2.
    rewrite Hpq. rewrite Htq in H1. simpl in *. lia.
Qed.

(** Each write group leaves an empty cell behind: the one it took the tile
    from. *)
Lemma pass_step_vacancy :
  wf_grid (sc_b s) ->
  exists q, in_range q /\ cell_at (sc_b s') q = None.
Proof.
  intros Hwf. destruct Hstep as [s p q Hp Hq Hne Htp Htq|s p q Hp Hq Hne Htp Htq He];
    exists q; (split; [exact Hq|]); simpl.
  - apply cell_at_assign_eq; [apply wf_assign; exact Hwf|exact Hq].
  - rewrite cell_at_assign_ne by exact Hne.
    apply cell_at_assign_eq; assumption.
Qed.
End PassStep.

(** ** What a sequence of write groups does *)

Section PassSteps.
Context (jc : bool).

Lemma pass_steps_wf s log s' :
  pass_steps jc s log s' -> wf_grid (sc_b s) -> wf_grid (sc_b s').
Proof.
  induction 1 as [s|s1 s2 s3 log ev _ IH Hstep]; intros Hwf; [exact Hwf|].
  eapply pass_step_wf; [exact Hstep|apply IH, Hwf].
Qed.

(** [moved] is false at the end only if nothing was written at all. *)
Lemma pass_steps_unmoved s log s' :
  pass_steps jc s log s' -> sc_moved s' = false -> s' = s /\ log = [].
Proof.
  destruct 1 as [s|s1 s2 s3 log ev _ Hstep]; intros Hm; [split; reflexivity|].
  rewrite (pass_step_moved _ _ _ _ Hstep) in Hm. discriminate.
Qed.

Lemma pass_steps_won s log s' :
  pass_steps jc s log s' ->
  sc_won s' =
  sc_won s || (negb jc && List.existsb (fun v => cell_eqb v (Some GOAL)) log).
Proof.
  induction 1 as [s|s1 s2 s3 log ev _ IH Hstep]; simpl.
  - rewrite andb_false_r, orb_false_r. reflexivity.
  - rewrite (pass_step_won _ _ _ _ Hstep), IH, List.existsb_app.
    destruct (sc_won s1), jc; simpl; reflexivity.
Qed.

Lemma pass_steps_count s log s' :
  pass_steps jc s log s' -> wf_grid (sc_b s) ->
  occupied_count (sc_b s') + length log = occupied_count (sc_b s).
Proof.
  induction 1 as [s|s1 s2 s3 log ev Hsteps IH Hstep]; intros Hwf; simpl; [lia|].
  pose proof (pass_step_count _ _ _ _ Hstep (pass_steps_wf _ _ _ Hsteps Hwf)).
  specialize (IH Hwf). rewrite length_app. lia.
Qed.

(** If [moved] went from false to true, some cell is empty at the end. *)
Lemma pass_steps_vacancy s log s' :
  pass_steps jc s log s' -> wf_grid (sc_b s) ->
  sc_moved s = false -> sc_moved s' = true ->
  exists q, in_range q /\ cell_at (sc_b s') q = None.
Proof.
  destruct 1 as [s|s1 s2 s3 log ev Hsteps Hstep]; intros Hwf Hm Hm'.
  - congruence.
  - eapply pass_step_vacancy; [exact Hstep|].
    eapply pass_steps_wf; [exact Hsteps|exact Hwf].
Qed.
End PassSteps.

(** ** Values of the tiles *)

Lemma pow2_ge2_double (v : Z) : pow2_ge2 v -> pow2_ge2 (v * 2).
Proof.
  intros (k & Hk & ->). exists (S k). split; [lia|].
  rewrite Nat2Z.inj_succ, Z.pow_succ_r by lia. lia.
Qed.

Lemma tile_ok_double (x : cell) : tile_ok x -> tile_ok (double x).
Proof. destruct x as [v|]; simpl; [apply pow2_ge2_double|trivial]. Qed.

Lemma randtile_cases (k : nat) : randtile k = 2%Z \/ randtile k = 4%Z.
Proof.
  unfold randtile.
  assert (Hk : k mod 10 < 10) by (apply Nat.mod_upper_bound; lia).
  generalize dependent (k mod 10). intros m Hm.
  do 10 (destruct m as [|m]; [simpl; auto|]). lia.
Qed.

Lemma tile_ok_randtile (k : nat) : tile_ok (Some (randtile k)).
Proof.
  simpl. destruct (randtile_cases k) as [-> | ->]; [exists 1|exists 2];
    split; try lia; reflexivity.
Qed.

Lemma grid_all_cell_at (P : cell -> Prop) (b : grid) (p : pos) :
  P None -> grid_all P b -> P (cell_at b p).
Proof.
  intros HN Hall. unfold cell_at, lookup_cell.
  destruct (b !! p.1) as [row|] eqn:Hrow; simpl; [|exact HN].
  destruct (row !! p.2) as [x|] eqn:Hx; simpl; [|exact HN].
  unfold grid_all in Hall. rewrite Forall_lookup in Hall.
  specialize (Hall _ _ Hrow). rewrite Forall_lookup in Hall.
  exact (Hall _ _ Hx).
Qed.

Lemma grid_all_assign (P : cell -> Prop) (b : grid) (p : pos) (v : cell) :
  P v -> grid_all P b -> grid_all P (assign b p v).
Proof.
  intros Hv Hall. unfold assign, grid_all.
  apply Forall_alter; [exact Hall|].
  intros row _ Hrow. apply Forall_insert; assumption.
Qed.

Lemma pass_step_tiles (jc : bool) s ev s' :
  pass_step jc s ev s' ->
  grid_all tile_ok (sc_b s) -> grid_all tile_ok (sc_b s').
Proof.
  intros Hstep Hall. destruct Hstep; simpl.
  - apply grid_all_assign; [exact I|].
    apply grid_all_assign; [|exact Hall].
    apply grid_all_cell_at; [exact I|exact Hall].
  - apply grid_all_assign.
    + apply tile_ok_double, grid_all_cell_at; [exact I|].
      apply grid_all_assign; [exact I|exact Hall].
    + apply grid_all_assign; [exact I|exact Hall].
Qed.

Lemma pass_steps_tiles (jc : bool) s log s' :
  pass_steps jc s log s' ->
  grid_all tile_ok (sc_b s) -> grid_all tile_ok (sc_b s').
Proof.
  induction 1 as [s|s1 s2 s3 log ev _ IH Hstep]; intros Hall; [exact Hall|].
  eapply pass_step_tiles; [exact Hstep|apply IH, Hall].
Qed.

(** ** Dry runs *)

#[local] Arguments slide_merge : simpl never.
#[local] Arguments _cant_move : simpl never.
#[local] Arguments move_lines : simpl never.

Lemma slide_into_won (p : pos) (rest : line) (s : scan) :
  sc_won (slide_into p rest s) = sc_won s.
Proof.
  unfold slide_into. destruct (negb _); [|reflexivity].
  destruct (next_tile _ _); reflexivity.
Qed.

Lemma move_line_dry_won (posns : line) :
  forall s, sc_won (move_line true posns s) = sc_won s.
Proof.
  induction posns as [|p rest IH]; intros s; simpl; [reflexivity|].
  destruct (negb _); [apply slide_into_won|].
  destruct (next_tile _ _) as [q|]; [|apply slide_into_won].
  rewrite IH. destruct (cell_eqb _ _); simpl.
  - rewrite orb_false_r. apply slide_into_won.
  - apply slide_into_won.
Qed.

Lemma move_lines_dry_won (dir : direction) :
  forall s, sc_won (move_lines true dir s) = sc_won s.
Proof.
  unfold move_lines. induction dir as [|posns dir IH]; intros s; simpl;
    [reflexivity|].
  rewrite IH. apply move_line_dry_won.
Qed.

Lemma slide_merge_dry (dir : direction) (self : Board) :
  (slide_merge dir true self).2 = self.
Proof.
  unfold slide_merge. cbn [snd]. rewrite move_lines_dry_won.
  destruct self; reflexivity.
Qed.

Lemma any_move_state (dirs : list direction) :
  forall self, (any_move dirs self).2 = self.
Proof.
  induction dirs as [|i dirs IH]; intros self; cbn [any_move]; [reflexivity|].
  pose proof (slide_merge_dry i self) as Hdry.
  destruct (slide_merge i true self) as [m self1]. simpl in Hdry. subst self1.
  destruct m; [reflexivity|apply IH].
Qed.

Lemma any_move_existsb (dirs : list direction) :
  forall self,
    (any_move dirs self).1 =
    List.existsb (fun i => (slide_merge i true self).1) dirs.
Proof.
  induction dirs as [|i dirs IH]; intros self; cbn [any_move List.existsb];
    [reflexivity|].
  pose proof (slide_merge_dry i self) as Hdry.
  destruct (slide_merge i true self) as [m self1]. simpl in *. subst self1.
  destruct m; [reflexivity|apply IH].
Qed.

Lemma _cant_move_state (self : Board) : (_cant_move self).2 = self.
Proof.
  unfold _cant_move. pose proof (any_move_state DIRS self) as H.
  destruct (any_move DIRS self) as [a self1]. exact H.
Qed.

Lemma _cant_move_existsb (self : Board) :
  (_cant_move self).1 =
  negb (List.existsb (fun i => (slide_merge i true self).1) DIRS).
Proof.
  unfold _cant_move. pose proof (any_move_existsb DIRS self) as H.
  destruct (any_move DIRS self) as [a self1]. cbn [fst] in *. rewrite H.
  reflexivity.
Qed.

Lemma move_dry (dir : direction) (dr : draw) (self : Board) :
  move dir true dr self = ((slide_merge dir true self).1, self).
Proof.
  unfold move. pose proof (slide_merge_dry dir self) as Hdry.
  destruct (slide_merge dir true self) as [m self1]. simpl in *.
  rewrite Hdry. reflexivity.
Qed.

(** ** The shape of a real move *)

Lemma move_real (dir : direction) (dr : draw) (self : Board) :
  move dir false dr self =
  let s := move_lines false dir (Scan (_cells self) false (won self)) in
  let self2 := after_loss_check dir self in
  (sc_moved s,
   if sc_moved s && negb (gameover self2) then _add_tile_if_room dr self2
   else self2).
Proof.
  unfold move, slide_merge, after_loss_check. cbn [negb won _cells lost].
  set (s := move_lines false dir _). cbv zeta.
  destruct (sc_won s) eqn:Hw; cbn [negb andb].
  - reflexivity.
  - pose proof (_cant_move_state (mkBoard (sc_b s) false (lost self))) as Hst.
    destruct (_cant_move (mkBoard (sc_b s) false (lost self))) as [cm self'].
    cbn [snd] in Hst. subst self'. reflexivity.
Qed.

(** ** The spawn *)

Lemma random_choice_In (k : nat) (l : line) : l <> [] -> In (random_choice k l) l.
Proof.
  intros Hl. unfold random_choice. apply List.nth_In.
  apply Nat.mod_upper_bound. destruct l; [congruence|simpl; lia].
Qed.

Lemma empty_cells_spec (b : grid) (p : pos) :
  In p (empty_cells b) -> in_range p /\ truthy (cell_at b p) = false.
Proof.
  unfold empty_cells. rewrite List.filter_In. intros [Hin Ht]. split.
  - pose proof FLATPOS_in_range as H. rewrite List.Forall_forall in H.
    apply H, Hin.
  - apply negb_true_iff, Ht.
Qed.

Lemma empty_cells_vacancy (b : grid) (q : pos) :
  in_range q -> truthy (cell_at b q) = false -> empty_cells b <> [].
Proof.
  intros Hq Ht Hnil.
  assert (Hin : In q (empty_cells b)).
  { unfold empty_cells. apply List.filter_In. split.
    - apply FLATPOS_complete, Hq.
    - rewrite Ht. reflexivity. }
  rewrite Hnil in Hin. destruct Hin.
Qed.

(** The spawn either finds no room and does nothing, or writes a 2 or a 4
    into a cell that was empty. *)
Lemma _add_tile_if_room_cases (dr : draw) (self : Board) :
  (empty_cells (_cells self) = [] /\ _add_tile_if_room dr self = self)
  \/ (exists p t,
        in_range p /\ truthy (cell_at (_cells self) p) = false /\
        (t = 2%Z \/ t = 4%Z) /\
        _add_tile_if_room dr self =
        mkBoard (assign (_cells self) p (Some t)) (won self) (lost self)).
Proof.
  unfold _add_tile_if_room.
  destruct (empty_cells (_cells self)) as [|e l] eqn:He; [left; auto|right].
  exists (random_choice (dr_choice dr) (e :: l)), (randtile (dr_tile dr)).
  assert (Hin : In (random_choice (dr_choice dr) (e :: l)) (empty_cells (_cells self))).
  { rewrite He. apply random_choice_In. discriminate. }
  apply empty_cells_spec in Hin as [Hr Ht].
  split; [exact Hr|]. split; [exact Ht|].
  split; [apply randtile_cases|reflexivity].
Qed.

Lemma _add_tile_if_room_flags (dr : draw) (self : Board) :
  won (_add_tile_if_room dr self) = won self /\
  lost (_add_tile_if_room dr self) = lost self.
Proof.
  destruct (_add_tile_if_room_cases dr self) as [[_ ->]|(p & t & _ & _ & _ & ->)];
    split; reflexivity.
Qed.

Lemma _add_tile_if_room_wf (dr : draw) (self : Board) :
  wf_grid (_cells self) -> wf_grid (_cells (_add_tile_if_room dr self)).
Proof.
  intros Hwf.
  destruct (_add_tile_if_room_cases dr self) as [[_ ->]|(p & t & _ & _ & _ & ->)];
    [exact Hwf|]. cbn [_cells]. apply wf_assign, Hwf.
Qed.

Lemma _add_tile_if_room_tiles (dr : draw) (self : Board) :
  grid_all tile_ok (_cells self) ->
  grid_all tile_ok (_cells (_add_tile_if_room dr self)).
Proof.
  intros Hall.
  destruct (_add_tile_if_room_cases dr self) as [[_ ->]|(p & t & _ & _ & Ht & ->)];
    [exact Hall|]. cbn [_cells]. apply grid_all_assign; [|exact Hall].
  destruct Ht as [-> | ->]; [exists 1|exists 2]; split; try lia; reflexivity.
Qed.

(** The spawn adds at most one occupied cell, and exactly one when it finds
    room. *)
Lemma _add_tile_if_room_count (dr : draw) (self : Board) :
  wf_grid (_cells self) ->
  occupied_count (_cells (_add_tile_if_room dr self)) =
  occupied_count (_cells self)
  + (if empty_cells (_cells self) is [] then 0 else 1).
Proof.
  intros Hwf.
  destruct (_add_tile_if_room_cases dr self)
    as [[He ->]|(p & t & Hp & Hempty & Ht & ->)].
  - rewrite He. lia.
  - cbn [_cells].
    pose proof (occupied_count_assign (_cells self) p (Some t) Hwf Hp) as Hc.
    rewrite Hempty in Hc.
    assert (Htt : truthy (Some t) = true) by (destruct Ht as [-> | ->]; reflexivity).
    rewrite Htt in Hc. cbn [Nat.b2n] in Hc.
    pose proof (empty_cells_vacancy _ _ Hp Hempty) as Hne.
    destruct (empty_cells (_cells self)); [congruence|lia].
Qed.

(** ** Invariants of the reachable states *)

Lemma reset_inv (dr1 dr2 : draw) (self : Board) : board_inv (reset dr1 dr2 self).
Proof.
  unfold reset, board_inv. cbn [_cells won lost].
  split; [|split; [|reflexivity]].
  - do 2 apply _add_tile_if_room_wf. cbn [_cells]. unfold wf_grid, N. simpl.
    split; [reflexivity|]. repeat constructor.
  - do 2 apply _add_tile_if_room_tiles. cbn [_cells]. unfold grid_all, N. simpl.
    repeat constructor.
Qed.

Lemma after_loss_check_inv (dir : direction) (self : Board) :
  good_direction dir -> board_inv self -> board_inv (after_loss_check dir self).
Proof.
  intros Hg (Hwf & Hall & _). pose proof (pass_of_move dir false self Hg) as Hsteps.
  unfold after_loss_check, board_inv. cbn [_cells won lost].
  split; [|split].
  - exact (pass_steps_wf _ _ _ _ Hsteps Hwf).
  - exact (pass_steps_tiles _ _ _ _ Hsteps Hall).
  - destruct (sc_won _); reflexivity.
Qed.

Lemma _add_tile_if_room_inv (dr : draw) (self : Board) :
  board_inv self -> board_inv (_add_tile_if_room dr self).
Proof.
  intros (Hwf & Hall & Hf). destruct (_add_tile_if_room_flags dr self) as [Hw Hl].
  split; [|split].
  - apply _add_tile_if_room_wf, Hwf.
  - apply _add_tile_if_room_tiles, Hall.
  - rewrite Hw, Hl. exact Hf.
Qed.

Lemma move_inv (dir : direction) (jc : bool) (dr : draw) (self : Board) :
  good_direction dir -> board_inv self -> board_inv (move dir jc dr self).2.
Proof.
  intros Hg Hinv. destruct jc.
  - rewrite move_dry. exact Hinv.
  - rewrite move_real. cbv zeta. cbn [snd].
    pose proof (after_loss_check_inv dir self Hg Hinv) as Hinv'.
    destruct (_ && _); [apply _add_tile_if_room_inv|]; exact Hinv'.
Qed.

Lemma reachable_inv (self : Board) : reachable self -> board_inv self.
Proof.
  induction 1 as [dr1 dr2|dr1 dr2 self _ _|dir jc dr self _ IH Hd].
  - unfold __init__. apply reset_inv.
  - apply reset_inv.
  - apply move_inv; [apply DIRS_good, Hd|exact IH].
Qed.

Lemma play_reachable (codes : list nat) :
  forall self, reachable self -> reachable (play codes self).
Proof.
  unfold play. induction codes as [|code codes IH]; intros self Hreach;
    [exact Hreach|].
  cbn [List.fold_left]. apply IH. unfold play_step.
  apply reach_move; [exact Hreach|].
  apply List.nth_In. change (length DIRS) with 4.
  apply Nat.mod_upper_bound. discriminate.
Qed.

Lemma won_game_reachable : reachable won_game.
Proof. unfold won_game. apply play_reachable. apply reach_init. Qed.

(** ** A stuck line *)

Lemma slide_into_occupied (p : pos) (rest : line) (s : scan) :
  truthy (cell_at (sc_b s) p) = true -> slide_into p rest s = s.
Proof. intros Ht. unfold slide_into. rewrite Ht. reflexivity. Qed.

(** A line whose cells are all occupied, with no two neighbours equal, is
    passed over without a write. *)
Lemma move_line_stuck (jc : bool) (posns : line) (s : scan) :
  (forall p, In p posns -> truthy (cell_at (sc_b s) p) = true) ->
  (forall p q, In p posns -> In q posns -> adjacent p q = true ->
               cell_eqb (cell_at (sc_b s) p) (cell_at (sc_b s) q) = false) ->
  chained posns = true ->
  move_line jc posns s = s.
Proof.
  induction posns as [|p rest IH]; intros Hocc Hne Hch; [reflexivity|].
  cbn [move_line].
  assert (Hp : truthy (cell_at (sc_b s) p) = true) by (apply Hocc; left; reflexivity).
  rewrite (slide_into_occupied p rest s Hp), Hp. cbn [negb].
  destruct rest as [|q rest']; [reflexivity|].
  assert (Hq : truthy (cell_at (sc_b s) q) = true)
    by (apply Hocc; right; left; reflexivity).
  unfold next_tile. cbn [List.find]. rewrite Hq.
  cbn [chained] in Hch. apply andb_true_iff in Hch as [Hadj Hch].
  rewrite (Hne p q); [|left; reflexivity|right; left; reflexivity|exact Hadj].
  apply IH.
  - intros x Hx. apply Hocc. right. exact Hx.
  - intros x y Hx Hy. apply Hne; right; assumption.
  - exact Hch.
Qed.

Lemma full_grid_spec (b : grid) (p : pos) :
  full_grid b = true -> in_range p -> truthy (cell_at b p) = true.
Proof.
  unfold full_grid. rewrite List.forallb_forall. intros H Hp.
  apply H, FLATPOS_complete, Hp.
Qed.

Lemma no_equal_neighbours_spec (b : grid) (p q : pos) :
  no_equal_neighbours b = true -> in_range p -> in_range q ->
  adjacent p q = true -> cell_eqb (cell_at b p) (cell_at b q) = false.
Proof.
  unfold no_equal_neighbours. rewrite List.forallb_forall. intros H Hp Hq Hadj.
  specialize (H p (FLATPOS_complete p Hp)). rewrite List.forallb_forall in H.
  specialize (H q (FLATPOS_complete q Hq)). rewrite Hadj in H.
  destruct (cell_eqb _ _); [discriminate|reflexivity].
Qed.

Lemma in_range_of_direction (dir : direction) (posns : line) (p : pos) :
  good_direction dir -> In posns dir -> In p posns -> in_range p.
Proof.
  intros [Hr _] Hposns Hp. rewrite List.Forall_forall in Hr.
  specialize (Hr _ Hposns). rewrite List.Forall_forall in Hr. apply Hr, Hp.
Qed.

(** On a full grid with no two equal neighbours, the pass in any of the four
    directions writes nothing. *)
Lemma move_lines_stuck (jc : bool) (dir : direction) (s : scan) :
  In dir DIRS ->
  full_grid (sc_b s) = true -> no_equal_neighbours (sc_b s) = true ->
  move_lines jc dir s = s.
Proof.
  intros Hd Hfull Hneq. unfold move_lines.
  assert (Hlines : forall posns, In posns dir -> move_line jc posns s = s).
  { intros posns Hposns. apply move_line_stuck.
    - intros p Hp. apply full_grid_spec; [exact Hfull|].
      eapply in_range_of_direction; eauto using DIRS_good.
    - intros p q Hp Hq. apply no_equal_neighbours_spec; [exact Hneq| |];
        eapply in_range_of_direction; eauto using DIRS_good.
    - eapply DIRS_chained; eauto. }
  clear Hd. induction dir as [|posns dir IH]; [reflexivity|].
  cbn [List.fold_left]. rewrite Hlines by (left; reflexivity).
  apply IH. intros l Hl. apply Hlines. right. exact Hl.
Qed.

(** ** The pass does not depend on [_just_checking], [self.won] apart *)

Lemma slide_into_same (p : pos) (rest : line) (s s' : scan) :
  same_writes s s' -> same_writes (slide_into p rest s) (slide_into p rest s').
Proof.
  intros [Hb Hm]. unfold slide_into. rewrite <- Hb.
  destruct (negb _); [|split; assumption].
  destruct (next_tile _ _); split; simpl; congruence.
Qed.

Lemma move_line_same (jc jc' : bool) (posns : line) :
  forall s s', same_writes s s' ->
               same_writes (move_line jc posns s) (move_line jc' posns s').
Proof.
  induction posns as [|p rest IH]; intros s s' Hs; [exact Hs|].
  cbn [move_line].
  pose proof (slide_into_same p rest s s' Hs) as Hs1.
  destruct Hs1 as [Hb Hm]. rewrite <- Hb.
  destruct (negb _); [split; assumption|].
  destruct (next_tile _ _) as [q|]; [|split; assumption].
  apply IH. destruct (cell_eqb _ _); [|split; assumption].
  unfold merge_into. split; simpl; congruence.
Qed.

Lemma move_lines_same (jc jc' : bool) (dir : direction) :
  forall s s', same_writes s s' ->
               same_writes (move_lines jc dir s) (move_lines jc' dir s').
Proof.
  unfold move_lines. induction dir as [|posns dir IH]; intros s s' Hs; [exact Hs|].
  cbn [List.fold_left]. apply IH, move_line_same, Hs.
Qed.

(** A dry run returns what the real move returns, and its copy ends as the
    real grid does before the spawn. *)
Lemma slide_merge_dry_real (dir : direction) (self : Board) :
  (slide_merge dir true self).1 = (slide_merge dir false self).1 /\
  slid_grid dir true self = slid_grid dir false self.
Proof.
  unfold slide_merge, slid_grid. cbn [fst].
  destruct (move_lines_same true false dir
              (Scan (_cells self) false (won self))
              (Scan (_cells self) false (won self))) as [Hb Hm];
    [split; reflexivity|].
  split; [exact Hm|exact Hb].
Qed.

(** ** A line is all a line's pass touches *)

Lemma slide_into_frame (p : pos) (rest : line) (s : scan) (r : pos) :
  r <> p -> ~ In r rest ->
  cell_at (sc_b (slide_into p rest s)) r = cell_at (sc_b s) r.
Proof.
  intros Hp Hrest. unfold slide_into. destruct (negb _); [|reflexivity].
  destruct (next_tile _ _) as [q|] eqn:Hq; [|reflexivity].
  apply next_tile_Some in Hq as [Hin _]. cbn [sc_b].
  rewrite !cell_at_assign_ne; [reflexivity|congruence|].
  intros ->. contradiction.
Qed.

Lemma merge_into_frame (jc : bool) (p q : pos) (s : scan) (r : pos) :
  r <> p -> r <> q ->
  cell_at (sc_b (merge_into jc p q s)) r = cell_at (sc_b s) r.
Proof.
  intros Hp Hq. unfold merge_into. cbn [sc_b].
  rewrite !cell_at_assign_ne by congruence. reflexivity.
Qed.

Lemma move_line_frame (jc : bool) (posns : line) (r : pos) :
  forall s, ~ In r posns ->
            cell_at (sc_b (move_line jc posns s)) r = cell_at (sc_b s) r.
Proof.
  induction posns as [|p rest IH]; intros s Hnin; [reflexivity|].
  assert (Hp : r <> p) by (intros ->; apply Hnin; left; reflexivity).
  assert (Hrest : ~ In r rest) by (intros H; apply Hnin; right; exact H).
  cbn [move_line].
  pose proof (slide_into_frame p rest s r Hp Hrest) as Hslide.
  destruct (negb _); [exact Hslide|].
  destruct (next_tile _ _) as [q|] eqn:Hq; [|exact Hslide].
  apply next_tile_Some in Hq as [Hin _].
  rewrite IH by exact Hrest.
  destruct (cell_eqb _ _); [|exact Hslide].
  rewrite merge_into_frame; [exact Hslide|exact Hp|].
  intros ->. contradiction.
Qed.

Lemma move_lines_frame (jc : bool) (dir : direction) (r : pos) :
  forall s, ~ In r (concat dir) ->
            cell_at (sc_b (move_lines jc dir s)) r = cell_at (sc_b s) r.
Proof.
  unfold move_lines. induction dir as [|posns dir IH]; intros s Hnin;
    [reflexivity|].
  cbn [List.fold_left]. cbn [concat] in Hnin. rewrite List.in_app_iff in Hnin.
  rewrite IH by tauto. apply move_line_frame. tauto.
Qed.

Lemma move_lines_wf (jc : bool) (dir : direction) (s : scan) :
  good_direction dir -> wf_grid (sc_b s) -> wf_grid (sc_b (move_lines jc dir s)).
Proof.
  intros Hg Hwf. rewrite <- (move_lines_log_erase jc dir s []).
  eapply pass_steps_wf; [|exact Hwf].
  apply move_lines_log_steps; [exact Hg|constructor].
Qed.

Lemma line_values_frame (b b' : grid) (posns : line) :
  (forall r, In r posns -> cell_at b' r = cell_at b r) ->
  line_values b' posns = line_values b posns.
Proof. intros H. unfold line_values. apply List.map_ext_in, H. Qed.

(** ** Four equal tiles in a line *)

(** One step of the inner loop that merges: the cell at [p] is occupied and
    the next tile equals it. *)
Lemma move_line_merge (jc : bool) (p q : pos) (rest : line) (s : scan) :
  truthy (cell_at (sc_b s) p) = true ->
  next_tile (sc_b s) rest = Some q ->
  cell_eqb (cell_at (sc_b s) p) (cell_at (sc_b s) q) = true ->
  move_line jc (p :: rest) s = move_line jc rest (merge_into jc p q s).
Proof.
  intros Hp Hq He. cbn [move_line].
  rewrite (slide_into_occupied p rest s Hp), Hp, Hq, He. reflexivity.
Qed.

(** One step of the inner loop, given what lines 62-67 leave. *)
Lemma move_line_cons (jc : bool) (p : pos) (rest : line) (s s1 : scan) :
  slide_into p rest s = s1 ->
  move_line jc (p :: rest) s =
  if negb (truthy (cell_at (sc_b s1) p)) then s1
  else
    match next_tile (sc_b s1) rest with
    | None => s1
    | Some q =>
        move_line jc rest
          (if cell_eqb (cell_at (sc_b s1) p) (cell_at (sc_b s1) q)
           then merge_into jc p q s1 else s1)
    end.
Proof. intros <-. reflexivity. Qed.

Lemma move_line_2222 (jc : bool) (p0 p1 p2 p3 : pos) (s : scan) :
  wf_grid (sc_b s) ->
  Forall in_range [p0; p1; p2; p3] -> NoDup [p0; p1; p2; p3] ->
  line_values (sc_b s) [p0; p1; p2; p3] = [Some 2; Some 2; Some 2; Some 2]%Z ->
  line_values (sc_b (move_line jc [p0; p1; p2; p3] s)) [p0; p1; p2; p3] =
  [Some 4; Some 4; None; None]%Z.
Proof.
  intros Hwf Hr Hn Hv.
  apply Forall_cons in Hr as [R0 Hr]. apply Forall_cons in Hr as [R1 Hr].
  apply Forall_cons in Hr as [R2 Hr]. apply Forall_cons in Hr as [R3 _].
  assert (D : p0 <> p1 /\ p0 <> p2 /\ p0 <> p3 /\ p1 <> p2 /\ p1 <> p3 /\ p2 <> p3).
  { rewrite !NoDup_cons in Hn. rewrite !list_elem_of_In in Hn. simpl in Hn.
    intuition congruence. }
  destruct D as (D01 & D02 & D03 & D12 & D13 & D23).
  unfold line_values in Hv. cbn [List.map] in Hv.
  injection Hv as V0 V1 V2 V3.
  (* i = 0: the tile at p1 merges into p0 *)
  rewrite (move_line_merge jc p0 p1);
    [|rewrite V0; reflexivity
     |unfold next_tile; cbn [List.find]; rewrite V1; reflexivity
     |rewrite V0, V1; reflexivity].
  set (s1 := merge_into jc p0 p1 s).
  assert (W1 : wf_grid (sc_b s1)) by (repeat apply wf_assign; exact Hwf).
  assert (A0 : cell_at (sc_b s1) p0 = Some 4%Z).
  { subst s1. unfold merge_into. cbn [sc_b].
    rewrite cell_at_assign_eq; [|apply wf_assign; exact Hwf|exact R0].
    rewrite cell_at_assign_ne by congruence. rewrite V0. reflexivity. }
  assert (A1 : cell_at (sc_b s1) p1 = None).
  { subst s1. unfold merge_into. cbn [sc_b].
    rewrite cell_at_assign_ne by congruence.
    apply cell_at_assign_eq; assumption. }
  assert (A2 : cell_at (sc_b s1) p2 = Some 2%Z).
  { subst s1. rewrite merge_into_frame by congruence. exact V2. }
  assert (A3 : cell_at (sc_b s1) p3 = Some 2%Z).
  { subst s1. rewrite merge_into_frame by congruence. exact V3. }
  clearbody s1. clear V0 V1 V2 V3 Hwf s.
  (* i = 1: the tile at p2 slides to p1, then the tile at p3 merges into it *)
  set (s2 := Scan (assign (assign (sc_b s1) p1 (cell_at (sc_b s1) p2)) p2 None)
                  (sc_moved s1 || true) (sc_won s1)).
  rewrite (move_line_cons jc p1 [p2; p3] s1 s2);
    [|unfold slide_into, next_tile; cbn [List.find]; rewrite A1, A2; reflexivity].
  assert (W2 : wf_grid (sc_b s2)) by (repeat apply wf_assign; exact W1).
  assert (B0 : cell_at (sc_b s2) p0 = Some 4%Z).
  { subst s2. cbn [sc_b]. rewrite !cell_at_assign_ne by congruence. exact A0. }
  assert (B1 : cell_at (sc_b s2) p1 = Some 2%Z).
  { subst s2. cbn [sc_b]. rewrite cell_at_assign_ne by congruence.
    rewrite cell_at_assign_eq by assumption. exact A2. }
  assert (B2 : cell_at (sc_b s2) p2 = None).
  { subst s2. cbn [sc_b].
    apply cell_at_assign_eq; [apply wf_assign; exact W1|exact R2]. }
  assert (B3 : cell_at (sc_b s2) p3 = Some 2%Z).
  { subst s2. cbn [sc_b]. rewrite !cell_at_assign_ne by congruence. exact A3. }
  clearbody s2. clear A0 A1 A2 A3 W1 s1.
  unfold next_tile. cbn [List.find]. rewrite B1, B2, B3.
  cbn [truthy Z.eqb negb]. rewrite B3. cbn [cell_eqb Z.eqb Pos.eqb].
  set (s3 := merge_into jc p1 p3 s2).
  assert (W3 : wf_grid (sc_b s3)) by (repeat apply wf_assign; exact W2).
  assert (C0 : cell_at (sc_b s3) p0 = Some 4%Z).
  { subst s3. rewrite merge_into_frame by congruence. exact B0. }
  assert (C1 : cell_at (sc_b s3) p1 = Some 4%Z).
  { subst s3. unfold merge_into. cbn [sc_b].
    rewrite cell_at_assign_eq; [|apply wf_assign; exact W2|exact R1].
    rewrite cell_at_assign_ne by congruence. rewrite B1. reflexivity. }
  assert (C2 : cell_at (sc_b s3) p2 = None).
  { subst s3. rewrite merge_into_frame by congruence. exact B2. }
  assert (C3 : cell_at (sc_b s3) p3 = None).
  { subst s3. unfold merge_into. cbn [sc_b].
    rewrite cell_at_assign_ne by congruence.
    apply cell_at_assign_eq; assumption. }
  clearbody s3.
  (* i = 2: the cell at p2 is empty and nothing follows: break *)
  rewrite (move_line_cons jc p2 [p3] s3 s3);
    [|unfold slide_into, next_tile; cbn [List.find]; rewrite C2, C3; reflexivity].
  rewrite C2. cbn [truthy negb].
  unfold line_values. cbn [List.map]. rewrite C0, C1, C2, C3. reflexivity.
Qed.

Lemma good_direction_app (l1 l2 : direction) :
  good_direction (l1 ++ l2) ->
  good_direction l1 /\ good_direction l2 /\
  (forall r, In r (concat l1) -> ~ In r (concat l2)).
Proof.
  intros [Hr Hn]. apply Forall_app in Hr as [Hr1 Hr2].
  rewrite concat_app in Hn. apply NoDup_app in Hn as (Hn1 & Hdis & Hn2).
  split; [split; assumption|]. split; [split; assumption|].
  intros r H1 H2. apply (Hdis r); rewrite list_elem_of_In; assumption.
Qed.

(** The line of four 2s, within the pass of a whole direction: the lines
    before and after it leave it alone. *)
Lemma move_lines_2222 (jc : bool) (dir : direction) (posns : line) (s : scan) :
  good_direction dir -> In posns dir -> wf_grid (sc_b s) ->
  line_values (sc_b s) posns = [Some 2; Some 2; Some 2; Some 2]%Z ->
  line_values (sc_b (move_lines jc dir s)) posns = [Some 4; Some 4; None; None]%Z.
Proof.
  intros Hg Hin Hwf Hv.
  apply List.in_split in Hin as (l1 & l2 & ->).
  apply good_direction_app in Hg as (Hg1 & Hg2 & Hdis1).
  change (posns :: l2) with ([posns] ++ l2) in Hg2.
  pose proof (good_direction_app _ _ Hg2) as (Hgp & _ & Hdis2).
  destruct Hgp as [Hrp Hnp]. cbn [concat] in Hnp, Hdis1, Hdis2.
  rewrite app_nil_r in Hnp, Hdis2. apply Forall_cons in Hrp as [Hrp _].
  unfold move_lines. rewrite List.fold_left_app. cbn [List.fold_left].
  fold (move_lines jc l1 s). set (s1 := move_lines jc l1 s).
  fold (move_lines jc l2 (move_line jc posns s1)).
  assert (W1 : wf_grid (sc_b s1)) by (apply move_lines_wf; assumption).
  assert (V1 : line_values (sc_b s1) posns = [Some 2; Some 2; Some 2; Some 2]%Z).
  { rewrite <- Hv. apply line_values_frame. intros r Hr.
    apply move_lines_frame. intros Hr1. apply (Hdis1 r Hr1).
    apply List.in_or_app. left. exact Hr. }
  rewrite (line_values_frame (sc_b (move_line jc posns s1))).
  - destruct posns as [|p0 [|p1 [|p2 [|p3 [|p4 rest]]]]]; try discriminate V1.
    apply move_line_2222; assumption.
  - intros r Hr. apply move_lines_frame. intros Hr2. exact (Hdis2 r Hr Hr2).
Qed.

(** ** A pass that reports a change has changed the grid *)

Lemma double_changes (x : cell) : truthy x = true -> double x <> x.
Proof.
  destruct x as [v|]; simpl; [|discriminate].
  destruct (Z.eqb_spec v 0); [discriminate|]. intros _ H.
  injection H as H. lia.
Qed.

Lemma merge_into_head (jc : bool) (p q : pos) (s : scan) :
  wf_grid (sc_b s) -> in_range p -> p <> q ->
  cell_at (sc_b (merge_into jc p q s)) p = double (cell_at (sc_b s) p).
Proof.
  intros Hwf Hp Hne. unfold merge_into. cbn [sc_b].
  rewrite cell_at_assign_eq; [|apply wf_assign; exact Hwf|exact Hp].
  rewrite cell_at_assign_ne by congruence. reflexivity.
Qed.

(** What the iteration at [p] leaves at [p] once lines 62-67 have left a
    tile there: that tile, or its double; the rest of the line does not come
    back to [p]. *)
Lemma move_line_head (jc : bool) (p : pos) (rest : line) (s s1 : scan) :
  slide_into p rest s = s1 ->
  wf_grid (sc_b s1) -> in_range p -> ~ In p rest ->
  truthy (cell_at (sc_b s1) p) = true ->
  cell_at (sc_b (move_line jc (p :: rest) s)) p = cell_at (sc_b s1) p
  \/ cell_at (sc_b (move_line jc (p :: rest) s)) p = double (cell_at (sc_b s1) p).
Proof.
  intros Hs1 Hwf Hp Hnin Ht. rewrite (move_line_cons jc p rest s s1 Hs1).
  rewrite Ht. cbn [negb].
  destruct (next_tile (sc_b s1) rest) as [q|] eqn:Hq; [|left; reflexivity].
  apply next_tile_Some in Hq as [Hin _].
  rewrite move_line_frame by exact Hnin.
  destruct (cell_eqb _ _); [right|left; reflexivity].
  apply merge_into_head; try assumption. intros ->. contradiction.
Qed.

Lemma move_line_moved_differs (jc : bool) (posns : line) :
  forall s,
    wf_grid (sc_b s) -> Forall in_range posns -> NoDup posns ->
    sc_moved s = false -> sc_moved (move_line jc posns s) = true ->
    exists r, In r posns /\
              cell_at (sc_b (move_line jc posns s)) r <> cell_at (sc_b s) r.
Proof.
  induction posns as [|p rest IH]; intros s Hwf Hr Hn Hm Hm'.
  { cbn [move_line] in Hm'. congruence. }
  apply Forall_cons in Hr as [Hp Hrest]. apply NoDup_cons in Hn as [Hnin Hn].
  rewrite list_elem_of_In in Hnin.
  destruct (truthy (cell_at (sc_b s) p)) eqn:Ht.
  - (* the cell at p holds a tile *)
    pose proof (slide_into_occupied p rest s Ht) as Hs1.
    rewrite (move_line_cons jc p rest s s Hs1) in Hm' |- *.
    rewrite Ht in Hm' |- *. cbn [negb] in Hm' |- *.
    destruct (next_tile (sc_b s) rest) as [q|] eqn:Hq; [|congruence].
    apply next_tile_Some in Hq as [Hin _].
    destruct (cell_eqb _ _).
    + exists p. split; [left; reflexivity|].
      rewrite move_line_frame by exact Hnin.
      rewrite merge_into_head; try assumption.
      * apply double_changes, Ht.
      * intros ->. contradiction.
    + destruct (IH s Hwf Hrest Hn Hm Hm') as (r & Hr & Hdiff).
      exists r. split; [right; exact Hr|exact Hdiff].
  - (* the cell at p is empty *)
    destruct (next_tile (sc_b s) rest) as [q|] eqn:Hq.
    + pose proof Hq as Hq'. apply next_tile_Some in Hq' as [Hin Htq].
      assert (Hs1 : slide_into p rest s =
                    Scan (assign (assign (sc_b s) p (cell_at (sc_b s) q)) q None)
                         (sc_moved s || true) (sc_won s)).
      { unfold slide_into. rewrite Ht, Hq. reflexivity. }
      assert (Hpq : p <> q) by (intros ->; contradiction).
      assert (Hhead : cell_at (assign (assign (sc_b s) p (cell_at (sc_b s) q)) q None) p
                      = cell_at (sc_b s) q).
      { rewrite cell_at_assign_ne by congruence.
        apply cell_at_assign_eq; assumption. }
      exists p. split; [left; reflexivity|]. intros Heq.
      assert (Hfinal : truthy (cell_at (sc_b (move_line jc (p :: rest) s)) p) = true).
      { destruct (move_line_head jc p rest s _ Hs1) as [-> | ->]; cbn [sc_b];
          try assumption; try (repeat apply wf_assign; exact Hwf);
          rewrite ?Hhead; try exact Htq.
        apply double_truthy, Htq. }
      rewrite Heq, Ht in Hfinal. discriminate Hfinal.
    + assert (Hs1 : slide_into p rest s = s).
      { unfold slide_into. rewrite Ht, Hq. reflexivity. }
      rewrite (move_line_cons jc p rest s s Hs1), Ht in Hm'. cbn [negb] in Hm'.
      congruence.
Qed.

Lemma move_line_unmoved (jc : bool) (posns : line) (s : scan) :
  Forall in_range posns -> NoDup posns ->
  sc_moved (move_line jc posns s) = false -> move_line jc posns s = s.
Proof.
  intros Hr Hn Hm.
  pose proof (move_line_log_steps jc posns s s [] Hr Hn (pss_refl jc s)) as Hsteps.
  rewrite move_line_log_erase in Hsteps.
  exact (proj1 (pass_steps_unmoved _ _ _ _ Hsteps Hm)).
Qed.

Lemma move_lines_moved_differs (jc : bool) (dir : direction) :
  forall s,
    wf_grid (sc_b s) -> good_direction dir ->
    sc_moved s = false -> sc_moved (move_lines jc dir s) = true ->
    exists r, cell_at (sc_b (move_lines jc dir s)) r <> cell_at (sc_b s) r.
Proof.
  unfold move_lines. induction dir as [|posns dir IH]; intros s Hwf Hg Hm Hm'.
  { cbn [List.fold_left] in Hm'. congruence. }
  change (posns :: dir) with ([posns] ++ dir) in Hg.
  apply good_direction_app in Hg as ([Hrp Hnp] & Hgd & Hdis).
  cbn [concat] in Hnp, Hdis. rewrite app_nil_r in Hnp, Hdis.
  apply Forall_cons in Hrp as [Hrp _].
  cbn [List.fold_left] in Hm' |- *.
  destruct (sc_moved (move_line jc posns s)) eqn:Hline.
  - destruct (move_line_moved_differs jc posns s Hwf Hrp Hnp Hm Hline)
      as (r & Hr & Hdiff).
    exists r. fold (move_lines jc dir (move_line jc posns s)).
    rewrite move_lines_frame; [exact Hdiff|]. apply Hdis, Hr.
  - rewrite (move_line_unmoved jc posns s Hrp Hnp Hline) in Hm' |- *.
    apply IH; assumption.
Qed.

(** ** The pass of a move *)

Lemma pass_unmoved (dir : direction) (jc : bool) (self : Board) :
  good_direction dir ->
  sc_moved (move_lines jc dir (Scan (_cells self) false (won self))) = false ->
  move_lines jc dir (Scan (_cells self) false (won self)) =
  Scan (_cells self) false (won self).
Proof.
  intros Hg Hm.
  exact (proj1 (pass_steps_unmoved _ _ _ _ (pass_of_move dir jc self Hg) Hm)).
Qed.

(** What a real move leaves in [won]: the flag the pass ends with. *)
Lemma move_real_won (dir : direction) (dr : draw) (self : Board) :
  won (move dir false dr self).2 =
  sc_won (move_lines false dir (Scan (_cells self) false (won self))).
Proof.
  rewrite move_real. cbv zeta. cbn [snd].
  destruct (_ && negb _); [|reflexivity].
  destruct (_add_tile_if_room_flags dr (after_loss_check dir self)) as [-> _].
  reflexivity.
Qed.

Lemma pass_count (dir : direction) (jc : bool) (self : Board) :
  good_direction dir -> wf_grid (_cells self) ->
  occupied_count (slid_grid dir jc self) + length (merged_values dir jc self) =
  occupied_count (_cells self).
Proof.
  intros Hg Hwf.
  exact (pass_steps_count _ _ _ _ (pass_of_move dir jc self Hg) Hwf).
Qed.

Lemma slid_grid_wf (dir : direction) (jc : bool) (self : Board) :
  good_direction dir -> wf_grid (_cells self) -> wf_grid (slid_grid dir jc self).
Proof. intros Hg Hwf. unfold slid_grid. apply move_lines_wf; assumption. Qed.

(** * The properties of the engine *)

(** C1, as stated, fails: [move] has no test of [won] before its loops.
    [won_game] is a reachable Board with [won] true (the end of
    [recorded_game]: row 0 holds 2048, 8, 4 and an empty cell); on it a move
    to the right returns true and shifts the rows. *)
Lemma won_board_still_moves :
  reachable won_game
  /\ won won_game = true
  /\ In RIGHT DIRS
  /\ move RIGHT false (Draw 0 0) won_game =
     (true,
      mkBoard [ row4 None (Some 2048%Z) (Some 8%Z) (Some 4%Z);
                row4 (Some 4%Z) (Some 8%Z) (Some 2%Z) (Some 4%Z);
                row4 None None (Some 8%Z) (Some 4%Z);
                row4 None None None None ] true false)
  /\ move RIGHT false (Draw 0 0) won_game <> (false, won_game).
Proof.
  split; [exact won_game_reachable|].
  assert (Hmove : move RIGHT false (Draw 0 0) won_game =
     (true,
      mkBoard [ row4 None (Some 2048%Z) (Some 8%Z) (Some 4%Z);
                row4 (Some 4%Z) (Some 8%Z) (Some 2%Z) (Some 4%Z);
                row4 None None (Some 8%Z) (Some 4%Z);
                row4 None None None None ] true false))
    by (vm_compute; reflexivity).
  split; [vm_compute; reflexivity|].
  split; [right; right; right; left; reflexivity|].
  split; [exact Hmove|].
  rewrite Hmove. intros H. discriminate H.
Qed.

(** C1, amended.  Once [won] is true, the key loop of [main] makes no move:
    every key but ["n"] leaves the Board as it is.  A direct call of [move]
    in one of the four directions keeps [won] true, leaves [lost] false and
    spawns nothing: its grid is the grid of the slide/merge pass, and is the
    grid before the call when the call returns false. *)
Theorem won_board_is_final (dir : direction) (dr : draw) (self : Board) :
  won self = true -> In dir DIRS ->
  (forall key dr1 dr2, key <> "n"%string -> key_step key dr1 dr2 self = self)
  /\ won (move dir false dr self).2 = true
  /\ lost (move dir false dr self).2 = false
  /\ _cells (move dir false dr self).2 = slid_grid dir false self
  /\ ((move dir false dr self).1 = false ->
      _cells (move dir false dr self).2 = _cells self).
Proof.
  intros Hwon Hd. pose proof (DIRS_good dir Hd) as Hg. split.
  { intros key dr1 dr2 Hkey. unfold key_step.
    apply String.eqb_neq in Hkey. rewrite Hkey.
    unfold gameover. rewrite Hwon. reflexivity. }
  assert (Hw : sc_won (move_lines false dir (Scan (_cells self) false (won self)))
               = true).
  { rewrite (pass_steps_won _ _ _ _ (pass_of_move dir false self Hg)).
    cbn [sc_won]. rewrite Hwon. reflexivity. }
  assert (Hafter : move dir false dr self =
                   (sc_moved (move_lines false dir (Scan (_cells self) false (won self))),
                    mkBoard (slid_grid dir false self) true false)).
  { rewrite move_real. cbv zeta. unfold after_loss_check, gameover.
    cbn [won lost]. rewrite Hw. cbn [negb andb orb].
    rewrite andb_false_r. reflexivity. }
  rewrite Hafter. cbn [fst snd won lost _cells].
  split; [reflexivity|]. split; [reflexivity|]. split; [reflexivity|].
  intros Hm. unfold slid_grid. rewrite (pass_unmoved dir false self Hg Hm).
  reflexivity.
Qed.

Lemma won_board_is_final_witness :
  (forall key dr1 dr2, key <> "n"%string -> key_step key dr1 dr2 won_game = won_game)
  /\ won (move RIGHT false (Draw 0 0) won_game).2 = true
  /\ lost (move RIGHT false (Draw 0 0) won_game).2 = false
  /\ _cells (move RIGHT false (Draw 0 0) won_game).2 = slid_grid RIGHT false won_game
  /\ ((move RIGHT false (Draw 0 0) won_game).1 = false ->
      _cells (move RIGHT false (Draw 0 0) won_game).2 = _cells won_game).
Proof.
  apply (won_board_is_final RIGHT (Draw 0 0) won_game).
  - vm_compute. reflexivity.
  - right. right. right. left. reflexivity.
Defined.

(** C2. If a real move in one of the four directions returns false from a
    reachable state, the grid after the call is the grid before the call. *)
Theorem move_false_grid_unchanged (dir : direction) (dr : draw) (self : Board) :
  reachable self -> In dir DIRS ->
  (move dir false dr self).1 = false ->
  _cells (move dir false dr self).2 = _cells self.
Proof.
  intros _ Hd. rewrite move_real. cbv zeta. cbn [fst snd]. intros Hm.
  rewrite Hm. cbn [andb]. unfold after_loss_check. cbn [_cells].
  rewrite (pass_unmoved dir false self (DIRS_good dir Hd) Hm). reflexivity.
Qed.

Lemma move_false_grid_unchanged_witness :
  _cells (move UP false (Draw 0 0) fresh_board).2 = _cells fresh_board.
Proof.
  apply (move_false_grid_unchanged UP (Draw 0 0) fresh_board).
  - apply reach_init.
  - left. reflexivity.
  - vm_compute. reflexivity.
Defined.

(** C3. On a board whose cells are all occupied, with no two neighbouring
    cells equal and [won] false, a move in any of the four directions returns
    false and leaves [lost] true. *)
Theorem stuck_board_is_lost (dir : direction) (dr : draw) (self : Board) :
  full_grid (_cells self) = true ->
  no_equal_neighbours (_cells self) = true ->
  won self = false ->
  In dir DIRS ->
  (move dir false dr self).1 = false /\ lost (move dir false dr self).2 = true.
Proof.
  intros Hfull Hneq Hwon Hd. rewrite move_real. cbv zeta. cbn [fst snd].
  unfold after_loss_check.
  rewrite (move_lines_stuck false dir (Scan (_cells self) false (won self))
             Hd Hfull Hneq).
  cbn [sc_moved sc_b sc_won andb].
  rewrite Hwon. cbn [negb andb lost]. split; [reflexivity|].
  rewrite _cant_move_existsb.
  destruct (List.existsb _ DIRS) eqn:E; [|reflexivity].
  apply List.existsb_exists in E as (i & Hi & Hm).
  unfold slide_merge in Hm. cbn [fst _cells won] in Hm.
  rewrite (move_lines_stuck true i (Scan (_cells self) false false)
             Hi Hfull Hneq) in Hm.
  discriminate Hm.
Qed.

Lemma stuck_board_is_lost_witness :
  (move LEFT false (Draw 0 0) stuck_board).1 = false /\
  lost (move LEFT false (Draw 0 0) stuck_board).2 = true.
Proof.
  apply (stuck_board_is_lost LEFT (Draw 0 0) stuck_board).
  - vm_compute. reflexivity.
  - vm_compute. reflexivity.
  - reflexivity.
  - right. left. reflexivity.
Defined.

(** C4. A real move ends with [won] true exactly when [won] was true before
    or one of its merges stored the goal value; in particular every merge
    that doubles a tile to 2048 sets [won].  A dry run leaves [won] as it
    was. *)
Theorem goal_merge_sets_won (dir : direction) (dr : draw) (self : Board) :
  In dir DIRS ->
  won (move dir false dr self).2 =
    won self
    || List.existsb (fun v => cell_eqb v (Some GOAL)) (merged_values dir false self)
  /\ (In (Some GOAL) (merged_values dir false self) ->
      won (move dir false dr self).2 = true)
  /\ won (move dir true dr self).2 = won self.
Proof.
  intros Hd.
  assert (Hwon : won (move dir false dr self).2 =
                 won self
                 || List.existsb (fun v => cell_eqb v (Some GOAL))
                      (merged_values dir false self)).
  { rewrite move_real_won.
    rewrite (pass_steps_won _ _ _ _ (pass_of_move dir false self (DIRS_good dir Hd))).
    reflexivity. }
  split; [exact Hwon|]. split.
  - intros Hin. rewrite Hwon. apply orb_true_iff. right.
    apply List.existsb_exists. exists (Some GOAL). split; [exact Hin|reflexivity].
  - rewrite move_dry. reflexivity.
Qed.

Lemma goal_merge_sets_won_witness :
  won (move LEFT false (Draw 0 0) almost_won).2 =
    won almost_won
    || List.existsb (fun v => cell_eqb v (Some GOAL))
         (merged_values LEFT false almost_won)
  /\ (In (Some GOAL) (merged_values LEFT false almost_won) ->
      won (move LEFT false (Draw 0 0) almost_won).2 = true)
  /\ won (move LEFT true (Draw 0 0) almost_won).2 = won almost_won.
Proof.
  apply (goal_merge_sets_won LEFT (Draw 0 0) almost_won).
  right. left. reflexivity.
Defined.

(** C5. A line holding 2, 2, 2, 2 comes out of the pass as 4, 4, empty,
    empty, in whichever of the four directions and in whichever line of it:
    the two 4s are not merged again.  At the end of the real move the line
    still starts with 4, 4 (the spawn only fills an empty cell). *)
Theorem four_twos_merge_in_pairs
    (dir : direction) (posns : line) (jc : bool) (dr : draw) (self : Board) :
  wf_grid (_cells self) -> In dir DIRS -> In posns dir ->
  line_values (_cells self) posns = [Some 2; Some 2; Some 2; Some 2]%Z ->
  line_values (slid_grid dir jc self) posns = [Some 4; Some 4; None; None]%Z
  /\ exists x y,
       line_values (_cells (move dir false dr self).2) posns =
       [Some 4; Some 4; x; y]%Z.
Proof.
  intros Hwf Hd Hposns Hv.
  assert (Hslid : forall jc',
             line_values (slid_grid dir jc' self) posns =
             [Some 4; Some 4; None; None]%Z).
  { intros jc'. unfold slid_grid.
    apply move_lines_2222; try assumption. apply DIRS_good, Hd. }
  split; [apply Hslid|].
  specialize (Hslid false). rewrite move_real. cbv zeta. cbn [snd].
  assert (Hcells : _cells (after_loss_check dir self) = slid_grid dir false self)
    by reflexivity.
  destruct (_ && negb _).
  - destruct (_add_tile_if_room_cases dr (after_loss_check dir self))
      as [[_ ->]|(p & t & Hp & Hempty & _ & ->)].
    + rewrite Hcells, Hslid. eauto.
    + cbn [_cells]. rewrite Hcells in *.
      destruct posns as [|p0 [|p1 [|p2 [|p3 [|p4 rest]]]]]; try discriminate Hslid.
      unfold line_values in *. cbn [List.map] in *.
      injection Hslid as H0 H1 H2 H3.
      exists (cell_at (assign (slid_grid dir false self) p (Some t)) p2),
             (cell_at (assign (slid_grid dir false self) p (Some t)) p3).
      rewrite !(cell_at_assign_ne _ p p0), !(cell_at_assign_ne _ p p1).
      * rewrite H0, H1. reflexivity.
      * intros ->. rewrite H1 in Hempty. discriminate Hempty.
      * intros ->. rewrite H0 in Hempty. discriminate Hempty.
  - rewrite Hcells, Hslid. eauto.
Qed.

Lemma four_twos_merge_in_pairs_witness :
  line_values (slid_grid LEFT false (mkBoard demo_grid false false))
    [(2, 0); (2, 1); (2, 2); (2, 3)] = [Some 4; Some 4; None; None]%Z
  /\ exists x y,
       line_values
         (_cells (move LEFT false (Draw 0 0) (mkBoard demo_grid false false)).2)
         [(2, 0); (2, 1); (2, 2); (2, 3)] = [Some 4; Some 4; x; y]%Z.
Proof.
  apply (four_twos_merge_in_pairs LEFT [(2, 0); (2, 1); (2, 2); (2, 3)] false
           (Draw 0 0) (mkBoard demo_grid false false)).
  - split; [reflexivity|]. repeat constructor.
  - right. left. reflexivity.
  - right. right. left. reflexivity.
  - reflexivity.
Defined.

(** C6. A dry run, [move(d, _just_checking=True)], leaves the whole Board
    (grid, [won], [lost]) as it was, and returns what the real move would
    return.  On an [N]x[N] grid and in one of the four directions that is
    true exactly when the pass of the real move changes the grid. *)
Theorem dry_run_changes_nothing (dir : direction) (dr dr' : draw) (self : Board) :
  (move dir true dr self).2 = self
  /\ (move dir true dr self).1 = (move dir false dr' self).1
  /\ (wf_grid (_cells self) -> In dir DIRS ->
      ((move dir true dr self).1 = true <->
       slid_grid dir false self <> _cells self)).
Proof.
  rewrite move_dry, move_real. cbv zeta. cbn [fst snd].
  split; [reflexivity|].
  destruct (slide_merge_dry_real dir self) as [Hret Hgrid].
  split; [exact Hret|].
  intros Hwf Hd. pose proof (DIRS_good dir Hd) as Hg.
  rewrite Hret. unfold slide_merge. cbn [fst]. split.
  - intros Hm Heq.
    destruct (move_lines_moved_differs false dir
                (Scan (_cells self) false (won self)) Hwf Hg eq_refl Hm)
      as (r & Hdiff).
    apply Hdiff. cbn [sc_b]. unfold slid_grid in Heq. rewrite Heq. reflexivity.
  - intros Hneq.
    destruct (sc_moved (move_lines false dir (Scan (_cells self) false (won self))))
      eqn:Hm; [reflexivity|].
    exfalso. apply Hneq. unfold slid_grid.
    rewrite (pass_unmoved dir false self Hg Hm). reflexivity.
Qed.

(** C7. In every reachable state, a cell that holds a value holds a power of
    two that is at least 2. *)
Theorem reachable_tiles_pow2 (self : Board) (p : pos) (v : Z) :
  reachable self ->
  cell_at (_cells self) p = Some v ->
  pow2_ge2 v /\ (2 <= v)%Z.
Proof.
  intros Hreach Hv. destruct (reachable_inv self Hreach) as (_ & Hall & _).
  pose proof (grid_all_cell_at tile_ok (_cells self) p I Hall) as Hok.
  rewrite Hv in Hok. simpl in Hok. split; [exact Hok|].
  destruct Hok as (k & Hk & ->).
  change 2%Z with (2 ^ 1)%Z at 1. apply Z.pow_le_mono_r; lia.
Qed.

Lemma reachable_tiles_pow2_witness : pow2_ge2 2 /\ (2 <= 2)%Z.
Proof.
  apply (reachable_tiles_pow2 fresh_board (0, 0) 2%Z).
  - apply reach_init.
  - reflexivity.
Defined.

(** C8. In every reachable state [won] and [lost] are not both true, and a
    real move that leaves [won] true leaves [lost] false. *)
Theorem won_excludes_lost (self : Board) :
  reachable self ->
  won self && lost self = false /\
  forall dir dr,
    won (move dir false dr self).2 = true ->
    lost (move dir false dr self).2 = false.
Proof.
  intros Hreach. split; [apply (reachable_inv self Hreach)|].
  intros dir dr. rewrite move_real. cbv zeta. cbn [snd].
  destruct (_ && negb _).
  - destruct (_add_tile_if_room_flags dr (after_loss_check dir self)) as [-> ->].
    unfold after_loss_check. cbn [won lost]. intros ->. reflexivity.
  - unfold after_loss_check. cbn [won lost]. intros ->. reflexivity.
Qed.

Lemma won_excludes_lost_witness :
  won won_game && lost won_game = false /\
  forall dir dr,
    won (move dir false dr won_game).2 = true ->
    lost (move dir false dr won_game).2 = false.
Proof. apply (won_excludes_lost won_game). exact won_game_reachable. Defined.

(** C9. In a reachable state at most [N]x[N] cells are occupied.  The pass of
    a move, real or dry, ends with as many occupied cells as it started with
    less one for each merge; a real move ends with at most one more occupied
    cell than it started with; a dry run leaves the count of the Board as it
    was. *)
Theorem occupied_count_bounds (dir : direction) (dr : draw) (self : Board) :
  reachable self -> In dir DIRS ->
  occupied_count (_cells self) <= N * N
  /\ (forall jc,
        occupied_count (slid_grid dir jc self)
        + length (merged_values dir jc self) = occupied_count (_cells self))
  /\ occupied_count (_cells (move dir false dr self).2)
     <= occupied_count (_cells self) + 1
  /\ occupied_count (_cells (move dir true dr self).2)
     = occupied_count (_cells self).
Proof.
  intros Hreach Hd. destruct (reachable_inv self Hreach) as (Hwf & _ & _).
  pose proof (DIRS_good dir Hd) as Hg.
  split; [apply occupied_count_bound, Hwf|].
  split; [intros jc; apply pass_count; assumption|].
  split; [|rewrite move_dry; reflexivity].
  pose proof (pass_count dir false self Hg Hwf) as Hpass.
  rewrite move_real. cbv zeta. cbn [snd].
  assert (Hcells : _cells (after_loss_check dir self) = slid_grid dir false self)
    by reflexivity.
  destruct (_ && negb _).
  - rewrite _add_tile_if_room_count
      by (rewrite Hcells; apply slid_grid_wf; assumption).
    rewrite Hcells. destruct (empty_cells _); lia.
  - rewrite Hcells. lia.
Qed.

Lemma occupied_count_bounds_witness :
  occupied_count (_cells fresh_board) <= N * N
  /\ (forall jc,
        occupied_count (slid_grid LEFT jc fresh_board)
        + length (merged_values LEFT jc fresh_board)
        = occupied_count (_cells fresh_board))
  /\ occupied_count (_cells (move LEFT false (Draw 0 0) fresh_board).2)
     <= occupied_count (_cells fresh_board) + 1
  /\ occupied_count (_cells (move LEFT true (Draw 0 0) fresh_board).2)
     = occupied_count (_cells fresh_board).
Proof.
  apply (occupied_count_bounds LEFT (Draw 0 0) fresh_board).
  - apply reach_init.
  - right. left. reflexivity.
Defined.

(** C10. When a real move in one of the four directions returns true, the
    grid its pass leaves has an empty cell; if moreover the game is not over
    after the call, the call has spawned exactly one tile: the final grid is
    the grid of the pass with a 2 or a 4 written into one of its empty
    cells. *)
Theorem changed_move_spawns (dir : direction) (dr : draw) (self : Board) :
  wf_grid (_cells self) -> In dir DIRS ->
  (move dir false dr self).1 = true ->
  empty_cells (slid_grid dir false self) <> []
  /\ (gameover (move dir false dr self).2 = false ->
      exists p t,
        in_range p /\ truthy (cell_at (slid_grid dir false self) p) = false
        /\ (t = 2 \/ t = 4)%Z
        /\ _cells (move dir false dr self).2 =
           assign (slid_grid dir false self) p (Some t)
        /\ occupied_count (_cells (move dir false dr self).2) =
           occupied_count (slid_grid dir false self) + 1).
Proof.
  intros Hwf Hd. pose proof (DIRS_good dir Hd) as Hg.
  rewrite move_real. cbv zeta. cbn [fst snd]. intros Hm.
  assert (Hcells : _cells (after_loss_check dir self) = slid_grid dir false self)
    by reflexivity.
  assert (Hroom : empty_cells (slid_grid dir false self) <> []).
  { destruct (pass_steps_vacancy _ _ _ _ (pass_of_move dir false self Hg) Hwf
                eq_refl Hm) as (q & Hq & Hnone).
    apply (empty_cells_vacancy _ q Hq). unfold slid_grid. rewrite Hnone.
    reflexivity. }
  split; [exact Hroom|].
  rewrite Hm. cbn [andb].
  destruct (gameover (after_loss_check dir self)) eqn:Hover; cbn [negb].
  - intros Hover'. congruence.
  - intros _.
    destruct (_add_tile_if_room_cases dr (after_loss_check dir self))
      as [[Hnil _]|(p & t & Hp & Hempty & Ht & Heq)].
    + rewrite Hcells in Hnil. contradiction.
    + exists p, t. rewrite Hcells in Hempty.
      split; [exact Hp|]. split; [exact Hempty|]. split; [exact Ht|].
      split; [rewrite Heq; reflexivity|].
      rewrite _add_tile_if_room_count
        by (rewrite Hcells; apply slid_grid_wf; assumption).
      rewrite Hcells. destruct (empty_cells _); [contradiction|reflexivity].
Qed.

Lemma changed_move_spawns_witness :
  empty_cells (slid_grid LEFT false fresh_board) <> []
  /\ (gameover (move LEFT false (Draw 0 0) fresh_board).2 = false ->
      exists p t,
        in_range p /\ truthy (cell_at (slid_grid LEFT false fresh_board) p) = false
        /\ (t = 2 \/ t = 4)%Z
        /\ _cells (move LEFT false (Draw 0 0) fresh_board).2 =
           assign (slid_grid LEFT false fresh_board) p (Some t)
        /\ occupied_count (_cells (move LEFT false (Draw 0 0) fresh_board).2) =
           occupied_count (slid_grid LEFT false fresh_board) + 1).
Proof.
  apply (changed_move_spawns LEFT (Draw 0 0) fresh_board).
  - split; [reflexivity|]. repeat constructor.
  - right. left. reflexivity.
  - vm_compute. reflexivity.
Defined.

(** * Further properties of the engine *)

(** ** The sum of the tiles *)

Lemma sum_assign_out (b : grid) (p : pos) (v : cell) (l : line) :
  ~ In p l ->
  List.map (fun x => cell_value (cell_at (assign b p v) x)) l =
  List.map (fun x => cell_value (cell_at b x)) l.
Proof.
  intros Hnin. apply List.map_ext_in. intros x Hx.
  rewrite cell_at_assign_ne; [reflexivity|]. intros ->. contradiction.
Qed.

Lemma sum_assign_in (b : grid) (p : pos) (v : cell) (l : line) :
  wf_grid b -> in_range p -> NoDup l -> In p l ->
  (List.fold_right Z.add 0
     (List.map (fun x => cell_value (cell_at (assign b p v) x)) l)
   + cell_value (cell_at b p) =
   List.fold_right Z.add 0 (List.map (fun x => cell_value (cell_at b x)) l)
   + cell_value v)%Z.
Proof.
  intros Hwf Hp. induction l as [|x l IH]; intros Hn Hin; [destruct Hin|].
  apply NoDup_cons in Hn as [Hx Hn]. rewrite list_elem_of_In in Hx.
  cbn [List.map List.fold_right]. destruct (decide (x = p)) as [->|Hne].
  - rewrite cell_at_assign_eq by assumption.
    rewrite sum_assign_out by exact Hx. lia.
  - destruct Hin as [Heq|Hin]; [contradiction|].
    specialize (IH Hn Hin). rewrite cell_at_assign_ne by congruence. lia.
Qed.

Lemma tile_sum_FLATPOS (b : grid) :
  wf_grid b ->
  tile_sum b =
  List.fold_right Z.add 0%Z (List.map (fun p => cell_value (cell_at b p)) FLATPOS).
Proof.
  intros Hwf. unfold tile_sum. rewrite (concat_FLATPOS b Hwf), List.map_map.
  reflexivity.
Qed.

Lemma tile_sum_assign (b : grid) (p : pos) (v : cell) :
  wf_grid b -> in_range p ->
  (tile_sum (assign b p v) + cell_value (cell_at b p) =
   tile_sum b + cell_value v)%Z.
Proof.
  intros Hwf Hp.
  rewrite !tile_sum_FLATPOS by (try apply wf_assign; exact Hwf).
  apply sum_assign_in; try assumption.
  - apply FLATPOS_NoDup.
  - apply FLATPOS_complete, Hp.
Qed.

Lemma cell_value_falsy (x : cell) : truthy x = false -> cell_value x = 0%Z.
Proof.
  destruct x as [v|]; simpl; [|reflexivity].
  destruct (Z.eqb_spec v 0); [intros _; assumption|discriminate].
Qed.

Lemma cell_value_eqb (x y : cell) :
  cell_eqb x y = true -> cell_value x = cell_value y.
Proof.
  destruct x as [v|], y as [w|]; simpl; try discriminate; [|reflexivity].
  apply Z.eqb_eq.
Qed.

Lemma cell_value_double (x : cell) : cell_value (double x) = (cell_value x * 2)%Z.
Proof. destruct x; reflexivity. Qed.

(** A slide moves a tile and a merge replaces two equal tiles by their sum:
    neither changes the total. *)
Lemma pass_step_sum (jc : bool) (s s' : scan) (ev : list cell) :
  pass_step jc s ev s' -> wf_grid (sc_b s) ->
  tile_sum (sc_b s') = tile_sum (sc_b s).
Proof.
  intros Hstep Hwf.
  destruct Hstep as [s p q Hp Hq Hne Htp Htq|s p q Hp Hq Hne Htp Htq He];
    cbn [sc_b merge_into].
  - pose proof (tile_sum_assign (sc_b s) p (cell_at (sc_b s) q) Hwf Hp) as H1.
    pose proof (tile_sum_assign _ q None (wf_assign _ p (cell_at (sc_b s) q) Hwf) Hq)
      as H2.
    rewrite cell_at_assign_ne in H2 by exact Hne.
    rewrite (cell_value_falsy _ Htp) in H1.
    change (cell_value None) with 0%Z in H2. lia.
  - pose proof (tile_sum_assign (sc_b s) q None Hwf Hq) as H1.
    pose proof (tile_sum_assign _ p
                  (double (cell_at (assign (sc_b s) q None) p))
                  (wf_assign _ q None Hwf) Hp) as H2.
    rewrite cell_value_double in H2.
    rewrite (cell_at_assign_ne _ q p) in H2 |- * by congruence.
    pose proof (cell_value_eqb _ _ He) as Heq.
    change (cell_value None) with 0%Z in H1. lia.
Qed.

Lemma pass_steps_sum (jc : bool) (s s' : scan) (log : list cell) :
  pass_steps jc s log s' -> wf_grid (sc_b s) ->
  tile_sum (sc_b s') = tile_sum (sc_b s).
Proof.
  induction 1 as [s|s1 s2 s3 log ev Hsteps IH Hstep]; intros Hwf; [reflexivity|].
  rewrite (pass_step_sum _ _ _ _ Hstep (pass_steps_wf _ _ _ _ Hsteps Hwf)).
  apply IH, Hwf.
Qed.

Lemma slid_grid_sum (dir : direction) (jc : bool) (self : Board) :
  good_direction dir -> wf_grid (_cells self) ->
  tile_sum (slid_grid dir jc self) = tile_sum (_cells self).
Proof.
  intros Hg Hwf.
  exact (pass_steps_sum _ _ _ _ (pass_of_move dir jc self Hg) Hwf).
Qed.

(** What a real move leaves as the grid: the grid of the pass, or that grid
    with a spawned 2 or 4 in one of its empty cells, which only happens when
    the move returns true. *)
Lemma move_real_grid (dir : direction) (dr : draw) (self : Board) :
  _cells (move dir false dr self).2 = slid_grid dir false self
  \/ exists p t,
       in_range p /\ truthy (cell_at (slid_grid dir false self) p) = false
       /\ (t = 2 \/ t = 4)%Z
       /\ (move dir false dr self).1 = true
       /\ _cells (move dir false dr self).2 =
          assign (slid_grid dir false self) p (Some t).
Proof.
  rewrite move_real. cbv zeta. cbn [fst snd].
  assert (Hcells : _cells (after_loss_check dir self) = slid_grid dir false self)
    by reflexivity.
  destruct (sc_moved _) eqn:Hm; cbn [andb]; [|left; exact Hcells].
  destruct (negb _); [|left; exact Hcells].
  destruct (_add_tile_if_room_cases dr (after_loss_check dir self))
    as [[_ ->]|(p & t & Hp & Hempty & Ht & ->)]; [left; exact Hcells|right].
  exists p, t. rewrite Hcells in Hempty. cbn [_cells]. rewrite Hcells.
  repeat (split; [assumption|]). split; reflexivity.
Qed.

Lemma move_real_fst (dir : direction) (dr : draw) (self : Board) :
  (move dir false dr self).1 =
  sc_moved (move_lines false dir (Scan (_cells self) false (won self))).
Proof. rewrite move_real. reflexivity. Qed.

Lemma tile_sum_spawn (b : grid) (p : pos) (t : Z) :
  wf_grid b -> in_range p -> truthy (cell_at b p) = false ->
  tile_sum (assign b p (Some t)) = (tile_sum b + t)%Z.
Proof.
  intros Hwf Hp Hempty. pose proof (tile_sum_assign b p (Some t) Hwf Hp) as H.
  rewrite (cell_value_falsy _ Hempty) in H. cbn [cell_value] in H. lia.
Qed.

(** The grid after a real move is the grid before it exactly when the move
    returns false. *)
Lemma move_changed_iff (dir : direction) (dr : draw) (self : Board) :
  good_direction dir -> wf_grid (_cells self) ->
  (move dir false dr self).1 = true <->
  _cells (move dir false dr self).2 <> _cells self.
Proof.
  intros Hg Hwf. split.
  - intros Hm Heq.
    destruct (move_real_grid dir dr self)
      as [Hgrid|(p & t & Hp & Hempty & Ht & _ & Hgrid)].
    + rewrite move_real_fst in Hm.
      destruct (move_lines_moved_differs false dir
                  (Scan (_cells self) false (won self)) Hwf Hg eq_refl Hm)
        as (r & Hdiff).
      apply Hdiff. cbn [sc_b]. fold (slid_grid dir false self).
      rewrite <- Hgrid, Heq. reflexivity.
    + assert (Hsum : tile_sum (_cells (move dir false dr self).2)
                     = (tile_sum (_cells self) + t)%Z).
      { rewrite Hgrid, tile_sum_spawn; try assumption.
        - rewrite slid_grid_sum by assumption. reflexivity.
        - apply slid_grid_wf; assumption. }
      rewrite Heq in Hsum. destruct Ht as [-> | ->]; lia.
  - intros Hneq. destruct ((move dir false dr self).1) eqn:Hm; [reflexivity|].
    exfalso. apply Hneq.
    destruct (move_real_grid dir dr self)
      as [Hgrid|(p & t & _ & _ & _ & Hm' & _)]; [|congruence].
    rewrite Hgrid. rewrite move_real_fst in Hm. unfold slid_grid.
    rewrite (pass_unmoved dir false self Hg Hm). reflexivity.
Qed.

(** ** The pass of a line is the row rule *)

Lemma truthy_Some (x : cell) : truthy x = true -> x = Some (cell_value x).
Proof. destruct x; simpl; [reflexivity|discriminate]. Qed.

Lemma falsy_None (x : cell) : not_zero x -> truthy x = false -> x = None.
Proof.
  destruct x as [v|]; simpl; [|reflexivity]. intros Hnz.
  destruct (Z.eqb_spec v 0) as [->|]; [|discriminate].
  exfalso. apply Hnz. reflexivity.
Qed.

Lemma tiles_cons (x : cell) (l : list cell) :
  tiles (x :: l) = (if truthy x then [cell_value x] else []) ++ tiles l.
Proof. reflexivity. Qed.

Lemma next_tile_None_values (b : grid) (rest : line) :
  next_tile b rest = None ->
  Forall (fun r => not_zero (cell_at b r)) rest ->
  line_values b rest = repeat None (length rest).
Proof.
  unfold next_tile, line_values.
  induction rest as [|r rest IH]; intros Hfind Hnz; [reflexivity|].
  apply Forall_cons in Hnz as [Hr Hnz]. cbn [List.find] in Hfind.
  destruct (truthy (cell_at b r)) eqn:Ht; [discriminate|].
  cbn [List.map length repeat]. rewrite (falsy_None _ Hr Ht), IH by assumption.
  reflexivity.
Qed.

Lemma next_tile_None_tiles (b : grid) (rest : line) :
  next_tile b rest = None -> tiles (line_values b rest) = [].
Proof.
  unfold next_tile, line_values.
  induction rest as [|r rest IH]; intros Hfind; [reflexivity|].
  cbn [List.find] in Hfind. cbn [List.map]. rewrite tiles_cons.
  destruct (truthy (cell_at b r)) eqn:Ht; [discriminate|].
  apply IH, Hfind.
Qed.

(** The next tile is the first tile of the rest of the line; taking it away
    leaves the other tiles. *)
Lemma next_tile_tiles (b : grid) (rest : line) (q : pos) :
  wf_grid b -> Forall in_range rest -> NoDup rest ->
  next_tile b rest = Some q ->
  tiles (line_values b rest) =
  cell_value (cell_at b q) :: tiles (line_values (assign b q None) rest).
Proof.
  intros Hwf. unfold next_tile, line_values.
  induction rest as [|r rest IH]; intros Hr Hn Hfind; [discriminate|].
  apply Forall_cons in Hr as [Hrr Hr]. apply NoDup_cons in Hn as [Hnin Hn].
  rewrite list_elem_of_In in Hnin.
  cbn [List.find] in Hfind. cbn [List.map]. rewrite !tiles_cons.
  destruct (truthy (cell_at b r)) eqn:Ht.
  - injection Hfind as ->.
    rewrite cell_at_assign_eq by assumption. cbn [truthy app].
    fold (line_values (assign b q None) rest). fold (line_values b rest).
    rewrite (line_values_frame b (assign b q None) rest); [reflexivity|].
    intros x Hx. apply cell_at_assign_ne. intros ->. contradiction.
  - pose proof (find_some _ _ Hfind) as [Hin _].
    rewrite cell_at_assign_ne by (intros ->; contradiction).
    rewrite Ht. cbn [app]. apply IH; assumption.
Qed.

Lemma row_move_congr (l l' : list cell) :
  tiles l = tiles l' -> length l = length l' -> row_move l = row_move l'.
Proof. intros Ht Hl. unfold row_move. rewrite Ht, Hl. reflexivity. Qed.

Lemma row_move_empty (l : list cell) :
  tiles l = [] -> row_move l = repeat None (length l).
Proof.
  intros Ht. unfold row_move. rewrite Ht. cbn [merge_tiles List.map length app].
  rewrite Nat.sub_0_r. reflexivity.
Qed.

Lemma row_move_single (x : cell) (l : list cell) (a : Z) :
  tiles (x :: l) = [a] -> row_move (x :: l) = Some a :: repeat None (length l).
Proof.
  intros Ht. unfold row_move. rewrite Ht. cbn [merge_tiles merge_from].
  replace (length (x :: l) - length [a]) with (length l) by (simpl; lia).
  reflexivity.
Qed.

Lemma row_move_merge (x : cell) (l l' : list cell) (a : Z) :
  tiles (x :: l) = a :: a :: tiles l' -> length l' = length l ->
  row_move (x :: l) = Some (a * 2)%Z :: row_move l'.
Proof.
  intros Ht Hl. unfold row_move. rewrite Ht, Hl.
  cbn [merge_tiles merge_from]. rewrite Z.eqb_refl.
  fold (merge_tiles (tiles l')). reflexivity.
Qed.

Lemma row_move_keep (x : cell) (l l' : list cell) (a b : Z) (T : list Z) :
  tiles (x :: l) = a :: b :: T -> tiles l' = b :: T -> a <> b ->
  length l' = length l ->
  row_move (x :: l) = Some a :: row_move l'.
Proof.
  intros Ht Ht' Hne Hl. unfold row_move. rewrite Ht, Ht', Hl.
  cbn [merge_tiles merge_from]. apply Z.eqb_neq in Hne. rewrite Hne.
  reflexivity.
Qed.

Lemma line_values_length (b : grid) (posns : line) :
  length (line_values b posns) = length posns.
Proof. unfold line_values. apply length_map. Qed.

Lemma cell_eqb_value_false (x y : cell) :
  truthy x = true -> truthy y = true -> cell_eqb x y = false ->
  cell_value x <> cell_value y.
Proof.
  destruct x as [v|], y as [w|]; simpl; try discriminate.
  intros _ _ H. apply Z.eqb_neq, H.
Qed.

(** The cells of the rest of a line, once the tile at [q] has been taken
    from it and whatever has been written at the head [p]. *)
Lemma rest_after_take (b : grid) (p q : pos) (v : cell) (rest : line) :
  ~ In p rest ->
  line_values (assign (assign b q None) p v) rest =
  line_values (assign b q None) rest.
Proof.
  intros Hnin. apply line_values_frame. intros r Hr.
  apply cell_at_assign_ne. intros ->. contradiction.
Qed.

Lemma not_zero_after_take (b : grid) (q : pos) (rest : line) :
  wf_grid b -> Forall in_range rest ->
  Forall (fun r => not_zero (cell_at b r)) rest ->
  Forall (fun r => not_zero (cell_at (assign b q None) r)) rest.
Proof.
  intros Hwf Hr Hnz. rewrite List.Forall_forall in *. intros r Hin.
  destruct (decide (q = r)) as [->|Hne].
  - rewrite cell_at_assign_eq; [discriminate|exact Hwf|apply Hr, Hin].
  - rewrite cell_at_assign_ne by exact Hne. apply Hnz, Hin.
Qed.

Lemma not_zero_frame (b b' : grid) (rest : line) :
  line_values b' rest = line_values b rest ->
  Forall (fun r => not_zero (cell_at b r)) rest ->
  Forall (fun r => not_zero (cell_at b' r)) rest.
Proof.
  unfold line_values. induction rest as [|r rest IH]; intros Heq Hnz;
    [constructor|].
  apply Forall_cons in Hnz as [Hr Hnz]. cbn [List.map] in Heq.
  injection Heq as Hhead Htail. constructor; [rewrite Hhead; exact Hr|].
  apply IH; assumption.
Qed.

Lemma double_value (x : cell) :
  truthy x = true -> double x = Some (cell_value x * 2)%Z.
Proof. destruct x; simpl; [reflexivity|discriminate]. Qed.

Lemma line_values_cons (b : grid) (p : pos) (rest : line) :
  line_values b (p :: rest) = cell_at b p :: line_values b rest.
Proof. reflexivity. Qed.

(** The pass of one line computes the row rule on the values of the line,
    provided no cell of the line holds the int 0. *)
Lemma move_line_row (jc : bool) (posns : line) :
  forall s,
    wf_grid (sc_b s) -> Forall in_range posns -> NoDup posns ->
    Forall (fun r => not_zero (cell_at (sc_b s) r)) posns ->
    line_values (sc_b (move_line jc posns s)) posns =
    row_move (line_values (sc_b s) posns).
Proof.
  induction posns as [|p rest IH]; intros s Hwf Hr Hn Hnz; [reflexivity|].
  apply Forall_cons in Hr as [Hp Hrest]. apply NoDup_cons in Hn as [Hnin Hn].
  rewrite list_elem_of_In in Hnin.
  (* the iteration at p when the cell at p holds a tile *)
  assert (Occ : forall s',
             wf_grid (sc_b s') ->
             Forall (fun r => not_zero (cell_at (sc_b s') r)) rest ->
             truthy (cell_at (sc_b s') p) = true ->
             line_values (sc_b (move_line jc (p :: rest) s')) (p :: rest) =
             row_move (line_values (sc_b s') (p :: rest))).
  { intros s' Hwf' Hnz' Ht.
    rewrite (move_line_cons jc p rest s' s' (slide_into_occupied p rest s' Ht)).
    rewrite Ht. cbn [negb]. rewrite (line_values_cons (sc_b s')).
    assert (Htiles : tiles (cell_at (sc_b s') p :: line_values (sc_b s') rest) =
                     cell_value (cell_at (sc_b s') p)
                     :: tiles (line_values (sc_b s') rest)).
    { rewrite tiles_cons, Ht. reflexivity. }
    destruct (next_tile (sc_b s') rest) as [q|] eqn:Hq.
    - pose proof (next_tile_tiles _ _ _ Hwf' Hrest Hn Hq) as Hrest_tiles.
      pose proof Hq as Hq'. apply next_tile_Some in Hq' as [Hin Htq].
      assert (Hpq : p <> q) by (intros ->; contradiction).
      rewrite Hrest_tiles in Htiles.
      destruct (cell_eqb (cell_at (sc_b s') p) (cell_at (sc_b s') q)) eqn:He.
      + (* merge *)
        assert (Hs2 : line_values (sc_b (merge_into jc p q s')) rest =
                      line_values (assign (sc_b s') q None) rest)
          by (apply rest_after_take; exact Hnin).
        rewrite (line_values_cons (sc_b (move_line _ _ _))).
        rewrite move_line_frame by exact Hnin.
        rewrite (merge_into_head jc p q s' Hwf' Hp Hpq).
        rewrite (double_value _ Ht).
        rewrite IH; try assumption.
        * rewrite Hs2. symmetry.
          rewrite <- (cell_value_eqb _ _ He) in Htiles.
          apply (row_move_merge _ _ _ _ Htiles).
          rewrite !line_values_length. reflexivity.
        * repeat apply wf_assign. exact Hwf'.
        * apply (not_zero_frame (assign (sc_b s') q None)); [exact Hs2|].
          apply not_zero_after_take; assumption.
      + (* no merge *)
        rewrite (line_values_cons (sc_b (move_line _ _ _))).
        rewrite move_line_frame by exact Hnin.
        rewrite IH by assumption.
        rewrite (truthy_Some _ Ht) at 1. symmetry.
        apply (row_move_keep _ _ _ _ _ _ Htiles Hrest_tiles).
        * apply cell_eqb_value_false; assumption.
        * reflexivity.
    - (* nothing after p: break *)
      rewrite (next_tile_None_tiles _ _ Hq) in Htiles.
      rewrite (row_move_single _ _ _ Htiles).
      rewrite line_values_cons.
      rewrite line_values_length, (next_tile_None_values _ _ Hq Hnz').
      rewrite (truthy_Some _ Ht) at 1. reflexivity. }
  apply Forall_cons in Hnz as [Hnzp Hnz].
  destruct (truthy (cell_at (sc_b s) p)) eqn:Ht; [apply Occ; assumption|].
  destruct (next_tile (sc_b s) rest) as [q|] eqn:Hq.
  - (* the next tile slides to p *)
    pose proof (next_tile_tiles _ _ _ Hwf Hrest Hn Hq) as Hrest_tiles.
    pose proof Hq as Hq'. apply next_tile_Some in Hq' as [Hin Htq].
    assert (Hpq : p <> q) by (intros ->; contradiction).
    set (s1 := Scan (assign (assign (sc_b s) p (cell_at (sc_b s) q)) q None)
                    (sc_moved s || true) (sc_won s)).
    assert (Hs1 : slide_into p rest s = s1).
    { unfold slide_into. rewrite Ht, Hq. reflexivity. }
    assert (Hhead : cell_at (sc_b s1) p = cell_at (sc_b s) q).
    { cbn [sc_b s1]. rewrite cell_at_assign_ne by congruence.
      apply cell_at_assign_eq; assumption. }
    assert (Hrest1 : line_values (sc_b s1) rest =
                     line_values (assign (sc_b s) q None) rest).
    { apply line_values_frame. intros r Hr. cbn [sc_b s1].
      assert (Hrp : p <> r) by (intros ->; contradiction).
      destruct (decide (q = r)) as [->|Hqr].
      - assert (Hrr : in_range r).
        { pose proof Hrest as Hall. rewrite List.Forall_forall in Hall.
          apply Hall, Hr. }
        rewrite (cell_at_assign_eq _ r None); [|apply wf_assign; exact Hwf|exact Hrr].
        rewrite (cell_at_assign_eq _ r None); [reflexivity|exact Hwf|exact Hrr].
      - rewrite !cell_at_assign_ne by assumption. reflexivity. }
    assert (Ht1 : truthy (cell_at (sc_b s1) p) = true) by (rewrite Hhead; exact Htq).
    assert (Hsame : move_line jc (p :: rest) s = move_line jc (p :: rest) s1).
    { rewrite (move_line_cons jc p rest s s1 Hs1).
      rewrite (move_line_cons jc p rest s1 s1 (slide_into_occupied p rest s1 Ht1)).
      reflexivity. }
    rewrite Hsame, Occ.
    + apply row_move_congr; [|rewrite !line_values_length; reflexivity].
      unfold line_values. cbn [List.map]. rewrite !tiles_cons, Ht1, Ht, Hhead.
      fold (line_values (sc_b s1) rest). fold (line_values (sc_b s) rest).
      rewrite Hrest1, Hrest_tiles. reflexivity.
    + repeat apply wf_assign. exact Hwf.
    + apply (not_zero_frame (assign (sc_b s) q None)); [exact Hrest1|].
      apply not_zero_after_take; assumption.
    + exact Ht1.
  - (* the line is empty from p on: break *)
    assert (Hs1 : slide_into p rest s = s).
    { unfold slide_into. rewrite Ht, Hq. reflexivity. }
    rewrite (move_line_cons jc p rest s s Hs1), Ht. cbn [negb].
    rewrite row_move_empty.
    + rewrite line_values_length, line_values_cons. cbn [length repeat].
      rewrite (falsy_None _ Hnzp Ht), (next_tile_None_values _ _ Hq Hnz).
      reflexivity.
    + unfold line_values. cbn [List.map]. rewrite tiles_cons, Ht.
      apply (next_tile_None_tiles _ _ Hq).
Qed.

(** Within the pass of a whole direction, a line is passed from a state in
    which it still holds its first values, and is left alone afterwards. *)
Lemma move_lines_local (jc : bool) (dir : direction) (posns : line) (s : scan) :
  good_direction dir -> In posns dir -> wf_grid (sc_b s) ->
  Forall in_range posns /\ NoDup posns /\
  exists s1,
    wf_grid (sc_b s1)
    /\ (sc_moved s = true -> sc_moved s1 = true)
    /\ (forall r, In r posns -> cell_at (sc_b s1) r = cell_at (sc_b s) r)
    /\ (sc_moved (move_line jc posns s1) = true ->
        sc_moved (move_lines jc dir s) = true)
    /\ line_values (sc_b (move_lines jc dir s)) posns =
       line_values (sc_b (move_line jc posns s1)) posns.
Proof.
  intros Hg Hin Hwf.
  apply List.in_split in Hin as (l1 & l2 & ->).
  apply good_direction_app in Hg as (Hg1 & Hg2 & Hdis1).
  change (posns :: l2) with ([posns] ++ l2) in Hg2.
  pose proof (good_direction_app _ _ Hg2) as (Hgp & Hgl2 & Hdis2).
  destruct Hgp as [Hrp Hnp]. cbn [concat] in Hnp, Hdis1, Hdis2.
  rewrite app_nil_r in Hnp, Hdis2. apply Forall_cons in Hrp as [Hrp _].
  split; [exact Hrp|]. split; [exact Hnp|].
  exists (move_lines jc l1 s).
  assert (Hmono : forall d t, good_direction d -> sc_moved t = true ->
                              sc_moved (move_lines jc d t) = true).
  { intros d t Hd Ht.
    pose proof (move_lines_log_steps jc d t t [] Hd (pss_refl jc t)) as Hsteps.
    rewrite move_lines_log_erase in Hsteps.
    destruct (sc_moved (move_lines jc d t)) eqn:E; [reflexivity|].
    destruct (pass_steps_unmoved _ _ _ _ Hsteps E) as [Heq _].
    rewrite Heq in E. congruence. }
  split; [apply move_lines_wf; assumption|].
  split; [apply Hmono; exact Hg1|].
  split.
  { intros r Hr. apply move_lines_frame. intros Hr1. apply (Hdis1 r Hr1).
    apply List.in_or_app. left. exact Hr. }
  unfold move_lines at 2 3. rewrite List.fold_left_app. cbn [List.fold_left].
  fold (move_lines jc l1 s).
  fold (move_lines jc l2 (move_line jc posns (move_lines jc l1 s))).
  split; [apply Hmono; exact Hgl2|].
  apply line_values_frame. intros r Hr. apply move_lines_frame.
  intros Hr2. exact (Hdis2 r Hr Hr2).
Qed.

Lemma grid_all_Forall (P : cell -> Prop) (b : grid) (posns : line) :
  P None -> grid_all P b -> Forall (fun r => P (cell_at b r)) posns.
Proof.
  intros HN Hall. apply List.Forall_forall. intros r _.
  apply grid_all_cell_at; assumption.
Qed.

Lemma move_lines_row (jc : bool) (dir : direction) (posns : line) (s : scan) :
  good_direction dir -> In posns dir -> wf_grid (sc_b s) ->
  grid_all not_zero (sc_b s) ->
  line_values (sc_b (move_lines jc dir s)) posns =
  row_move (line_values (sc_b s) posns).
Proof.
  intros Hg Hin Hwf Hnz.
  destruct (move_lines_local jc dir posns s Hg Hin Hwf)
    as (Hr & Hn & s1 & Hwf1 & _ & Hsame & _ & ->).
  assert (Hvals : line_values (sc_b s1) posns = line_values (sc_b s) posns)
    by (apply line_values_frame; exact Hsame).
  rewrite move_line_row; try assumption; [rewrite Hvals; reflexivity|].
  apply (not_zero_frame (sc_b s)); [exact Hvals|].
  apply grid_all_Forall; [discriminate|exact Hnz].
Qed.

(** ** When the pass reports a change *)

Lemma move_line_moved_mono (jc : bool) (posns : line) (s : scan) :
  Forall in_range posns -> NoDup posns ->
  sc_moved s = true -> sc_moved (move_line jc posns s) = true.
Proof.
  intros Hr Hn Hm.
  destruct (sc_moved (move_line jc posns s)) eqn:E; [reflexivity|].
  rewrite (move_line_unmoved jc posns s Hr Hn E) in E. congruence.
Qed.

Lemma merge_into_moved (jc : bool) (p q : pos) (s : scan) :
  sc_moved (merge_into jc p q s) = true.
Proof. unfold merge_into. cbn [sc_moved]. apply orb_true_r. Qed.

Lemma next_tile_all_empty (b : grid) (rest : line) :
  List.forallb (fun y => negb (truthy y)) (line_values b rest) = true ->
  next_tile b rest = None.
Proof.
  unfold next_tile, line_values.
  induction rest as [|r rest IH]; [reflexivity|].
  cbn [List.map List.forallb List.find]. intros H.
  apply andb_true_iff in H as [Hr H].
  destruct (truthy (cell_at b r)); [discriminate|]. apply IH, H.
Qed.

Lemma next_tile_None_empty (b : grid) (rest : line) :
  next_tile b rest = None ->
  List.forallb (fun y => negb (truthy y)) (line_values b rest) = true.
Proof.
  unfold next_tile, line_values.
  induction rest as [|r rest IH]; [reflexivity|].
  cbn [List.map List.forallb List.find].
  destruct (truthy (cell_at b r)); [discriminate|]. apply IH.
Qed.

Lemma packed_all_empty (l : list cell) :
  List.forallb (fun y => negb (truthy y)) l = true -> packed l = true.
Proof.
  induction l as [|x l IH]; [reflexivity|]. cbn [List.forallb packed].
  intros H. apply andb_true_iff in H as [Hx H].
  destruct (truthy x); [discriminate|exact H].
Qed.

(** A line with an empty cell before a tile makes the pass report a
    change. *)
Lemma move_line_gap (jc : bool) (posns : line) :
  forall s,
    Forall in_range posns -> NoDup posns ->
    packed (line_values (sc_b s) posns) = false ->
    sc_moved (move_line jc posns s) = true.
Proof.
  induction posns as [|p rest IH]; intros s Hr Hn Hgap; [discriminate|].
  pose proof Hr as Hr'. pose proof Hn as Hn'.
  apply Forall_cons in Hr as [Hp Hrest]. apply NoDup_cons in Hn as [Hnin Hn].
  rewrite line_values_cons in Hgap. cbn [packed] in Hgap.
  destruct (truthy (cell_at (sc_b s) p)) eqn:Ht.
  - rewrite (move_line_cons jc p rest s s (slide_into_occupied p rest s Ht)).
    rewrite Ht. cbn [negb].
    destruct (next_tile (sc_b s) rest) as [q|] eqn:Hq.
    + destruct (cell_eqb _ _).
      * apply move_line_moved_mono; try assumption. apply merge_into_moved.
      * apply IH; assumption.
    + rewrite (packed_all_empty _ (next_tile_None_empty _ _ Hq)) in Hgap.
      discriminate.
  - destruct (next_tile (sc_b s) rest) as [q|] eqn:Hq.
    + set (s1 := Scan (assign (assign (sc_b s) p (cell_at (sc_b s) q)) q None)
                      (sc_moved s || true) (sc_won s)).
      assert (Hs1 : slide_into p rest s = s1).
      { unfold slide_into. rewrite Ht, Hq. reflexivity. }
      assert (Hm1 : sc_moved s1 = true) by apply orb_true_r.
      rewrite (move_line_cons jc p rest s s1 Hs1).
      destruct (negb _); [exact Hm1|].
      destruct (next_tile (sc_b s1) rest) as [q'|]; [|exact Hm1].
      apply move_line_moved_mono; try assumption.
      destruct (cell_eqb _ _); [apply merge_into_moved|exact Hm1].
    + rewrite (next_tile_None_empty _ _ Hq) in Hgap. discriminate.
Qed.

Lemma equal_pair_cons (x y : cell) (l : list cell) :
  equal_pair (x :: y :: l) = cell_eqb x y || equal_pair (y :: l).
Proof. reflexivity. Qed.

(** A line of occupied cells with two equal neighbours makes the pass report
    a change. *)
Lemma move_line_pair (jc : bool) (posns : line) :
  forall s,
    Forall in_range posns -> NoDup posns ->
    List.forallb truthy (line_values (sc_b s) posns) = true ->
    equal_pair (line_values (sc_b s) posns) = true ->
    sc_moved (move_line jc posns s) = true.
Proof.
  induction posns as [|p rest IH]; intros s Hr Hn Hocc Hpair; [discriminate|].
  apply Forall_cons in Hr as [Hp Hrest]. apply NoDup_cons in Hn as [Hnin Hn].
  rewrite line_values_cons in Hocc, Hpair. cbn [List.forallb] in Hocc.
  apply andb_true_iff in Hocc as [Ht Hocc].
  destruct rest as [|q rest']; [discriminate|].
  rewrite line_values_cons in Hpair. rewrite equal_pair_cons in Hpair.
  pose proof Hocc as Hocc'. rewrite line_values_cons in Hocc'.
  cbn [List.forallb] in Hocc'. apply andb_true_iff in Hocc' as [Htq _].
  rewrite (move_line_cons jc p (q :: rest') s s
             (slide_into_occupied p (q :: rest') s Ht)).
  rewrite Ht. cbn [negb]. unfold next_tile. cbn [List.find]. rewrite Htq.
  destruct (cell_eqb (cell_at (sc_b s) p) (cell_at (sc_b s) q)) eqn:He.
  - apply move_line_moved_mono; try assumption. apply merge_into_moved.
  - cbn [orb] in Hpair. rewrite <- line_values_cons in Hpair.
    apply IH; assumption.
Qed.

(** The same for a line within the pass of a whole direction. *)
Lemma move_lines_gap (jc : bool) (dir : direction) (posns : line) (s : scan) :
  good_direction dir -> In posns dir -> wf_grid (sc_b s) ->
  packed (line_values (sc_b s) posns) = false ->
  sc_moved (move_lines jc dir s) = true.
Proof.
  intros Hg Hin Hwf Hgap.
  destruct (move_lines_local jc dir posns s Hg Hin Hwf)
    as (Hr & Hn & s1 & _ & _ & Hsame & Hmoved & _).
  apply Hmoved, move_line_gap; try assumption.
  rewrite (line_values_frame (sc_b s) (sc_b s1) posns Hsame). exact Hgap.
Qed.

Lemma move_lines_pair (jc : bool) (dir : direction) (posns : line) (s : scan) :
  good_direction dir -> In posns dir -> wf_grid (sc_b s) ->
  List.forallb truthy (line_values (sc_b s) posns) = true ->
  equal_pair (line_values (sc_b s) posns) = true ->
  sc_moved (move_lines jc dir s) = true.
Proof.
  intros Hg Hin Hwf Hocc Hpair.
  destruct (move_lines_local jc dir posns s Hg Hin Hwf)
    as (Hr & Hn & s1 & _ & _ & Hsame & Hmoved & _).
  apply Hmoved, move_line_pair; try assumption;
    rewrite (line_values_frame (sc_b s) (sc_b s1) posns Hsame); assumption.
Qed.

(** ** Boards on which no direction moves *)

(** Four cells packed towards both ends are all occupied or all empty. *)
Lemma packed_both_ways (a b c d : cell) :
  packed [a; b; c; d] = true -> packed [d; c; b; a] = true ->
  truthy b = truthy a /\ truthy c = truthy a /\ truthy d = truthy a.
Proof.
  cbn [packed List.forallb].
  destruct (truthy a), (truthy b), (truthy c), (truthy d); cbn;
    intros H1 H2; try discriminate; repeat split.
Qed.

(** If every line of the four directions is packed, one occupied cell makes
    the grid full. *)
Lemma all_packed_full (b : grid) (p : pos) :
  (forall dir posns, In dir DIRS -> In posns dir ->
                     packed (line_values b posns) = true) ->
  in_range p -> truthy (cell_at b p) = true -> full_grid b = true.
Proof.
  intros Hall Hp Ht.
  assert (Hrow : forall r,
             r < N ->
             truthy (cell_at b (r, 1)) = truthy (cell_at b (r, 0)) /\
             truthy (cell_at b (r, 2)) = truthy (cell_at b (r, 0)) /\
             truthy (cell_at b (r, 3)) = truthy (cell_at b (r, 0))).
  { intros r Hr.
    apply packed_both_ways.
    - apply (Hall LEFT [(r, 0); (r, 1); (r, 2); (r, 3)]);
        [right; left; reflexivity|].
      unfold N in Hr.
      do 4 (destruct r as [|r]; [vm_compute; tauto|]). lia.
    - apply (Hall RIGHT [(r, 3); (r, 2); (r, 1); (r, 0)]);
        [right; right; right; left; reflexivity|].
      unfold N in Hr.
      do 4 (destruct r as [|r]; [vm_compute; tauto|]). lia. }
  assert (Hcol : truthy (cell_at b (1, 0)) = truthy (cell_at b (0, 0)) /\
                 truthy (cell_at b (2, 0)) = truthy (cell_at b (0, 0)) /\
                 truthy (cell_at b (3, 0)) = truthy (cell_at b (0, 0))).
  { apply packed_both_ways.
    - apply (Hall UP [(0, 0); (1, 0); (2, 0); (3, 0)]);
        [left; reflexivity|left; reflexivity].
    - apply (Hall DOWN [(3, 0); (2, 0); (1, 0); (0, 0)]);
        [right; right; left; reflexivity|left; reflexivity]. }
  assert (Hsame : forall q, In q FLATPOS ->
                            truthy (cell_at b q) = truthy (cell_at b (0, 0))).
  { intros [r c] Hq.
    pose proof FLATPOS_in_range as Hrange. rewrite List.Forall_forall in Hrange.
    destruct (Hrange _ Hq) as [Hr Hc]. cbn [fst snd] in Hr, Hc.
    destruct (Hrow r Hr) as (H1 & H2 & H3).
    assert (Hr0 : truthy (cell_at b (r, 0)) = truthy (cell_at b (0, 0))).
    { destruct Hcol as (C1 & C2 & C3). unfold N in Hr.
      do 4 (destruct r as [|r]; [assumption || reflexivity|]). lia. }
    unfold N in Hc.
    do 4 (destruct c as [|c]; [congruence|]). lia. }
  assert (H00 : truthy (cell_at b (0, 0)) = true).
  { rewrite <- (Hsame p (FLATPOS_complete p Hp)). exact Ht. }
  unfold full_grid. apply List.forallb_forall. intros q Hq.
  rewrite (Hsame q Hq). exact H00.
Qed.

Lemma adjacent_follows (p q : pos) :
  in_range p -> in_range q -> adjacent p q = true ->
  exists dir posns, In dir DIRS /\ In posns dir /\ follows p q posns = true.
Proof.
  intros Hp Hq Hadj.
  assert (Htable :
            List.forallb
              (fun a => List.forallb
                 (fun c => implb (adjacent a c)
                             (List.existsb
                                (fun dir => List.existsb (follows a c) dir) DIRS))
                 FLATPOS)
              FLATPOS = true) by (vm_compute; reflexivity).
  rewrite List.forallb_forall in Htable.
  specialize (Htable p (FLATPOS_complete p Hp)).
  rewrite List.forallb_forall in Htable.
  specialize (Htable q (FLATPOS_complete q Hq)).
  rewrite Hadj in Htable. cbn [implb] in Htable.
  apply List.existsb_exists in Htable as (dir & Hdir & Hposns).
  apply List.existsb_exists in Hposns as (posns & Hposns & Hf).
  exists dir, posns. auto.
Qed.

Lemma follows_equal_pair (b : grid) (p q : pos) (posns : line) :
  follows p q posns = true ->
  equal_pair (line_values b posns) = false ->
  cell_eqb (cell_at b p) (cell_at b q) = false.
Proof.
  induction posns as [|a rest IH]; [discriminate|].
  destruct rest as [|c rest']; [discriminate|].
  rewrite !line_values_cons, equal_pair_cons. rewrite <- line_values_cons.
  cbn [follows]. intros Hf Hpair.
  apply orb_false_iff in Hpair as [Hac Hpair].
  apply orb_true_iff in Hf as [Hf|Hf].
  - apply andb_true_iff in Hf as [Ha Hc].
    apply bool_decide_eq_true in Ha, Hc. subst. exact Hac.
  - apply IH; assumption.
Qed.

Lemma full_grid_line (b : grid) (dir : direction) (posns : line) :
  full_grid b = true -> In dir DIRS -> In posns dir ->
  List.forallb truthy (line_values b posns) = true.
Proof.
  intros Hfull Hd Hposns. unfold line_values.
  rewrite List.forallb_forall. intros x Hx.
  apply List.in_map_iff in Hx as (r & <- & Hr).
  apply full_grid_spec; [exact Hfull|].
  eapply in_range_of_direction; eauto using DIRS_good.
Qed.

(** A pass over a grid with no occupied cell writes nothing. *)
Lemma move_lines_empty (jc : bool) (dir : direction) (s : scan) :
  (forall p, truthy (cell_at (sc_b s) p) = false) ->
  move_lines jc dir s = s.
Proof.
  intros Hempty. unfold move_lines.
  assert (Hline : forall posns, move_line jc posns s = s).
  { intros [|p rest]; [reflexivity|].
    assert (Hq : next_tile (sc_b s) rest = None).
    { apply next_tile_all_empty. unfold line_values.
      apply List.forallb_forall. intros x Hx.
      apply List.in_map_iff in Hx as (r & <- & _). rewrite Hempty. reflexivity. }
    assert (Hs1 : slide_into p rest s = s).
    { unfold slide_into. rewrite Hempty, Hq. reflexivity. }
    rewrite (move_line_cons jc p rest s s Hs1), Hempty. reflexivity. }
  induction dir as [|posns dir IH]; [reflexivity|].
  cbn [List.fold_left]. rewrite Hline. exact IH.
Qed.

Lemma cell_at_out_of_range (b : grid) (p : pos) :
  wf_grid b -> ~ in_range p -> cell_at b p = None.
Proof.
  intros [Hlen Hrows] Hout. unfold cell_at, lookup_cell.
  destruct (b !! p.1) as [row|] eqn:Hrow; [|reflexivity]. cbn.
  destruct (row !! p.2) as [x|] eqn:Hx; [|reflexivity].
  exfalso. apply Hout. split.
  - apply lookup_lt_Some in Hrow. lia.
  - rewrite Forall_lookup in Hrows. specialize (Hrows _ _ Hrow).
    apply lookup_lt_Some in Hx. lia.
Qed.

Lemma existsb_false {A : Type} (f : A -> bool) (l : list A) :
  List.existsb f l = false <-> forall x, In x l -> f x = false.
Proof.
  split.
  - intros H x Hx. destruct (f x) eqn:E; [|reflexivity].
    rewrite <- H. symmetry. apply List.existsb_exists. eauto.
  - intros H. destruct (List.existsb f l) eqn:E; [|reflexivity].
    apply List.existsb_exists in E as (x & Hx & Hf). rewrite (H x Hx) in Hf.
    discriminate.
Qed.

(** The pass of one of the four directions reports no change on a stuck
    grid. *)
Lemma stuck_grid_unmoved (jc : bool) (dir : direction) (s : scan) :
  In dir DIRS -> stuck_grid (sc_b s) -> move_lines jc dir s = s.
Proof.
  intros Hd [[Hfull Hneq]|Hempty].
  - apply move_lines_stuck; assumption.
  - apply move_lines_empty, Hempty.
Qed.

(** If no pass of the four directions reports a change, the grid is stuck. *)
Lemma unmoved_stuck_grid (b : grid) (w : bool) :
  wf_grid b ->
  (forall dir, In dir DIRS ->
               sc_moved (move_lines true dir (Scan b false w)) = false) ->
  stuck_grid b.
Proof.
  intros Hwf Hnone.
  assert (Hpacked : forall dir posns, In dir DIRS -> In posns dir ->
                                      packed (line_values b posns) = true).
  { intros dir posns Hd Hposns.
    destruct (packed (line_values b posns)) eqn:E; [reflexivity|].
    pose proof (move_lines_gap true dir posns (Scan b false w)
                  (DIRS_good dir Hd) Hposns Hwf E) as Hm.
    rewrite (Hnone dir Hd) in Hm. discriminate Hm. }
  destruct (full_grid b) eqn:Hfull.
  - left. split; [exact Hfull|].
    unfold no_equal_neighbours. apply List.forallb_forall. intros p Hp.
    apply List.forallb_forall. intros q Hq.
    destruct (adjacent p q) eqn:Hadj; [|reflexivity]. cbn [andb].
    apply negb_true_iff.
    pose proof FLATPOS_in_range as Hrange. rewrite List.Forall_forall in Hrange.
    destruct (adjacent_follows p q (Hrange p Hp) (Hrange q Hq) Hadj)
      as (dir & posns & Hd & Hposns & Hf).
    apply (follows_equal_pair b p q posns Hf).
    destruct (equal_pair (line_values b posns)) eqn:E; [|reflexivity].
    pose proof (move_lines_pair true dir posns (Scan b false w)
                  (DIRS_good dir Hd) Hposns Hwf
                  (full_grid_line b dir posns Hfull Hd Hposns) E) as Hm.
    rewrite (Hnone dir Hd) in Hm. discriminate Hm.
  - right. intros p. destruct (truthy (cell_at b p)) eqn:Ht; [|reflexivity].
    destruct (decide (in_range p)) as [Hp|Hp].
    + rewrite (all_packed_full b p Hpacked Hp Ht) in Hfull. discriminate.
    + rewrite (cell_at_out_of_range b p Hwf Hp) in Ht. discriminate.
Qed.

Lemma _cant_move_stuck (self : Board) :
  wf_grid (_cells self) ->
  (_cant_move self).1 = true <-> stuck_grid (_cells self).
Proof.
  intros Hwf. rewrite _cant_move_existsb, negb_true_iff, existsb_false.
  unfold slide_merge. cbn [fst]. split.
  - intros Hnone. apply (unmoved_stuck_grid _ (won self) Hwf). exact Hnone.
  - intros Hstuck dir Hd.
    rewrite (stuck_grid_unmoved true dir (Scan (_cells self) false (won self))
               Hd Hstuck).
    reflexivity.
Qed.

(** ** Every reachable Board holds a tile *)

Lemma tile_sum_empty_grid : tile_sum (repeat (repeat None N) N) = 0%Z.
Proof. reflexivity. Qed.

Lemma _add_tile_if_room_sum (dr : draw) (self : Board) :
  wf_grid (_cells self) ->
  (tile_sum (_cells self) <= tile_sum (_cells (_add_tile_if_room dr self)))%Z
  /\ (empty_cells (_cells self) <> [] ->
      (tile_sum (_cells self) + 2 <=
       tile_sum (_cells (_add_tile_if_room dr self)))%Z).
Proof.
  intros Hwf.
  destruct (_add_tile_if_room_cases dr self)
    as [[He ->]|(p & t & Hp & Hempty & Ht & ->)].
  - split; [lia|]. intros Hne. contradiction.
  - cbn [_cells]. rewrite tile_sum_spawn by assumption.
    destruct Ht as [-> | ->]; split; intros; lia.
Qed.

Lemma move_sum_le (dir : direction) (jc : bool) (dr : draw) (self : Board) :
  good_direction dir -> wf_grid (_cells self) ->
  (tile_sum (_cells self) <= tile_sum (_cells (move dir jc dr self).2))%Z.
Proof.
  intros Hg Hwf. destruct jc; [rewrite move_dry; cbn [snd]; lia|].
  destruct (move_real_grid dir dr self)
    as [->|(p & t & Hp & Hempty & Ht & _ & ->)].
  - rewrite slid_grid_sum by assumption. lia.
  - rewrite tile_sum_spawn; try assumption.
    + rewrite slid_grid_sum by assumption. destruct Ht as [-> | ->]; lia.
    + apply slid_grid_wf; assumption.
Qed.

Lemma reset_sum (dr1 dr2 : draw) (self : Board) :
  (4 <= tile_sum (_cells (reset dr1 dr2 self)))%Z.
Proof.
  unfold reset. cbn [_cells].
  set (b0 := mkBoard (repeat (repeat None N) N) (won self) (lost self)).
  assert (Hwf0 : wf_grid (_cells b0)).
  { cbn [_cells b0]. split; [reflexivity|]. repeat constructor. }
  assert (Hroom0 : empty_cells (_cells b0) <> []) by discriminate.
  pose proof (_add_tile_if_room_sum dr1 b0 Hwf0) as [_ H1].
  specialize (H1 Hroom0). change (tile_sum (_cells b0)) with 0%Z in H1.
  pose proof (_add_tile_if_room_wf dr1 b0 Hwf0) as Hwf1.
  pose proof (_add_tile_if_room_count dr1 b0 Hwf0) as Hc1.
  assert (Hroom1 : empty_cells (_cells (_add_tile_if_room dr1 b0)) <> []).
  { intros Hnil.
    destruct (_add_tile_if_room_cases dr1 b0)
      as [[He _]|(p & t & Hp & _ & _ & Heq)]; [contradiction|].
    rewrite Heq in Hnil. cbn [_cells b0] in Hnil.
    destruct (decide (p = (0, 0))) as [->|Hne].
    - apply (empty_cells_vacancy _ (0, 1)) in Hnil; [exact Hnil| |].
      + split; cbn; unfold N; lia.
      + rewrite cell_at_assign_ne by discriminate. reflexivity.
    - apply (empty_cells_vacancy _ (0, 0)) in Hnil; [exact Hnil| |].
      + split; cbn; unfold N; lia.
      + rewrite cell_at_assign_ne by exact Hne. reflexivity. }
  pose proof (_add_tile_if_room_sum dr2 _ Hwf1) as [_ H2].
  specialize (H2 Hroom1). lia.
Qed.

Lemma reachable_sum_pos (self : Board) :
  reachable self -> (0 < tile_sum (_cells self))%Z.
Proof.
  induction 1 as [dr1 dr2|dr1 dr2 self _ _|dir jc dr self Hreach IH Hd].
  - unfold __init__. pose proof (reset_sum dr1 dr2 (mkBoard [] false false)). lia.
  - pose proof (reset_sum dr1 dr2 self). lia.
  - pose proof (move_sum_le dir jc dr self (DIRS_good dir Hd)
                  (proj1 (reachable_inv self Hreach))). lia.
Qed.

Lemma tile_sum_no_tile (b : grid) :
  wf_grid b -> (forall p, truthy (cell_at b p) = false) -> tile_sum b = 0%Z.
Proof.
  intros Hwf Hempty. rewrite tile_sum_FLATPOS by exact Hwf.
  generalize FLATPOS. intros l. induction l as [|p l IH]; [reflexivity|].
  cbn [List.map List.fold_right]. rewrite (cell_value_falsy _ (Hempty p)), IH.
  reflexivity.
Qed.

Lemma reachable_stuck (self : Board) :
  reachable self ->
  stuck_grid (_cells self) <->
  full_grid (_cells self) = true /\ no_equal_neighbours (_cells self) = true.
Proof.
  intros Hreach. split; [|intros H; left; exact H].
  intros [H|Hempty]; [exact H|].
  pose proof (reachable_sum_pos self Hreach) as Hpos.
  rewrite (tile_sum_no_tile _ (proj1 (reachable_inv self Hreach)) Hempty) in Hpos.
  lia.
Qed.

(** ** The tile that wins *)

Lemma cell_eqb_eq (x y : cell) : cell_eqb x y = true -> x = y.
Proof.
  destruct x as [v|], y as [w|]; simpl; try discriminate; [|reflexivity].
  intros H. apply Z.eqb_eq in H. congruence.
Qed.

(** If [self.won] becomes true in the pass of a line, the line ends with a
    cell holding the goal. *)
Lemma move_line_won_tile (posns : line) :
  forall s,
    NoDup posns ->
    sc_won s = false -> sc_won (move_line false posns s) = true ->
    exists r, In r posns /\
              cell_at (sc_b (move_line false posns s)) r = Some GOAL.
Proof.
  induction posns as [|p rest IH]; intros s Hn Hw Hw'.
  { cbn [move_line] in Hw'. congruence. }
  apply NoDup_cons in Hn as [Hnin Hn]. rewrite list_elem_of_In in Hnin.
  set (s1 := slide_into p rest s) in *.
  assert (Hw1 : sc_won s1 = false) by (unfold s1; rewrite slide_into_won; exact Hw).
  rewrite (move_line_cons false p rest s s1 eq_refl) in Hw' |- *.
  destruct (negb _); [congruence|].
  destruct (next_tile (sc_b s1) rest) as [q|]; [|congruence].
  destruct (cell_eqb (cell_at (sc_b s1) p) (cell_at (sc_b s1) q)).
  - destruct (sc_won (merge_into false p q s1)) eqn:Hw2.
    + exists p. split; [left; reflexivity|].
      rewrite move_line_frame by exact Hnin.
      unfold merge_into in Hw2 |- *. cbn [sc_won sc_b] in Hw2 |- *.
      rewrite Hw1 in Hw2. cbn [negb andb orb] in Hw2.
      apply cell_eqb_eq, Hw2.
    + destruct (IH _ Hn Hw2 Hw') as (r & Hr & Hcell).
      exists r. split; [right; exact Hr|exact Hcell].
  - destruct (IH _ Hn Hw1 Hw') as (r & Hr & Hcell).
    exists r. split; [right; exact Hr|exact Hcell].
Qed.

Lemma move_lines_won_tile (dir : direction) :
  forall s,
    NoDup (concat dir) ->
    sc_won s = false -> sc_won (move_lines false dir s) = true ->
    exists r, cell_at (sc_b (move_lines false dir s)) r = Some GOAL.
Proof.
  unfold move_lines. induction dir as [|posns dir IH]; intros s Hn Hw Hw'.
  { cbn [List.fold_left] in Hw'. congruence. }
  cbn [concat] in Hn. apply NoDup_app in Hn as (Hnp & Hdis & Hnd).
  cbn [List.fold_left] in Hw' |- *.
  destruct (sc_won (move_line false posns s)) eqn:Hline.
  - destruct (move_line_won_tile posns s Hnp Hw Hline) as (r & Hr & Hcell).
    exists r. fold (move_lines false dir (move_line false posns s)).
    rewrite move_lines_frame; [exact Hcell|].
    rewrite <- list_elem_of_In. apply Hdis. rewrite list_elem_of_In. exact Hr.
  - apply IH; assumption.
Qed.

(** ** The key loop *)

Lemma loop_iteration_key_step (key : string) (dr1 dr2 : draw) (b : Board) :
  (loop_iteration key dr1 dr2 b).1 = key_step key dr1 dr2 b.
Proof.
  unfold loop_iteration, key_step.
  destruct (String.eqb key "n"); [reflexivity|].
  destruct (gameover b); [reflexivity|].
  destruct (String.eqb key "h" || String.eqb key "key_left");
    [destruct (move LEFT false dr1 b); reflexivity|].
  destruct (String.eqb key "l" || String.eqb key "key_right");
    [destruct (move RIGHT false dr1 b); reflexivity|].
  destruct (String.eqb key "j" || String.eqb key "key_down");
    [destruct (move DOWN false dr1 b); reflexivity|].
  destruct (String.eqb key "k" || String.eqb key "key_up");
    [destruct (move UP false dr1 b); reflexivity|].
  reflexivity.
Qed.

Lemma key_step_reachable (key : string) (dr1 dr2 : draw) (b : Board) :
  reachable b -> reachable (key_step key dr1 dr2 b).
Proof.
  intros Hreach. unfold key_step.
  destruct (String.eqb key "n"); [apply reach_reset, Hreach|].
  destruct (gameover b); [exact Hreach|].
  destruct (String.eqb key "h" || String.eqb key "key_left");
    [apply reach_move; [exact Hreach|right; left; reflexivity]|].
  destruct (String.eqb key "l" || String.eqb key "key_right");
    [apply reach_move; [exact Hreach|right; right; right; left; reflexivity]|].
  destruct (String.eqb key "j" || String.eqb key "key_down");
    [apply reach_move; [exact Hreach|right; right; left; reflexivity]|].
  destruct (String.eqb key "k" || String.eqb key "key_up");
    [apply reach_move; [exact Hreach|left; reflexivity]|].
  exact Hreach.
Qed.

Lemma main_loop_reachable (keys : list (string * draw * draw)) :
  forall b, reachable b -> reachable (main_loop keys b).
Proof.
  induction keys as [|[[key dr1] dr2] keys IH]; intros b Hreach; [exact Hreach|].
  cbn [main_loop]. destruct (String.eqb key "q"); [exact Hreach|].
  apply IH. rewrite loop_iteration_key_step. apply key_step_reachable, Hreach.
Qed.

(** A real move that returns false leaves the Board as it was but for
    [lost], which it recomputes. *)
Lemma move_unmoved_board (dir : direction) (dr : draw) (self : Board) :
  good_direction dir ->
  (move dir false dr self).1 = false ->
  (move dir false dr self).2 =
  mkBoard (_cells self) (won self) (negb (won self) && (_cant_move self).1).
Proof.
  intros Hg. rewrite move_real. cbv zeta. cbn [fst snd]. intros Hm.
  rewrite Hm. cbn [andb]. unfold after_loss_check.
  rewrite (pass_unmoved dir false self Hg Hm). cbn [sc_b sc_won].
  destruct self; reflexivity.
Qed.

Lemma move_redraw (dir : direction) (dr : draw) (b : Board) :
  In dir DIRS -> wf_grid (_cells b) -> gameover b = false ->
  (move dir false dr b).1 || gameover (move dir false dr b).2 = true <->
  (move dir false dr b).2 <> b.
Proof.
  intros Hd Hwf Hover. pose proof (DIRS_good dir Hd) as Hg.
  apply orb_false_iff in Hover as [Hw Hl].
  destruct ((move dir false dr b).1) eqn:Hm.
  - split; [|reflexivity]. intros _ Heq.
    apply (proj1 (move_changed_iff dir dr b Hg Hwf) Hm). rewrite Heq.
    reflexivity.
  - rewrite (move_unmoved_board dir dr b Hg Hm). cbn [orb].
    unfold gameover. cbn [won lost]. rewrite Hw. cbn [negb andb orb].
    destruct ((_cant_move b).1); split.
    + intros _ Heq. rewrite <- Heq in Hl. discriminate Hl.
    + reflexivity.
    + discriminate.
    + intros Hneq. exfalso. apply Hneq. destruct b. cbn in *. congruence.
Qed.

(** ** More on the spawn and on [reset] *)

Lemma full_grid_empty_cells (b : grid) :
  full_grid b = true <-> empty_cells b = [].
Proof.
  unfold full_grid, empty_cells. generalize FLATPOS. intros l.
  induction l as [|p l IH]; [split; reflexivity|].
  cbn [List.forallb List.filter].
  destruct (truthy (cell_at b p)); cbn [negb andb].
  - exact IH.
  - split; discriminate.
Qed.

Lemma _add_tile_if_room_cells (dr : draw) (self self' : Board) :
  _cells self = _cells self' ->
  _cells (_add_tile_if_room dr self) = _cells (_add_tile_if_room dr self').
Proof.
  intros Heq. unfold _add_tile_if_room. rewrite Heq.
  destruct (empty_cells (_cells self')); [exact Heq|reflexivity].
Qed.

(** What [reset] builds: the empty grid with two tiles, each a 2 or a 4, in
    two different cells. *)
Lemma reset_cells (dr1 dr2 : draw) (self : Board) :
  exists p1 t1 p2 t2,
    in_range p1 /\ in_range p2 /\ p1 <> p2
    /\ (t1 = 2 \/ t1 = 4)%Z /\ (t2 = 2 \/ t2 = 4)%Z
    /\ _cells (reset dr1 dr2 self) =
       assign (assign (repeat (repeat None N) N) p1 (Some t1)) p2 (Some t2).
Proof.
  unfold reset. cbn [_cells].
  set (b0 := mkBoard (repeat (repeat None N) N) (won self) (lost self)).
  assert (Hwf0 : wf_grid (_cells b0)).
  { cbn [_cells b0]. split; [reflexivity|]. repeat constructor. }
  destruct (_add_tile_if_room_cases dr1 b0)
    as [[He _]|(p1 & t1 & Hp1 & _ & Ht1 & Heq1)]; [discriminate He|].
  assert (Hat1 : cell_at (_cells (_add_tile_if_room dr1 b0)) p1 = Some t1).
  { rewrite Heq1. cbn [_cells]. apply cell_at_assign_eq; assumption. }
  destruct (_add_tile_if_room_cases dr2 (_add_tile_if_room dr1 b0))
    as [[He _]|(p2 & t2 & Hp2 & Hempty & Ht2 & Heq2)].
  - exfalso. revert He. rewrite Heq1. cbn [_cells b0].
    destruct (decide (p1 = (0, 0))) as [->|Hne].
    + apply (empty_cells_vacancy _ (0, 1)).
      * split; cbn; unfold N; lia.
      * rewrite cell_at_assign_ne by discriminate. reflexivity.
    + apply (empty_cells_vacancy _ (0, 0)).
      * split; cbn; unfold N; lia.
      * rewrite cell_at_assign_ne by exact Hne. reflexivity.
  - exists p1, t1, p2, t2.
    assert (Hne : p1 <> p2).
    { intros ->. rewrite Hat1 in Hempty.
      destruct Ht1 as [-> | ->]; discriminate Hempty. }
    repeat (split; [assumption|]).
    rewrite Heq2. cbn [_cells]. rewrite Heq1. reflexivity.
Qed.

(** ** How large the tiles get *)

(** A tile of the row rule's result is a tile it was given or the double of
    one. *)
Lemma merge_from_In (n : nat) :
  forall l a t,
    length l <= n -> In t (merge_from a l) ->
    In t (a :: l) \/ exists x, In x (a :: l) /\ t = (x * 2)%Z.
Proof.
  induction n as [|n IH]; intros l a t Hlen Hin.
  - destruct l; [|cbn in Hlen; lia]. left. exact Hin.
  - destruct l as [|b r]; [left; exact Hin|].
    cbn [merge_from] in Hin. cbn [length] in Hlen.
    destruct (a =? b)%Z.
    + destruct Hin as [<-|Hin].
      * right. exists a. split; [left; reflexivity|reflexivity].
      * destruct r as [|c r']; [destruct Hin|].
        cbn [length] in Hlen.
        destruct (IH r' c t ltac:(lia) Hin) as [H|(x & Hx & ->)].
        -- left. right. right. exact H.
        -- right. exists x. split; [right; right; exact Hx|reflexivity].
    + destruct Hin as [<-|Hin]; [left; left; reflexivity|].
      destruct (IH r b t ltac:(lia) Hin) as [H|(x & Hx & ->)].
      * left. right. exact H.
      * right. exists x. split; [right; exact Hx|reflexivity].
Qed.

Lemma merge_tiles_In (l : list Z) (t : Z) :
  In t (merge_tiles l) -> In t l \/ exists x, In x l /\ t = (x * 2)%Z.
Proof.
  destruct l as [|a l]; [intros []|]. cbn [merge_tiles].
  apply (merge_from_In (length l)). reflexivity.
Qed.

Lemma tiles_In (l : list cell) (a : Z) :
  In a (tiles l) -> In (Some a) l.
Proof.
  unfold tiles. rewrite List.in_flat_map. intros (x & Hx & Ha).
  destruct (truthy x) eqn:Ht; [|destruct Ha].
  destruct Ha as [<-|[]]. rewrite <- (truthy_Some _ Ht). exact Hx.
Qed.

Lemma row_move_capped (m : Z) (l : list cell) (y : cell) :
  (0 <= m)%Z -> Forall (capped m) l -> In y (row_move l) -> capped (m * 2) y.
Proof.
  intros Hm Hcap. unfold row_move. rewrite List.in_app_iff.
  rewrite List.Forall_forall in Hcap.
  intros [Hy|Hy].
  - apply List.in_map_iff in Hy as (t & <- & Ht). cbn [capped].
    destruct (merge_tiles_In _ _ Ht) as [Hin|(x & Hin & ->)].
    + specialize (Hcap _ (tiles_In _ _ Hin)). cbn [capped] in Hcap. lia.
    + specialize (Hcap _ (tiles_In _ _ Hin)). cbn [capped] in Hcap. lia.
  - apply List.repeat_spec in Hy. subst y. exact I.
Qed.

Lemma DIRS_cover (dir : direction) (p : pos) :
  In dir DIRS -> in_range p -> exists posns, In posns dir /\ In p posns.
Proof.
  intros Hd Hp. apply List.in_concat.
  assert (Htable : List.forallb
                     (fun d => List.forallb
                        (fun q => List.existsb (fun x => bool_decide (x = q))
                                    (concat d))
                        FLATPOS)
                     DIRS = true) by (vm_compute; reflexivity).
  rewrite List.forallb_forall in Htable. specialize (Htable dir Hd).
  rewrite List.forallb_forall in Htable.
  specialize (Htable p (FLATPOS_complete p Hp)).
  apply List.existsb_exists in Htable as (x & Hx & Heq).
  apply bool_decide_eq_true in Heq. subst x. exact Hx.
Qed.

(** After the pass no tile is more than twice the largest tile before it. *)
Lemma slid_grid_capped (m : Z) (dir : direction) (jc : bool) (self : Board) :
  (0 <= m)%Z -> In dir DIRS ->
  wf_grid (_cells self) -> grid_all not_zero (_cells self) ->
  (forall p, capped m (cell_at (_cells self) p)) ->
  forall p, capped (m * 2) (cell_at (slid_grid dir jc self) p).
Proof.
  intros Hm Hd Hwf Hnz Hcap p. pose proof (DIRS_good dir Hd) as Hg.
  destruct (decide (in_range p)) as [Hp|Hp].
  - destruct (DIRS_cover dir p Hd Hp) as (posns & Hposns & Hin).
    apply (row_move_capped m (line_values (_cells self) posns)); [exact Hm| |].
    + unfold line_values. apply List.Forall_forall. intros x Hx.
      apply List.in_map_iff in Hx as (r & <- & _). apply Hcap.
    + pose proof (move_lines_row jc dir posns (Scan (_cells self) false (won self))
                    Hg Hposns Hwf Hnz) as Hrow.
      cbn [sc_b] in Hrow. rewrite <- Hrow.
      unfold line_values, slid_grid. apply List.in_map. exact Hin.
  - rewrite (cell_at_out_of_range _ p (slid_grid_wf dir jc self Hg Hwf) Hp).
    exact I.
Qed.

(** Every tile on the grid in the course of the pass was there at the start
    or is in the log of the merges. *)
Lemma pass_steps_origin (jc : bool) (s s' : scan) (log : list cell) :
  pass_steps jc s log s' -> wf_grid (sc_b s) ->
  forall r, cell_at (sc_b s') r = None
            \/ (exists r0, cell_at (sc_b s) r0 = cell_at (sc_b s') r)
            \/ In (cell_at (sc_b s') r) log.
Proof.
  induction 1 as [s|s1 s2 s3 log ev Hsteps IH Hstep]; intros Hwf r.
  { right. left. exists r. reflexivity. }
  pose proof (pass_steps_wf _ _ _ _ Hsteps Hwf) as Hwf2.
  assert (Hold : forall x,
             cell_at (sc_b s2) x = None
             \/ (exists r0, cell_at (sc_b s1) r0 = cell_at (sc_b s2) x)
             \/ In (cell_at (sc_b s2) x) (log ++ ev)).
  { intros x. destruct (IH Hwf x) as [H|[H|H]]; auto.
    right. right. apply List.in_or_app. left. exact H. }
  destruct Hstep as [s p q Hp Hq Hne Htp Htq|s p q Hp Hq Hne Htp Htq He];
    cbn [sc_b merge_into].
  - destruct (decide (q = r)) as [->|Hqr].
    + left. apply cell_at_assign_eq; [apply wf_assign; exact Hwf2|exact Hq].
    + rewrite cell_at_assign_ne by exact Hqr.
      destruct (decide (p = r)) as [->|Hpr].
      * rewrite cell_at_assign_eq by assumption. apply Hold.
      * rewrite cell_at_assign_ne by exact Hpr. apply Hold.
  - destruct (decide (p = r)) as [->|Hpr].
    + right. right. apply List.in_or_app. right. left. reflexivity.
    + rewrite cell_at_assign_ne by exact Hpr.
      destruct (decide (q = r)) as [->|Hqr].
      * left. apply cell_at_assign_eq; assumption.
      * rewrite cell_at_assign_ne by exact Hqr. apply Hold.
Qed.

Lemma pow2_below_goal (v : Z) :
  pow2_ge2 v -> (v <= GOAL)%Z -> v <> GOAL -> (v <= 1024)%Z.
Proof.
  intros (k & Hk & ->) Hle Hne. unfold GOAL in *.
  assert (Hk11 : k < 11).
  { destruct (Nat.lt_ge_cases k 11) as [H|H]; [exact H|exfalso].
    destruct (Nat.eq_dec k 11) as [->|Hne11]; [apply Hne; reflexivity|].
    assert (H12 : (2 ^ 12 <= 2 ^ Z.of_nat k)%Z) by (apply Z.pow_le_mono_r; lia).
    change (2 ^ 12)%Z with 4096%Z in H12. lia. }
  change 1024%Z with (2 ^ 10)%Z. apply Z.pow_le_mono_r; lia.
Qed.

Lemma tile_ok_not_zero (b : grid) : grid_all tile_ok b -> grid_all not_zero b.
Proof.
  unfold grid_all. intros H. eapply List.Forall_impl; [|exact H].
  intros row Hrow. eapply List.Forall_impl; [|exact Hrow].
  intros [v|] Hv; [|discriminate]. intros Heq. injection Heq as ->.
  destruct Hv as (k & Hk & Hpow).
  assert (0 < 2 ^ Z.of_nat k)%Z by (apply Z.pow_pos_nonneg; lia). lia.
Qed.

Lemma capped_spawn (m : Z) (b : grid) (p : pos) (t : Z) :
  (4 <= m)%Z -> (t = 2 \/ t = 4)%Z ->
  (forall x, capped m (cell_at b x)) ->
  forall x, capped m (cell_at (assign b p (Some t)) x).
Proof.
  intros Hm Ht Hcap x.
  assert (Hor : cell_at (assign b p (Some t)) x = cell_at b x
                \/ cell_at (assign b p (Some t)) x = Some t).
  { destruct (decide (p = x)) as [->|Hne].
    - unfold cell_at, lookup_cell, assign. rewrite list_lookup_alter_eq.
      destruct (b !! x.1) as [row|]; cbn; [|left; reflexivity].
      destruct (decide (x.2 < length row)) as [Hlt|Hge].
      + right. rewrite list_lookup_insert_eq by exact Hlt. reflexivity.
      + left. rewrite list_insert_ge by lia. reflexivity.
    - left. apply cell_at_assign_ne, Hne. }
  destruct Hor as [-> | ->]; [apply Hcap|].
  cbn [capped]. destruct Ht as [-> | ->]; lia.
Qed.

Lemma cell_at_empty_grid (p : pos) : cell_at (repeat (repeat None N) N) p = None.
Proof.
  apply (grid_all_cell_at (fun x => x = None)); [reflexivity|].
  unfold grid_all, N. repeat constructor.
Qed.

Lemma reset_session (dr1 dr2 : draw) (b : Board) :
  reachable (reset dr1 dr2 b) -> session_inv (reset dr1 dr2 b).
Proof.
  intros Hreach.
  destruct (reset_cells dr1 dr2 b) as (p1 & t1 & p2 & t2 & _ & _ & _ & Ht1 & Ht2 & Heq).
  assert (Hcap : forall m, (4 <= m)%Z ->
                           forall p, capped m (cell_at (_cells (reset dr1 dr2 b)) p)).
  { intros m Hm. rewrite Heq.
    apply capped_spawn; [exact Hm|exact Ht2|].
    apply capped_spawn; [exact Hm|exact Ht1|].
    intros x. rewrite cell_at_empty_grid. exact I. }
  split; [exact Hreach|]. split; [apply Hcap; unfold GOAL; lia|].
  intros _. apply Hcap. lia.
Qed.

(** A move the key loop makes (the game is not over) keeps the tiles under
    the goal, and under half of it if the game is still not won. *)
Lemma move_session (dir : direction) (dr : draw) (b : Board) :
  In dir DIRS -> session_inv b -> gameover b = false ->
  session_inv (move dir false dr b).2.
Proof.
  intros Hd (Hreach & _ & Hhalf) Hover. pose proof (DIRS_good dir Hd) as Hg.
  apply orb_false_iff in Hover as [Hw _]. specialize (Hhalf Hw).
  destruct (reachable_inv b Hreach) as (Hwf & Htiles & _).
  pose proof (pass_of_move dir false b Hg) as Hsteps.
  assert (Hslid : forall p, capped GOAL (cell_at (slid_grid dir false b) p)).
  { apply (slid_grid_capped 1024 dir false b); try assumption; [lia|].
    apply tile_ok_not_zero, Htiles. }
  assert (Hslid_half :
            won (move dir false dr b).2 = false ->
            forall p, capped 1024 (cell_at (slid_grid dir false b) p)).
  { rewrite move_real_won, (pass_steps_won _ _ _ _ Hsteps). cbn [sc_won negb andb].
    rewrite Hw. cbn [orb]. intros Hlog p.
    destruct (pass_steps_origin _ _ _ _ Hsteps Hwf p) as [H|[(r0 & H)|H]].
    - unfold slid_grid. rewrite H. exact I.
    - unfold slid_grid. rewrite <- H. apply Hhalf.
    - fold (slid_grid dir false b) in H.
      pose proof (Hslid p) as Hle.
      pose proof (grid_all_cell_at tile_ok _ p I
                    (pass_steps_tiles _ _ _ _ Hsteps Htiles)) as Hok.
      fold (slid_grid dir false b) in Hok.
      destruct (cell_at (slid_grid dir false b) p) as [v|]; [|exact I].
      cbn [capped tile_ok] in *. apply pow2_below_goal; try assumption.
      intros ->. rewrite existsb_false in Hlog. specialize (Hlog _ H).
      discriminate Hlog. }
  split; [apply reach_move; assumption|].
  destruct (move_real_grid dir dr b)
    as [Hgrid|(p & t & Hp & Hempty & Ht & _ & Hgrid)]; rewrite Hgrid.
  - split; [exact Hslid|exact Hslid_half].
  - split.
    + apply capped_spawn; [unfold GOAL; lia|exact Ht|exact Hslid].
    + intros Hw'. apply capped_spawn; [lia|exact Ht|apply Hslid_half, Hw'].
Qed.

Lemma key_step_session (key : string) (dr1 dr2 : draw) (b : Board) :
  session_inv b -> session_inv (key_step key dr1 dr2 b).
Proof.
  intros Hinv. unfold key_step.
  destruct (String.eqb key "n").
  { apply reset_session, reach_reset, Hinv. }
  destruct (gameover b) eqn:Hover; [exact Hinv|].
  destruct (String.eqb key "h" || String.eqb key "key_left");
    [apply move_session; [right; left; reflexivity|exact Hinv|exact Hover]|].
  destruct (String.eqb key "l" || String.eqb key "key_right");
    [apply move_session;
     [right; right; right; left; reflexivity|exact Hinv|exact Hover]|].
  destruct (String.eqb key "j" || String.eqb key "key_down");
    [apply move_session; [right; right; left; reflexivity|exact Hinv|exact Hover]|].
  destruct (String.eqb key "k" || String.eqb key "key_up");
    [apply move_session; [left; reflexivity|exact Hinv|exact Hover]|].
  exact Hinv.
Qed.

Lemma main_loop_session (keys : list (string * draw * draw)) :
  forall b, session_inv b -> session_inv (main_loop keys b).
Proof.
  induction keys as [|[[key dr1] dr2] keys IH]; intros b Hinv; [exact Hinv|].
  cbn [main_loop]. destruct (String.eqb key "q"); [exact Hinv|].
  apply IH. rewrite loop_iteration_key_step. apply key_step_session, Hinv.
Qed.

(** ** The picture of the board *)

Lemma pow2_upto_goal (v : Z) :
  pow2_ge2 v -> (v <= GOAL)%Z ->
  In v [2; 4; 8; 16; 32; 64; 128; 256; 512; 1024; 2048]%Z.
Proof.
  intros (k & Hk & ->) Hle. unfold GOAL in Hle.
  assert (Hk11 : k <= 11).
  { destruct (Nat.le_gt_cases k 11) as [H|H]; [exact H|exfalso].
    assert (H12 : (2 ^ 12 <= 2 ^ Z.of_nat k)%Z) by (apply Z.pow_le_mono_r; lia).
    change (2 ^ 12)%Z with 4096%Z in H12. lia. }
  destruct k as [|k]; [lia|].
  do 11 (destruct k as [|k]; [cbn; tauto|]). lia.
Qed.

(** The field of an empty cell or of a tile up to the goal is five code
    points wide and holds no newline. *)
Lemma cell_field_width (x : cell) :
  tile_ok x -> capped GOAL x ->
  length (cell_field x) = 5 /\ ~ In 10%Z (cell_field x).
Proof.
  destruct x as [v|]; cbn [tile_ok capped].
  - intros Hok Hle. pose proof (pow2_upto_goal v Hok Hle) as Hin.
    cbn [In] in Hin.
    repeat (destruct Hin as [<-|Hin];
            [split; [reflexivity|cbn; intuition discriminate]|]).
    destruct Hin.
  - intros _ _. split; [reflexivity|cbn; intuition discriminate].
Qed.

Lemma flat_map_fields {A : Type} (f : A -> list Z) (w : nat) (l : list A) :
  (forall x, In x l -> length (f x) = w /\ ~ In 10%Z (f x)) ->
  length (List.flat_map f l) = length l * w /\ ~ In 10%Z (List.flat_map f l).
Proof.
  induction l as [|x l IH]; intros Hf; [split; [reflexivity|intros []]|].
  destruct (Hf x (or_introl eq_refl)) as [Hlen Hnl].
  destruct IH as [IHlen IHnl]; [intros y Hy; apply Hf; right; exact Hy|].
  cbn [List.flat_map length]. rewrite length_app, Hlen, IHlen. split; [lia|].
  rewrite List.in_app_iff. tauto.
Qed.

Lemma row_text_width (self : Board) (r : nat) :
  (forall p, tile_ok (cell_at (_cells self) p)
             /\ capped GOAL (cell_at (_cells self) p)) ->
  length (row_text self r) = 5 * N /\ ~ In 10%Z (row_text self r).
Proof.
  intros Hcells. unfold row_text.
  destruct (flat_map_fields
              (fun c => cell_field (cell_at (_cells self) (r, c))) 5 (seq 0 N))
    as [Hlen Hnl].
  - intros c _. apply cell_field_width; apply Hcells.
  - rewrite length_seq in Hlen. split; [lia|exact Hnl].
Qed.

Lemma flat_map_length {A : Type} (g : A -> list Z) (w : nat) (l : list A) :
  (forall x, In x l -> length (g x) = w) ->
  length (List.flat_map g l) = length l * w.
Proof.
  induction l as [|x l IH]; intros Hg; [reflexivity|].
  cbn [List.flat_map length]. rewrite length_app, (Hg x (or_introl eq_refl)).
  rewrite IH by (intros y Hy; apply Hg; right; exact Hy). lia.
Qed.

Lemma __repr___length (self : Board) :
  (forall p, tile_ok (cell_at (_cells self) p)
             /\ capped GOAL (cell_at (_cells self) p)) ->
  length (__repr__ self) = 1 + N * (5 * N + 1).
Proof.
  intros Hcells. unfold __repr__. cbn [length]. f_equal.
  rewrite (flat_map_length _ (5 * N + 1)).
  - rewrite length_seq. reflexivity.
  - intros r _. rewrite length_app.
    destruct (row_text_width self r Hcells) as [-> _]. cbn [length]. lia.
Qed.

Lemma move_real_lost (dir : direction) (dr : draw) (self : Board) :
  lost (move dir false dr self).2 = lost (after_loss_check dir self).
Proof.
  rewrite move_real. cbv zeta. cbn [snd].
  destruct (_ && negb _); [|reflexivity].
  destruct (_add_tile_if_room_flags dr (after_loss_check dir self)) as [_ ->].
  reflexivity.
Qed.

(** A real move leaves [lost] true exactly when it is made on a Board that
    is not won and whose grid is stuck; it then returns false. *)
Lemma move_lost_iff (dir : direction) (dr : draw) (self : Board) :
  In dir DIRS -> wf_grid (_cells self) -> (0 < tile_sum (_cells self))%Z ->
  (lost (move dir false dr self).2 = true <->
   won self = false /\ stuck_grid (_cells self))
  /\ ((move dir false dr self).1 = true -> lost (move dir false dr self).2 = false).
Proof.
  intros Hd Hwf Hpos. pose proof (DIRS_good dir Hd) as Hg.
  pose proof (pass_of_move dir false self Hg) as Hsteps.
  set (s0 := Scan (_cells self) false (won self)) in *.
  assert (Hlost : lost (move dir false dr self).2 = true ->
                  sc_moved (move_lines false dir s0) = false
                  /\ won self = false /\ stuck_grid (_cells self)).
  { rewrite move_real_lost. unfold after_loss_check. fold s0. cbn [lost].
    intros H. apply andb_true_iff in H as [Hw Hcant].
    apply negb_true_iff in Hw.
    apply _cant_move_stuck in Hcant;
      [|cbn [_cells]; apply move_lines_wf; assumption].
    cbn [_cells] in Hcant.
    assert (Hm : sc_moved (move_lines false dir s0) = false).
    { destruct (sc_moved (move_lines false dir s0)) eqn:Hm; [exfalso|reflexivity].
      destruct (pass_steps_vacancy _ _ _ _ Hsteps Hwf eq_refl Hm)
        as (q & Hq & Hnone).
      destruct Hcant as [[Hfull _]|Hempty].
      - pose proof (full_grid_spec _ q Hfull Hq) as Ht. rewrite Hnone in Ht.
        discriminate Ht.
      - pose proof (tile_sum_no_tile _ (move_lines_wf false dir s0 Hg Hwf) Hempty)
          as Hzero.
        rewrite (pass_steps_sum _ _ _ _ Hsteps Hwf) in Hzero. cbn [sc_b s0] in Hzero.
        lia. }
    destruct (pass_steps_unmoved _ _ _ _ Hsteps Hm) as [Heq _].
    rewrite Heq in Hw, Hcant. split; [exact Hm|]. split; assumption. }
  split; [split|].
  - intros H. apply Hlost in H. tauto.
  - intros [Hw Hstuck]. rewrite move_real_lost. unfold after_loss_check. fold s0.
    rewrite (stuck_grid_unmoved false dir s0 Hd Hstuck). cbn [lost sc_b sc_won s0].
    rewrite Hw. cbn [negb andb]. apply _cant_move_stuck; assumption.
  - intros Hm. destruct (lost (move dir false dr self).2) eqn:Hl; [|reflexivity].
    destruct (Hlost eq_refl) as [Hm' _]. rewrite move_real_fst in Hm. fold s0 in Hm.
    congruence.
Qed.

(** * Further properties: the statements *)

(** X1. In any line of any of the four directions, the slide/merge pass
    computes the row rule of the game on the values of the line (the tiles
    packed to the front, equal neighbours merged once from the front), on a
    grid with no int 0 in it. *)
Theorem pass_is_row_rule
    (dir : direction) (posns : line) (jc : bool) (self : Board) :
  wf_grid (_cells self) -> grid_all not_zero (_cells self) ->
  In dir DIRS -> In posns dir ->
  line_values (slid_grid dir jc self) posns =
  row_move (line_values (_cells self) posns).
Proof.
  intros Hwf Hnz Hd Hposns. unfold slid_grid.
  apply (move_lines_row jc dir posns (Scan (_cells self) false (won self)));
    try assumption.
  apply DIRS_good, Hd.
Qed.

Lemma pass_is_row_rule_witness :
  line_values (slid_grid DOWN false (mkBoard demo_grid false false))
    [(3, 1); (2, 1); (1, 1); (0, 1)] =
  row_move (line_values demo_grid [(3, 1); (2, 1); (1, 1); (0, 1)]).
Proof.
  apply (pass_is_row_rule DOWN [(3, 1); (2, 1); (1, 1); (0, 1)] false
           (mkBoard demo_grid false false)).
  - split; [reflexivity|]. repeat constructor.
  - repeat constructor; discriminate.
  - right. right. left. reflexivity.
  - right. left. reflexivity.
Defined.

(** X2. The slide/merge pass keeps the sum of the tiles; a real move adds
    to it the spawned tile only: 0, 2 or 4, and 0 when it returns false. *)
Theorem move_keeps_tile_sum
    (dir : direction) (jc : bool) (dr : draw) (self : Board) :
  wf_grid (_cells self) -> In dir DIRS ->
  tile_sum (slid_grid dir jc self) = tile_sum (_cells self)
  /\ exists t,
       (t = 0 \/ t = 2 \/ t = 4)%Z
       /\ tile_sum (_cells (move dir false dr self).2)
          = (tile_sum (_cells self) + t)%Z
       /\ ((move dir false dr self).1 = false -> t = 0%Z).
Proof.
  intros Hwf Hd. pose proof (DIRS_good dir Hd) as Hg.
  split; [apply slid_grid_sum; assumption|].
  destruct (move_real_grid dir dr self)
    as [Hgrid|(p & t & Hp & Hempty & Ht & Hm & Hgrid)].
  - exists 0%Z. rewrite Hgrid, slid_grid_sum by assumption.
    split; [tauto|]. split; [lia|reflexivity].
  - exists t. rewrite Hgrid, tile_sum_spawn; try assumption.
    + rewrite slid_grid_sum by assumption.
      split; [tauto|]. split; [reflexivity|]. rewrite Hm. discriminate.
    + apply slid_grid_wf; assumption.
Qed.

Lemma move_keeps_tile_sum_witness :
  tile_sum (slid_grid LEFT false fresh_board) = tile_sum (_cells fresh_board)
  /\ exists t,
       (t = 0 \/ t = 2 \/ t = 4)%Z
       /\ tile_sum (_cells (move LEFT false (Draw 0 0) fresh_board).2)
          = (tile_sum (_cells fresh_board) + t)%Z
       /\ ((move LEFT false (Draw 0 0) fresh_board).1 = false -> t = 0%Z).
Proof.
  apply (move_keeps_tile_sum LEFT false (Draw 0 0) fresh_board).
  - split; [reflexivity|]. repeat constructor.
  - right. left. reflexivity.
Defined.

(** X3. A real move in one of the four directions returns true exactly when
    the grid after the call differs from the grid before it. *)
Theorem move_returns_grid_changed (dir : direction) (dr : draw) (self : Board) :
  wf_grid (_cells self) -> In dir DIRS ->
  (move dir false dr self).1 = true <->
  _cells (move dir false dr self).2 <> _cells self.
Proof.
  intros Hwf Hd. apply move_changed_iff; [apply DIRS_good, Hd|exact Hwf].
Qed.

Lemma move_returns_grid_changed_witness :
  (move LEFT false (Draw 0 0) fresh_board).1 = true <->
  _cells (move LEFT false (Draw 0 0) fresh_board).2 <> _cells fresh_board.
Proof.
  apply (move_returns_grid_changed LEFT (Draw 0 0) fresh_board).
  - split; [reflexivity|]. repeat constructor.
  - right. left. reflexivity.
Defined.

(** X4. [_cant_move] leaves the Board as it is, and returns true exactly on
    a stuck grid: a full grid with no two equal neighbours, or a grid with
    no tile at all. *)
Theorem cant_move_iff_stuck (self : Board) :
  wf_grid (_cells self) ->
  (_cant_move self).2 = self
  /\ ((_cant_move self).1 = true <-> stuck_grid (_cells self)).
Proof.
  intros Hwf. split; [apply _cant_move_state|apply _cant_move_stuck, Hwf].
Qed.

Lemma cant_move_iff_stuck_witness :
  (_cant_move stuck_board).2 = stuck_board
  /\ ((_cant_move stuck_board).1 = true <-> stuck_grid (_cells stuck_board)).
Proof.
  apply (cant_move_iff_stuck stuck_board).
  split; [reflexivity|]. repeat constructor.
Defined.

(** X5. From a reachable state, a real move leaves [lost] true exactly when
    the Board it is made on is not won and is already full with no two equal
    neighbours; a move that returns true never leaves [lost] true, whatever
    the spawn does to the grid. *)
Theorem lost_iff_stuck_before (dir : direction) (dr : draw) (self : Board) :
  reachable self -> In dir DIRS ->
  (lost (move dir false dr self).2 = true <->
   won self = false /\ full_grid (_cells self) = true
   /\ no_equal_neighbours (_cells self) = true)
  /\ ((move dir false dr self).1 = true -> lost (move dir false dr self).2 = false).
Proof.
  intros Hreach Hd.
  destruct (move_lost_iff dir dr self Hd (proj1 (reachable_inv self Hreach))
              (reachable_sum_pos self Hreach)) as [Hiff Hmoved].
  split; [|exact Hmoved].
  rewrite Hiff, (reachable_stuck self Hreach). reflexivity.
Qed.

Lemma lost_iff_stuck_before_witness :
  (lost (move LEFT false (Draw 0 0) fresh_board).2 = true <->
   won fresh_board = false /\ full_grid (_cells fresh_board) = true
   /\ no_equal_neighbours (_cells fresh_board) = true)
  /\ ((move LEFT false (Draw 0 0) fresh_board).1 = true ->
      lost (move LEFT false (Draw 0 0) fresh_board).2 = false).
Proof.
  apply (lost_iff_stuck_before LEFT (Draw 0 0) fresh_board).
  - apply reach_init.
  - right. left. reflexivity.
Defined.

(** X6. When a real move in one of the four directions turns [won] from
    false to true, it returns true, spawns nothing, and the grid it leaves
    holds a tile equal to the goal. *)
Theorem win_leaves_goal_tile (dir : direction) (dr : draw) (self : Board) :
  In dir DIRS -> won self = false ->
  won (move dir false dr self).2 = true ->
  (move dir false dr self).1 = true
  /\ _cells (move dir false dr self).2 = slid_grid dir false self
  /\ exists r, cell_at (_cells (move dir false dr self).2) r = Some GOAL.
Proof.
  intros Hd Hw0 Hw. pose proof (DIRS_good dir Hd) as Hg.
  rewrite move_real_won in Hw.
  assert (Hm : sc_moved (move_lines false dir (Scan (_cells self) false (won self)))
               = true).
  { destruct (sc_moved _) eqn:Hm; [reflexivity|].
    rewrite (pass_unmoved dir false self Hg Hm) in Hw. cbn [sc_won] in Hw.
    congruence. }
  assert (Hafter : move dir false dr self =
                   (true, mkBoard (slid_grid dir false self) true false)).
  { rewrite move_real. cbv zeta. unfold after_loss_check, gameover.
    cbn [won lost]. rewrite Hw, Hm. cbn [negb andb orb]. reflexivity. }
  rewrite Hafter. cbn [fst snd _cells].
  split; [reflexivity|]. split; [reflexivity|].
  apply (move_lines_won_tile dir (Scan (_cells self) false (won self)));
    [apply Hg|exact Hw0|exact Hw].
Qed.

Lemma win_leaves_goal_tile_witness :
  (move LEFT false (Draw 0 0) almost_won).1 = true
  /\ _cells (move LEFT false (Draw 0 0) almost_won).2 = slid_grid LEFT false almost_won
  /\ exists r, cell_at (_cells (move LEFT false (Draw 0 0) almost_won).2) r = Some GOAL.
Proof.
  apply (win_leaves_goal_tile LEFT (Draw 0 0) almost_won).
  - right. left. reflexivity.
  - reflexivity.
  - reflexivity.
Defined.

(** X7. [reset], whatever the Board it is called on and whatever the draws,
    leaves an [N]x[N] grid with exactly two occupied cells, each holding a 2
    or a 4, and [won] and [lost] false; it is the Board [Board()] builds
    with the same draws. *)
Theorem reset_two_tiles (dr1 dr2 : draw) (self : Board) :
  wf_grid (_cells (reset dr1 dr2 self))
  /\ occupied_count (_cells (reset dr1 dr2 self)) = 2
  /\ (forall p, cell_at (_cells (reset dr1 dr2 self)) p = None
                \/ cell_at (_cells (reset dr1 dr2 self)) p = Some 2%Z
                \/ cell_at (_cells (reset dr1 dr2 self)) p = Some 4%Z)
  /\ won (reset dr1 dr2 self) = false
  /\ lost (reset dr1 dr2 self) = false
  /\ reset dr1 dr2 self = __init__ dr1 dr2.
Proof.
  destruct (reset_cells dr1 dr2 self)
    as (p1 & t1 & p2 & t2 & Hp1 & Hp2 & Hne & Ht1 & Ht2 & Heq).
  assert (Hwf0 : wf_grid (repeat (repeat None N) N))
    by (split; [reflexivity|repeat constructor]).
  split; [rewrite Heq; repeat apply wf_assign; exact Hwf0|].
  split.
  { rewrite Heq.
    pose proof (occupied_count_assign _ p1 (Some t1) Hwf0 Hp1) as H1.
    pose proof (occupied_count_assign _ p2 (Some t2)
                  (wf_assign _ p1 (Some t1) Hwf0) Hp2) as H2.
    rewrite cell_at_assign_ne in H2 by exact Hne.
    rewrite cell_at_empty_grid in H1, H2.
    assert (Htt1 : truthy (Some t1) = true) by (destruct Ht1 as [-> | ->]; reflexivity).
    assert (Htt2 : truthy (Some t2) = true) by (destruct Ht2 as [-> | ->]; reflexivity).
    rewrite Htt1 in H1. rewrite Htt2 in H2. cbn [truthy Nat.b2n] in H1, H2.
    change (occupied_count (repeat (repeat None N) N)) with 0 in H1. lia. }
  split.
  { intros p. rewrite Heq.
    destruct (decide (p2 = p)) as [->|Hn2].
    - rewrite cell_at_assign_eq; [|apply wf_assign; exact Hwf0|exact Hp2].
      destruct Ht2 as [-> | ->]; auto.
    - rewrite cell_at_assign_ne by exact Hn2.
      destruct (decide (p1 = p)) as [->|Hn1].
      + rewrite cell_at_assign_eq by assumption. destruct Ht1 as [-> | ->]; auto.
      + rewrite cell_at_assign_ne by exact Hn1. left. apply cell_at_empty_grid. }
  split; [reflexivity|]. split; [reflexivity|].
  unfold __init__, reset. f_equal.
  apply _add_tile_if_room_cells, _add_tile_if_room_cells. reflexivity.
Qed.

(** X8. The spawn on a full grid does nothing; otherwise it changes exactly
    one cell, which was empty and now holds a 2 or a 4, and leaves [won] and
    [lost] as they were. *)
Theorem spawn_contract (dr : draw) (self : Board) :
  wf_grid (_cells self) ->
  (full_grid (_cells self) = true -> _add_tile_if_room dr self = self)
  /\ (full_grid (_cells self) = false ->
      exists p t,
        in_range p /\ truthy (cell_at (_cells self) p) = false
        /\ (t = 2 \/ t = 4)%Z
        /\ cell_at (_cells (_add_tile_if_room dr self)) p = Some t
        /\ (forall q, q <> p ->
                      cell_at (_cells (_add_tile_if_room dr self)) q =
                      cell_at (_cells self) q)
        /\ won (_add_tile_if_room dr self) = won self
        /\ lost (_add_tile_if_room dr self) = lost self).
Proof.
  intros Hwf. split.
  - intros Hfull. apply full_grid_empty_cells in Hfull.
    unfold _add_tile_if_room. rewrite Hfull. reflexivity.
  - intros Hfull.
    destruct (_add_tile_if_room_cases dr self)
      as [[He _]|(p & t & Hp & Hempty & Ht & Heq)].
    + apply full_grid_empty_cells in He. congruence.
    + exists p, t. rewrite Heq. cbn [_cells won lost].
      split; [exact Hp|]. split; [exact Hempty|]. split; [exact Ht|].
      split; [apply cell_at_assign_eq; assumption|].
      split; [|split; reflexivity].
      intros q Hq. apply cell_at_assign_ne. congruence.
Qed.

Lemma spawn_contract_witness :
  (full_grid (_cells fresh_board) = true ->
   _add_tile_if_room (Draw 3 9) fresh_board = fresh_board)
  /\ (full_grid (_cells fresh_board) = false ->
      exists p t,
        in_range p /\ truthy (cell_at (_cells fresh_board) p) = false
        /\ (t = 2 \/ t = 4)%Z
        /\ cell_at (_cells (_add_tile_if_room (Draw 3 9) fresh_board)) p = Some t
        /\ (forall q, q <> p ->
                      cell_at (_cells (_add_tile_if_room (Draw 3 9) fresh_board)) q =
                      cell_at (_cells fresh_board) q)
        /\ won (_add_tile_if_room (Draw 3 9) fresh_board) = won fresh_board
        /\ lost (_add_tile_if_room (Draw 3 9) fresh_board) = lost fresh_board).
Proof.
  apply (spawn_contract (Draw 3 9) fresh_board).
  split; [reflexivity|]. repeat constructor.
Defined.

(** X9. The spawn can come out on every empty cell, with a 2 as well as with
    a 4: for each there are draws that give it. *)
Theorem spawn_reaches_every_empty_cell (self : Board) (p : pos) (t : Z) :
  In p (empty_cells (_cells self)) -> (t = 2 \/ t = 4)%Z ->
  exists dr,
    _add_tile_if_room dr self =
    mkBoard (assign (_cells self) p (Some t)) (won self) (lost self).
Proof.
  intros Hin Ht.
  destruct (List.In_nth _ _ (0, 0) Hin) as (k & Hk & Hnth).
  exists (Draw k (if (t =? 2)%Z then 0 else 9)).
  unfold _add_tile_if_room, random_choice. cbn [dr_choice dr_tile].
  destruct (empty_cells (_cells self)) as [|e l] eqn:He; [destruct Hin|].
  rewrite Nat.mod_small by exact Hk. rewrite Hnth.
  destruct Ht as [-> | ->]; reflexivity.
Qed.

Lemma spawn_reaches_every_empty_cell_witness :
  exists dr,
    _add_tile_if_room dr fresh_board =
    mkBoard (assign (_cells fresh_board) (3, 3) (Some 4%Z))
            (won fresh_board) (lost fresh_board).
Proof.
  apply (spawn_reaches_every_empty_cell fresh_board (3, 3) 4%Z).
  - vm_compute. tauto.
  - right. reflexivity.
Defined.

Lemma session_start (keys : list (string * draw * draw)) (dra drb : draw) :
  session_inv (main_loop keys (__init__ dra drb)).
Proof.
  apply main_loop_session. unfold __init__. apply reset_session.
  apply (reach_init dra drb).
Qed.

Lemma session_cells (b : Board) (p : pos) :
  session_inv b ->
  tile_ok (cell_at (_cells b) p) /\ capped GOAL (cell_at (_cells b) p).
Proof.
  intros (Hreach & Hcap & _). split; [|apply Hcap].
  apply grid_all_cell_at; [exact I|]. apply (reachable_inv b Hreach).
Qed.

(** X10. Whatever keys the loop of [main] reads, the Board it holds is a
    reachable one whose tiles are powers of two from 2 to the goal, 2048,
    and at most 1024 as long as [won] is false. *)
Theorem session_tiles_bounded
    (keys : list (string * draw * draw)) (dra drb : draw) :
  reachable (main_loop keys (__init__ dra drb))
  /\ (forall p v,
        cell_at (_cells (main_loop keys (__init__ dra drb))) p = Some v ->
        pow2_ge2 v /\ (2 <= v <= GOAL)%Z)
  /\ (won (main_loop keys (__init__ dra drb)) = false ->
      forall p v,
        cell_at (_cells (main_loop keys (__init__ dra drb))) p = Some v ->
        (v <= 1024)%Z).
Proof.
  pose proof (session_start keys dra drb) as Hinv.
  set (b := main_loop keys (__init__ dra drb)) in *.
  split; [apply Hinv|]. split.
  - intros p v Hv. destruct (session_cells b p Hinv) as [Hok Hcap].
    rewrite Hv in Hok, Hcap. cbn [tile_ok capped] in Hok, Hcap.
    split; [exact Hok|]. split; [|exact Hcap].
    destruct Hok as (k & Hk & ->).
    change 2%Z with (2 ^ 1)%Z at 1. apply Z.pow_le_mono_r; lia.
  - intros Hw p v Hv. destruct Hinv as (_ & _ & Hhalf).
    specialize (Hhalf Hw p). rewrite Hv in Hhalf. exact Hhalf.
Qed.

(** X11. Once the game is over, won or lost, the loop of [main] leaves the
    Board as it is whatever keys it reads, until it reads ["n"]. *)
Theorem gameover_freezes_session
    (keys : list (string * draw * draw)) (b : Board) :
  gameover b = true ->
  (forall key dr1 dr2, In (key, dr1, dr2) keys -> key <> "n"%string) ->
  main_loop keys b = b.
Proof.
  intros Hover. induction keys as [|[[key dr1] dr2] keys IH]; intros Hkeys;
    [reflexivity|].
  cbn [main_loop]. destruct (String.eqb key "q"); [reflexivity|].
  assert (Hstep : (loop_iteration key dr1 dr2 b).1 = b).
  { unfold loop_iteration.
    assert (Hn : String.eqb key "n" = false).
    { apply String.eqb_neq. apply (Hkeys key dr1 dr2). left. reflexivity. }
    rewrite Hn, Hover. reflexivity. }
  rewrite Hstep. apply IH. intros k d1 d2 Hin. apply (Hkeys k d1 d2).
  right. exact Hin.
Qed.

Lemma gameover_freezes_session_witness :
  main_loop [("h"%string, Draw 0 0, Draw 0 0); ("key_up"%string, Draw 1 1, Draw 0 0)]
            won_game = won_game.
Proof.
  apply (gameover_freezes_session
           [("h"%string, Draw 0 0, Draw 0 0); ("key_up"%string, Draw 1 1, Draw 0 0)]
           won_game).
  - vm_compute. reflexivity.
  - intros key dr1 dr2 [H|[H|[]]]; injection H as <- _ _; discriminate.
Defined.

(** X12. One iteration of the loop of [main] on a key other than ["n"]
    calls [redraw] exactly when it has changed the Board; on ["n"] it always
    calls it. *)
Theorem redraw_iff_changed (key : string) (dr1 dr2 : draw) (b : Board) :
  wf_grid (_cells b) ->
  (key = "n"%string -> (loop_iteration key dr1 dr2 b).2 = true)
  /\ (key <> "n"%string ->
      ((loop_iteration key dr1 dr2 b).2 = true <->
       (loop_iteration key dr1 dr2 b).1 <> b)).
Proof.
  intros Hwf. split.
  - intros ->. reflexivity.
  - intros Hkey. apply String.eqb_neq in Hkey. unfold loop_iteration.
    rewrite Hkey. destruct (gameover b) eqn:Hover.
    { cbn [fst snd]. split; [discriminate|]. intros H. exfalso. apply H.
      reflexivity. }
    destruct (String.eqb key "h" || String.eqb key "key_left").
    { pose proof (move_redraw LEFT dr1 b) as H.
      destruct (move LEFT false dr1 b) as [m b']. cbn [fst snd] in *.
      apply H; [right; left; reflexivity|exact Hwf|exact Hover]. }
    destruct (String.eqb key "l" || String.eqb key "key_right").
    { pose proof (move_redraw RIGHT dr1 b) as H.
      destruct (move RIGHT false dr1 b) as [m b']. cbn [fst snd] in *.
      apply H; [right; right; right; left; reflexivity|exact Hwf|exact Hover]. }
    destruct (String.eqb key "j" || String.eqb key "key_down").
    { pose proof (move_redraw DOWN dr1 b) as H.
      destruct (move DOWN false dr1 b) as [m b']. cbn [fst snd] in *.
      apply H; [right; right; left; reflexivity|exact Hwf|exact Hover]. }
    destruct (String.eqb key "k" || String.eqb key "key_up").
    { pose proof (move_redraw UP dr1 b) as H.
      destruct (move UP false dr1 b) as [m b']. cbn [fst snd] in *.
      apply H; [left; reflexivity|exact Hwf|exact Hover]. }
    cbn [fst snd orb]. rewrite Hover. split; [discriminate|].
    intros H. exfalso. apply H. reflexivity.
Qed.

Lemma redraw_iff_changed_witness :
  ("h"%string = "n"%string ->
   (loop_iteration "h" (Draw 0 0) (Draw 0 0) fresh_board).2 = true)
  /\ ("h"%string <> "n"%string ->
      ((loop_iteration "h" (Draw 0 0) (Draw 0 0) fresh_board).2 = true <->
       (loop_iteration "h" (Draw 0 0) (Draw 0 0) fresh_board).1 <> fresh_board)).
Proof.
  apply (redraw_iff_changed "h" (Draw 0 0) (Draw 0 0) fresh_board).
  split; [reflexivity|]. repeat constructor.
Defined.

(** X13. Whatever keys the loop of [main] has read, the text [__repr__]
    gives for its Board is a newline followed by [N] rows, each of exactly
    [5 * N] code points without a newline in them, and a newline after each
    row. *)
Theorem repr_layout (keys : list (string * draw * draw)) (dra drb : draw) :
  length (__repr__ (main_loop keys (__init__ dra drb))) = 1 + N * (5 * N + 1)
  /\ forall r,
       length (row_text (main_loop keys (__init__ dra drb)) r) = 5 * N
       /\ ~ In 10%Z (row_text (main_loop keys (__init__ dra drb)) r).
Proof.
  pose proof (session_start keys dra drb) as Hinv.
  set (b := main_loop keys (__init__ dra drb)) in *.
  assert (Hcells : forall p, tile_ok (cell_at (_cells b) p)
                             /\ capped GOAL (cell_at (_cells b) p))
    by (intros p; apply session_cells, Hinv).
  split; [apply __repr___length, Hcells|].
  intros r. apply row_text_width, Hcells.
Qed.

(** X14. In every reachable state the status line of [redraw] tells the
    state of the game: it reads "You won!" exactly when [won] is true,
    "You lost!" exactly when [lost] is true, and the key help otherwise. *)
Theorem status_line_tells (b : Board) :
  reachable b ->
  (status_line b = "You won!"%string <-> won b = true)
  /\ (status_line b = "You lost!"%string <-> lost b = true)
  /\ (status_line b = "Use the arrow keys or H, J, K, L to move."%string <->
      gameover b = false).
Proof.
  intros Hreach. destruct (reachable_inv b Hreach) as (_ & _ & Hflags).
  unfold status_line, gameover.
  destruct (won b), (lost b); cbn in *; try discriminate Hflags;
    repeat split; intros H; (reflexivity || discriminate H).
Qed.

Lemma status_line_tells_witness :
  (status_line won_game = "You won!"%string <-> won won_game = true)
  /\ (status_line won_game = "You lost!"%string <-> lost won_game = true)
  /\ (status_line won_game = "Use the arrow keys or H, J, K, L to move."%string <->
      gameover won_game = false).
Proof. apply (status_line_tells won_game). exact won_game_reachable. Defined.
